(** * License engine of tlat-license-server (src/services/license.js)

    A shallow embedding of the license service (the version with product
    binding and the development-domain carve-out) and of the part of the
    SQLite schema (src/db/init.js) its statements run against, followed by
    theorems about activation, deactivation, validation and key creation. *)

From Stdlib Require Import ZArith List String Ascii Bool Lia DecimalString.
Import ListNotations.

Open Scope Z_scope.
Open Scope string_scope.

(** ** JavaScript strings

    Strings are sequences of 8-bit characters.  Every pattern the service
    compares against is ASCII, and [toLowerCase] maps [A-Z] to [a-z]. *)

Module JsString.

Definition lower_ascii (c : ascii) : ascii :=
  let n := nat_of_ascii c in
  if ((65 <=? n)%nat && (n <=? 90)%nat)%bool then ascii_of_nat (n + 32)%nat else c.

Fixpoint toLowerCase (s : string) : string :=
  match s with
  | EmptyString => EmptyString
  | String c r => String (lower_ascii c) (toLowerCase r)
  end.

(** [d.startsWith(p)] *)
Definition startsWith (d p : string) : bool := String.prefix p d.

(** [d.endsWith(p)] *)
Definition endsWith (d p : string) : bool :=
  ((String.length p <=? String.length d)%nat
   && (substring (String.length d - String.length p)%nat (String.length p) d =? p))%bool.

(** [d.includes(p)] *)
Fixpoint includes (d p : string) : bool :=
  (String.prefix p d
   || match d with
      | EmptyString => false
      | String _ r => includes r p
      end)%bool.

(** Truthiness of a string value: every string but the empty one. *)
Definition truthy (s : string) : bool := negb (s =? "").

(** Template-literal rendering of an integer. *)
Definition of_Z (z : Z) : string := NilZero.string_of_int (Z.to_int z).

End JsString.
Import JsString.

(** ** JavaScript values

    What a field of a parsed JSON body can hold, and [undefined] for a field
    that is absent.  A number is given by an integer: the code below reads
    of a number only whether it is zero. *)

#[warnings="-register-all"]
Inductive JsValue : Type :=
| VUndefined
| VNull
| VBool (b : bool)
| VNumber (n : Z)
| VString (s : string)
| VArray (items : list JsValue)
| VObject (fields : list (string * JsValue)).

(** Truthiness of a value: [!v] is its negation. *)
Definition js_truthy (v : JsValue) : bool :=
  match v with
  | VUndefined | VNull => false
  | VBool b => b
  | VNumber n => negb (n =? 0)%Z
  | VString s => truthy s
  | VArray _ | VObject _ => true
  end.

(** ** The domain classifier *)

(** A [domain] that is [null], [undefined] or a string: the arguments the
    engine below hands over are strings.  [isDevEnvironment_value] further
    down takes any value. *)
Inductive DomainArg : Type :=
| DNull
| DUndefined
| DStr (s : string).

Definition isDevEnvironment (domain : DomainArg) : bool :=
  match domain with
  | DNull | DUndefined => false
  | DStr s =>
    if negb (truthy s) then false else
    let d := toLowerCase s in
    (* Localhost and local IPs *)
    if ((d =? "localhost") || (d =? "127.0.0.1")
        || startsWith d "192.168." || startsWith d "10.")%bool then true
    (* Common local/dev TLDs *)
    else if (endsWith d ".local" || endsWith d ".test"
             || endsWith d ".localhost" || endsWith d ".dev")%bool then true
    (* Staging/dev subdomains *)
    else if (startsWith d "staging." || startsWith d "dev."
             || startsWith d "test." || startsWith d "local.")%bool then true
    else if (includes d ".staging." || includes d ".dev."
             || includes d ".test.")%bool then true
    (* Common dev hosting patterns *)
    else if (includes d ".localwp." || includes d ".lndo."
             || includes d ".ddev.")%bool then true
    else false
  end.

Example classify_samples :
  map (fun s => isDevEnvironment (DStr s))
      ["localhost"; "site.local"; "staging.example.com"; "10.0.0.5";
       "example.com"; "shop.example.com"; "Foo.LOCAL"; "mysite.localwp.io"]
  = [true; true; true; true; false; false; true; true].
Proof. reflexivity. Qed.

(** ** Rows of the store (schema of src/db/init.js) *)

Module Product.
Record t : Type := mk {
  id : Z;
  slug : string;
  name : string;
  description : option string;
  current_version : option string;
  download_url : option string;
  is_active : Z
}.
End Product.

Module License.
Record t : Type := mk {
  id : Z;
  license_key : string;
  product_id : option Z;
  email : string;
  plan : string;
  max_activations : Z;
  expires_at : option string;
  created_at : string;
  updated_at : string;
  metadata : option string
}.
End License.

Module Activation.
Record t : Type := mk {
  id : Z;
  license_id : Z;
  domain : string;
  site_url : option string;
  wp_version : option string;
  plugin_version : option string;
  activated_at : string;
  last_heartbeat : option string;
  is_active : Z;
  deactivated_at : option string
}.
End Activation.

(** The [siteInfo] argument of [activateLicense]; an absent field is
    [None]. *)
Record SiteInfo : Type := mkSiteInfo {
  siteUrl : option string;
  wpVersion : option string;
  pluginVersion : option string;
  ipAddress : option string
}.

(** The object handed to [logAudit] as [details], stored as its JSON
    text. *)
Inductive AuditDetails : Type :=
| DetailsCreated (email plan : string) (productId : option Z)
| DetailsSiteInfo (siteInfo : SiteInfo).

Module Audit.
Record t : Type := mk {
  id : Z;
  license_id : option Z;
  action : string;
  domain : option string;
  ip_address : option string;
  details : option AuditDetails;
  created_at : string
}.
End Audit.

(** The database: the four tables in insertion order, and for each table
    written by the service the largest rowid handed out so far
    (AUTOINCREMENT). *)
Record Store : Type := mkStore {
  products : list Product.t;
  licenses : list License.t;
  activations : list Activation.t;
  audit_log : list Audit.t;
  seq_licenses : Z;
  seq_activations : Z;
  seq_audit_log : Z
}.

(** ** Statements against the store: state and exceptions *)

Inductive Exn : Type :=
| SqliteError (code : string) (message : string)
| TypeError (message : string).

Inductive Completion (A : Type) : Type :=
| Returned (a : A)
| Thrown (e : Exn).
Arguments Returned {A} a.
Arguments Thrown {A} e.

(** [isDevEnvironment] on any value.  [!domain] sends every falsy value to
    [false]; [domain.toLowerCase()] is a method of strings only, so the call
    throws on a truthy value of another type. *)
Definition isDevEnvironment_value (domain : JsValue) : Completion bool :=
  if negb (js_truthy domain) then Returned false
  else match domain with
       | VString s => Returned (isDevEnvironment (DStr s))
       | _ => Thrown (TypeError "domain.toLowerCase is not a function")
       end.

Definition DB (A : Type) : Type := Store -> Completion A * Store.

Definition ret {A} (a : A) : DB A := fun s => (Returned a, s).
Definition throw {A} (e : Exn) : DB A := fun s => (Thrown e, s).
Definition bind {A B} (m : DB A) (k : A -> DB B) : DB B :=
  fun s => match m s with
           | (Returned a, s') => k a s'
           | (Thrown e, s') => (Thrown e, s')
           end.

Declare Scope db_scope.
Delimit Scope db_scope with db.
Notation "x <- m ;; k" := (bind m (fun x => k))
  (at level 100, m at next level, right associativity) : db_scope.
Notation "m ;;; k" := (bind m (fun _ => k))
  (at level 100, right associativity) : db_scope.

(** The clock readings one call observes: [new Date()] in milliseconds,
    SQLite's [datetime('now')], and [new Date().toISOString()]. *)
Record Clock : Type := mkClock {
  Date_now : Z;
  datetime_now : string;
  toISOString_now : string
}.

(** [COALESCE(?, column)] *)
Definition COALESCE {A} (x : option A) (column : option A) : option A :=
  match x with Some _ => x | None => column end.

(** [SELECT * FROM licenses WHERE license_key = ?] with [.get] *)
Definition getLicenseByKey (licenseKey : string) : DB (option License.t) :=
  fun s => (Returned (find (fun l => String.eqb (License.license_key l) licenseKey)
                           (licenses s)), s).

Definition active_of (licenseId : Z) (a : Activation.t) : bool :=
  ((Activation.license_id a =? licenseId)%Z && (Activation.is_active a =? 1)%Z)%bool.

(** [SELECT * FROM activations WHERE license_id = ? AND is_active = 1] *)
Definition getActiveActivations (licenseId : Z) : DB (list Activation.t) :=
  fun s => (Returned (filter (active_of licenseId) (activations s)), s).

(** [SELECT * FROM products WHERE id = ?] with [.get] *)
Definition getProductById (productId : Z) : DB (option Product.t) :=
  fun s => (Returned (find (fun p => (Product.id p =? productId)%Z) (products s)), s).

Definition set_activations (s : Store) (rows : list Activation.t) (seq : Z) : Store :=
  mkStore (products s) (licenses s) rows (audit_log s)
          (seq_licenses s) seq (seq_audit_log s).

(** The heartbeat UPDATE of [activateLicense], [WHERE id = ?]. *)
Definition touch (clk : Clock) (wp plugin : option string) (a : Activation.t)
  : Activation.t :=
  Activation.mk (Activation.id a) (Activation.license_id a) (Activation.domain a)
    (Activation.site_url a)
    (COALESCE wp (Activation.wp_version a))
    (COALESCE plugin (Activation.plugin_version a))
    (Activation.activated_at a)
    (Some (datetime_now clk))
    (Activation.is_active a) (Activation.deactivated_at a).

Definition touch_where_id (clk : Clock) (wp plugin : option string) (rowId : Z)
    (a : Activation.t) : Activation.t :=
  if (Activation.id a =? rowId)%Z then touch clk wp plugin a else a.

Definition update_heartbeat_by_id (clk : Clock) (wp plugin : option string) (rowId : Z)
  : DB unit :=
  fun s =>
    (Returned tt,
     set_activations s (map (touch_where_id clk wp plugin rowId) (activations s))
       (seq_activations s)).

(** [UNIQUE(license_id, domain)] on activations. *)
Definition same_pair (licenseId : Z) (domain : string) (a : Activation.t) : bool :=
  ((Activation.license_id a =? licenseId)%Z && String.eqb (Activation.domain a) domain)%bool.

(** [INSERT INTO activations (license_id, domain, site_url, wp_version,
    plugin_version, last_heartbeat) VALUES (?, ?, ?, ?, ?, datetime('now'))];
    returns [lastInsertRowid]. *)
Definition insert_activation (clk : Clock) (licenseId : Z) (domain : string)
    (si : SiteInfo) : DB Z :=
  fun s =>
    if existsb (same_pair licenseId domain) (activations s)
    then (Thrown (SqliteError "SQLITE_CONSTRAINT_UNIQUE"
            "UNIQUE constraint failed: activations.license_id, activations.domain"), s)
    else
      let rowid := (seq_activations s + 1)%Z in
      (Returned rowid,
       set_activations s
         (activations s ++
            [Activation.mk rowid licenseId domain (siteUrl si) (wpVersion si)
               (pluginVersion si) (datetime_now clk) (Some (datetime_now clk)) 1 None])
         rowid).

(** [UPDATE activations SET is_active = 0, deactivated_at = datetime('now')
    WHERE license_id = ? AND domain = ? AND is_active = 1]; returns
    [changes]. *)
Definition matches_active (licenseId : Z) (domain : string) (a : Activation.t) : bool :=
  (same_pair licenseId domain a && (Activation.is_active a =? 1)%Z)%bool.

Definition retire (clk : Clock) (a : Activation.t) : Activation.t :=
  Activation.mk (Activation.id a) (Activation.license_id a) (Activation.domain a)
    (Activation.site_url a) (Activation.wp_version a) (Activation.plugin_version a)
    (Activation.activated_at a) (Activation.last_heartbeat a)
    0 (Some (datetime_now clk)).

Definition retire_where (clk : Clock) (licenseId : Z) (domain : string)
    (a : Activation.t) : Activation.t :=
  if matches_active licenseId domain a then retire clk a else a.

Definition update_deactivate (clk : Clock) (licenseId : Z) (domain : string) : DB Z :=
  fun s =>
    (Returned (Z.of_nat (List.length (filter (matches_active licenseId domain) (activations s)))),
     set_activations s (map (retire_where clk licenseId domain) (activations s))
       (seq_activations s)).

(** [logAudit]: [INSERT INTO audit_log (license_id, action, domain,
    ip_address, details) VALUES (?, ?, ?, ?, ?)]. *)
Definition logAudit (clk : Clock) (licenseId : option Z) (action : string)
    (domain ipAddress : option string) (details : option AuditDetails) : DB unit :=
  fun s =>
    let rowid := (seq_audit_log s + 1)%Z in
    (Returned tt,
     mkStore (products s) (licenses s) (activations s)
       (audit_log s ++ [Audit.mk rowid licenseId action domain ipAddress details
                          (datetime_now clk)])
       (seq_licenses s) (seq_activations s) rowid).

(** [FOREIGN KEY (product_id) REFERENCES products(id)]: NULL refers to
    nothing. *)
Definition references_product (s : Store) (productId : option Z) : bool :=
  match productId with
  | None => true
  | Some pid => existsb (fun p => (Product.id p =? pid)%Z) (products s)
  end.

(** [INSERT INTO licenses (license_key, product_id, email, plan,
    max_activations, expires_at, metadata) VALUES (?, ?, ?, ?, ?, ?, ?)];
    [license_key] is UNIQUE, which is checked as the row is written, and
    [product_id] a foreign key, which is checked when the statement ends.
    Returns [lastInsertRowid]. *)
Definition insert_license (clk : Clock) (licenseKey : string) (productId : option Z)
    (email plan : string) (maxActivations : Z) (expiresAt metadata : option string)
  : DB Z :=
  fun s =>
    if existsb (fun l => String.eqb (License.license_key l) licenseKey) (licenses s)
    then (Thrown (SqliteError "SQLITE_CONSTRAINT_UNIQUE"
            "UNIQUE constraint failed: licenses.license_key"), s)
    else if negb (references_product s productId)
    then (Thrown (SqliteError "SQLITE_CONSTRAINT_FOREIGNKEY"
            "FOREIGN KEY constraint failed"), s)
    else
      let rowid := (seq_licenses s + 1)%Z in
      (Returned rowid,
       mkStore (products s)
         (licenses s ++
            [License.mk rowid licenseKey productId email plan maxActivations expiresAt
               (datetime_now clk) (datetime_now clk) metadata])
         (activations s) (audit_log s)
         rowid (seq_activations s) (seq_audit_log s)).

(** ** Tokens (jsonwebtoken)

    A token string is either a JWT carrying a payload and signed with some
    secret, or text that does not parse as one. *)

Record Claims : Type := mkClaims {
  claim_licenseKey : string;
  claim_domain : string;
  claim_plan : string;
  claim_exp : option Z   (* seconds; [None] is NaN, which is written as null *)
}.

Inductive Token : Type :=
| Signed (payload : Claims) (secret : string)
| Unparsable (raw : string).

Inductive JwtError : Type :=
| TokenExpiredError
| JsonWebTokenError.

(** [jwt.verify(token, secret)] at clock reading [now] (milliseconds): a
    thrown error is [inl].  An [exp] that is present and not a number is
    refused ('invalid exp value'). *)
Definition jwt_verify (token : Token) (secret : string) (now : Z) : JwtError + Claims :=
  match token with
  | Unparsable _ => inl JsonWebTokenError
  | Signed payload signer =>
    if negb (String.eqb signer secret) then inl JsonWebTokenError
    else match claim_exp payload with
         | Some e => if (now / 1000 >=? e)%Z then inl TokenExpiredError else inr payload
         | None => inl JsonWebTokenError
         end
  end.

(** Truthiness of the [token] argument. *)
Definition token_truthy (token : option Token) : bool :=
  match token with
  | None => false
  | Some (Unparsable raw) => truthy raw
  | Some (Signed _ _) => true
  end.

(** ** Results of the engine operations *)

Record ActivationSummary : Type := mkActivationSummary {
  summary_domain : string;
  summary_activatedAt : string;
  summary_isDevEnvironment : bool
}.

Record NewActivation : Type := mkNewActivation {
  new_id : Z;
  new_domain : string;
  new_activatedAt : string;
  new_isDevEnvironment : bool
}.

Inductive ActivateResult : Type :=
| ActivateFailed (error message : string) (current : option (list ActivationSummary))
| AlreadyActivated (message : string) (activation : Activation.t) (token : Token)
    (isDev : bool)
| Activated (message : string) (activation : NewActivation) (token : Token)
    (remaining productionActivations devActivations : Z).

Definition activate_success (r : ActivateResult) : bool :=
  match r with ActivateFailed _ _ _ => false | _ => true end.

Definition activate_error (r : ActivateResult) : option string :=
  match r with ActivateFailed e _ _ => Some e | _ => None end.

Inductive DeactivateResult : Type :=
| DeactivateFailed (error message : string)
| Deactivated (message : string) (remaining : Z).

Record LicenseSummary : Type := mkLicenseSummary {
  sum_plan : string;
  sum_email : string;
  sum_expiresAt : option string;
  sum_maxActivations : Z;
  sum_currentActivations : Z
}.

Record ProductInfo : Type := mkProductInfo {
  info_slug : string;
  info_name : string;
  info_latestVersion : option string
}.

Inductive ValidateResult : Type :=
| ValidateFailed (error message : string) (expiredAt : option string)
| Valid (license : LicenseSummary) (product : option ProductInfo)
    (activation_domain activation_activatedAt : string).

Definition validate_error (r : ValidateResult) : option string :=
  match r with ValidateFailed e _ _ => Some e | _ => None end.

Record CreateParams : Type := mkCreateParams {
  productId : option Z;
  email : string;
  plan : string;
  maxActivations : Z;
  expiresAt : option string;
  metadata : JsValue
}.

Record CreatedLicense : Type := mkCreatedLicense {
  created_id : Z;
  created_licenseKey : string;
  created_productId : option Z;
  created_email : string;
  created_plan : string;
  created_maxActivations : Z;
  created_expiresAt : option string
}.

(** ** Key generator *)

Definition chars : string := "ABCDEFGHJKLMNPQRSTUVWXYZ23456789".

(** [s.charAt(i)] *)
Definition charAt (s : string) (i : nat) : string :=
  match String.get i s with
  | Some c => String c EmptyString
  | None => EmptyString
  end.

(** [rnd k] is the value of [Math.floor(Math.random() * chars.length)] at
    the [k]-th draw. *)
Definition generateLicenseKey (rnd : nat -> nat) : string :=
  let segment (i : nat) :=
    fold_left (fun seg j => seg ++ charAt chars (rnd (4 * i + j)%nat)) (seq 0 4) "" in
  "TLAT-" ++ String.concat "-" (map segment (seq 0 4)).

Example generateLicenseKey_sample :
  generateLicenseKey (fun k => k) = "TLAT-ABCD-EFGH-JKLM-NPQR".
Proof. reflexivity. Qed.

(** ** The license engine *)

Section Engine.

(** [process.env.JWT_SECRET] (or its default), and the parsing done by
    [new Date(text).getTime()]: milliseconds, [None] for an invalid date. *)
Variable JWT_SECRET : string.
Variable Date_parse : string -> option Z.

(** [JSON.stringify] on a truthy value. *)
Variable JSON_stringify : JsValue -> string.

Local Open Scope db_scope.

(** [license.expires_at && new Date(license.expires_at) < new Date()] *)
Definition license_expired (license : License.t) (clk : Clock) : bool :=
  match License.expires_at license with
  | None => false
  | Some e =>
    (truthy e
     && match Date_parse e with
        | Some t => (t <? Date_now clk)%Z
        | None => false
        end)%bool
  end.

Definition generateToken (clk : Clock) (license : License.t) (domain : string) : Token :=
  Signed
    (mkClaims (License.license_key license) domain (License.plan license)
       (match License.expires_at license with
        | Some e =>
          if truthy e then option_map (fun t => (t / 1000)%Z) (Date_parse e)
          else Some (Date_now clk / 1000 + 365 * 24 * 60 * 60)%Z
        | None => Some (Date_now clk / 1000 + 365 * 24 * 60 * 60)%Z
        end))
    JWT_SECRET.

Definition createLicense (rnd : nat -> nat) (clk : Clock) (p : CreateParams)
  : DB CreatedLicense :=
  let licenseKey := generateLicenseKey rnd in
  rowid <- insert_license clk licenseKey (productId p) (email p) (plan p)
             (maxActivations p) (expiresAt p)
             (if js_truthy (metadata p) then Some (JSON_stringify (metadata p))
              else None) ;;
  (logAudit clk (Some rowid) "created" None None
     (Some (DetailsCreated (email p) (plan p) (productId p))) ;;;
   ret (mkCreatedLicense rowid licenseKey (productId p) (email p) (plan p)
          (maxActivations p) (expiresAt p))).

Definition is_production (a : Activation.t) : bool :=
  negb (isDevEnvironment (DStr (Activation.domain a))).

Definition is_development (a : Activation.t) : bool :=
  isDevEnvironment (DStr (Activation.domain a)).

Definition summarize (a : Activation.t) : ActivationSummary :=
  mkActivationSummary (Activation.domain a) (Activation.activated_at a)
    (isDevEnvironment (DStr (Activation.domain a))).

Definition limit_message (license : License.t) : string :=
  "Maximum production activations (" ++ of_Z (License.max_activations license)
  ++ ") reached. Dev/staging environments are unlimited.".

Definition activateLicense (clk : Clock) (licenseKey domain : string)
    (siteInfo : SiteInfo) : DB ActivateResult :=
  found <- getLicenseByKey licenseKey ;;
  match found with
  | None => ret (ActivateFailed "invalid_key" "License key not found" None)
  | Some license =>
    (* Check expiration *)
    if license_expired license clk
    then ret (ActivateFailed "expired" "License has expired" None)
    else
      (* Check existing activations *)
      activations <- getActiveActivations (License.id license) ;;
      match find (fun a => String.eqb (Activation.domain a) domain) activations with
      | Some existingActivation =>
        (* Reactivate/update heartbeat *)
        (update_heartbeat_by_id clk (wpVersion siteInfo) (pluginVersion siteInfo)
           (Activation.id existingActivation) ;;;
         ret (AlreadyActivated "License already activated for this domain"
                existingActivation (generateToken clk license domain)
                (isDevEnvironment (DStr domain))))
      | None =>
        (* Check activation limit (dev environments don't count) *)
        let isDev := isDevEnvironment (DStr domain) in
        let productionActivations := filter is_production activations in
        if (negb isDev
            && (Z.of_nat (List.length productionActivations)
                >=? License.max_activations license)%Z)%bool
        then ret (ActivateFailed "limit_reached" (limit_message license)
                    (Some (map summarize activations)))
        else
          (* Create new activation *)
          rowid <- insert_activation clk (License.id license) domain siteInfo ;;
          (logAudit clk (Some (License.id license)) "activated" (Some domain)
             (ipAddress siteInfo) (Some (DetailsSiteInfo siteInfo)) ;;;
           (* Calculate remaining (only count production activations) *)
           let newProductionCount :=
             if isDev then Z.of_nat (List.length productionActivations)
             else (Z.of_nat (List.length productionActivations) + 1)%Z in
           ret (Activated
                  (if isDev
                   then "License activated for development environment (doesn't count toward limit)"
                   else "License activated successfully")
                  (mkNewActivation rowid domain (toISOString_now clk) isDev)
                  (generateToken clk license domain)
                  (License.max_activations license - newProductionCount)%Z
                  newProductionCount
                  (Z.of_nat (List.length (filter is_development activations))
                   + (if isDev then 1 else 0))%Z))
      end
  end.

Definition deactivateLicense (clk : Clock) (licenseKey domain : string)
    (ipAddress : option string) : DB DeactivateResult :=
  found <- getLicenseByKey licenseKey ;;
  match found with
  | None => ret (DeactivateFailed "invalid_key" "License key not found")
  | Some license =>
    changes <- update_deactivate clk (License.id license) domain ;;
    if (changes =? 0)%Z
    then ret (DeactivateFailed "not_found" "No active activation found for this domain")
    else
      (logAudit clk (Some (License.id license)) "deactivated" (Some domain) ipAddress None ;;;
       (remaining <- getActiveActivations (License.id license) ;;
        ret (Deactivated "License deactivated successfully"
               (License.max_activations license - Z.of_nat (List.length remaining))%Z)))
  end.

(** The product whose slug differs from a requested [productSlug], if the
    product check of [validateLicense] finds one. *)
Definition product_mismatch (license : License.t) (productSlug : option string)
  : DB (option Product.t) :=
  match productSlug, License.product_id license with
  | Some wanted, Some pid =>
    if (truthy wanted && negb (pid =? 0)%Z)%bool
    then
      product <- getProductById pid ;;
      ret (match product with
           | Some p => if negb (String.eqb (Product.slug p) wanted) then Some p else None
           | None => None
           end)
    else ret None
  | _, _ => ret None
  end.

(** The token check of [validateLicense]: the failure it returns, if any. *)
Definition token_check (clk : Clock) (licenseKey domain : string) (token : option Token)
  : option ValidateResult :=
  if token_truthy token then
    match token with
    | Some t =>
      match jwt_verify t JWT_SECRET (Date_now clk) with
      | inr decoded =>
        if (negb (String.eqb (claim_domain decoded) domain)
            || negb (String.eqb (claim_licenseKey decoded) licenseKey))%bool
        then Some (ValidateFailed "token_mismatch" "Token does not match domain/license" None)
        else None
      | inl _ => Some (ValidateFailed "invalid_token" "Invalid or expired token" None)
      end
    | None => None
    end
  else None.

Definition product_info (license : License.t) : DB (option ProductInfo) :=
  match License.product_id license with
  | Some pid =>
    if negb (pid =? 0)%Z then
      product <- getProductById pid ;;
      ret (option_map (fun p => mkProductInfo (Product.slug p) (Product.name p)
                                  (Product.current_version p)) product)
    else ret None
  | None => ret None
  end.

Definition validateLicense (clk : Clock) (licenseKey domain : string)
    (token : option Token) (productSlug : option string) : DB ValidateResult :=
  found <- getLicenseByKey licenseKey ;;
  match found with
  | None => ret (ValidateFailed "invalid_key" "License key not found" None)
  | Some license =>
    (* Check product match if productSlug provided *)
    other <- product_mismatch license productSlug ;;
    match other, productSlug with
    | Some product, Some wanted =>
      ret (ValidateFailed "product_mismatch"
             ("License is for " ++ Product.name product ++ ", not " ++ wanted) None)
    | _, _ =>
      (* Check expiration *)
      if license_expired license clk
      then ret (ValidateFailed "expired" "License has expired" (License.expires_at license))
      else
        (* Check if domain is activated *)
        activations <- getActiveActivations (License.id license) ;;
        match find (fun a => String.eqb (Activation.domain a) domain) activations with
        | None => ret (ValidateFailed "not_activated"
                         "License not activated for this domain" None)
        | Some activation =>
          (* Verify token if provided *)
          match token_check clk licenseKey domain token with
          | Some failure => ret failure
          | None =>
            productInfo <- product_info license ;;
            ret (Valid
                   (mkLicenseSummary (License.plan license) (License.email license)
                      (License.expires_at license) (License.max_activations license)
                      (Z.of_nat (List.length activations)))
                   productInfo
                   (Activation.domain activation) (Activation.activated_at activation))
          end
        end
    end
  end.

End Engine.

(** ** Observations on the store *)

(** The license row [licenseKey] selects in [s]. *)
Definition lookup (s : Store) (licenseKey : string) : option License.t :=
  find (fun l => String.eqb (License.license_key l) licenseKey) (licenses s).

(** The currently-active activation rows of a license. *)
Definition active_rows (s : Store) (licenseId : Z) : list Activation.t :=
  filter (active_of licenseId) (activations s).

(** The currently-active row of a license for [domain], if any. *)
Definition active_for (s : Store) (licenseId : Z) (domain : string)
  : option Activation.t :=
  find (fun a => String.eqb (Activation.domain a) domain) (active_rows s licenseId).

(** The error tag of a completed call; a thrown exception carries none. *)
Definition failure_tag (c : Completion ActivateResult) : option string :=
  match c with
  | Returned r => activate_error r
  | Thrown _ => None
  end.

(** Two activation rows that agree on every column except
    [last_heartbeat], [wp_version] and [plugin_version]. *)
Definition same_but_heartbeat (a a' : Activation.t) : Prop :=
  Activation.id a' = Activation.id a
  /\ Activation.license_id a' = Activation.license_id a
  /\ Activation.domain a' = Activation.domain a
  /\ Activation.site_url a' = Activation.site_url a
  /\ Activation.activated_at a' = Activation.activated_at a
  /\ Activation.is_active a' = Activation.is_active a
  /\ Activation.deactivated_at a' = Activation.deactivated_at a.

(** What the heartbeat UPDATE leaves on a row it writes: the time of the
    call as [last_heartbeat], and each version the caller sent; a version
    the caller did not send stays as it was. *)
Definition heartbeat_written (clk : Clock) (wp plugin : option string)
    (a a' : Activation.t) : Prop :=
  Activation.last_heartbeat a' = Some (datetime_now clk)
  /\ Activation.wp_version a'
     = match wp with Some v => Some v | None => Activation.wp_version a end
  /\ Activation.plugin_version a'
     = match plugin with Some v => Some v | None => Activation.plugin_version a end.

(** How many activation rows, active or not, the store holds for a
    (license, domain) pair. *)
Definition pair_count (s : Store) (licenseId : Z) (domain : string) : nat :=
  List.length (filter (same_pair licenseId domain) (activations s)).

(** The production activations among the currently-active ones. *)
Definition production_count (s : Store) (licenseId : Z) : nat :=
  List.length (filter is_production (active_rows s licenseId)).

(** The existing product a license is bound to (the row both product
    lookups of [validateLicense] select). *)
Definition bound_product (s : Store) (license : License.t) : option Product.t :=
  match License.product_id license with
  | Some pid =>
    if (pid =? 0)%Z then None
    else find (fun p => (Product.id p =? pid)%Z) (products s)
  | None => None
  end.

(** A deactivated copy of a row: inactive, stamped, otherwise the same. *)
Definition retired_copy (clk : Clock) (a a' : Activation.t) : Prop :=
  Activation.is_active a' = 0%Z
  /\ Activation.deactivated_at a' = Some (datetime_now clk)
  /\ Activation.id a' = Activation.id a
  /\ Activation.license_id a' = Activation.license_id a
  /\ Activation.domain a' = Activation.domain a
  /\ Activation.site_url a' = Activation.site_url a
  /\ Activation.wp_version a' = Activation.wp_version a
  /\ Activation.plugin_version a' = Activation.plugin_version a
  /\ Activation.activated_at a' = Activation.activated_at a
  /\ Activation.last_heartbeat a' = Activation.last_heartbeat a.

(** ** Heartbeats (recordHeartbeat) *)

Inductive HeartbeatResult : Type :=
| HeartbeatFailed (error : string) (message : option string)
| HeartbeatRecorded (valid : bool) (expiresAt : option string) (plan : string).

Definition touch_where_active (clk : Clock) (wp plugin : option string)
    (licenseId : Z) (domain : string) (a : Activation.t) : Activation.t :=
  if matches_active licenseId domain a then touch clk wp plugin a else a.

(** [UPDATE activations SET last_heartbeat = datetime('now'), wp_version =
    COALESCE(?, wp_version), plugin_version = COALESCE(?, plugin_version)
    WHERE license_id = ? AND domain = ? AND is_active = 1]; returns
    [changes]. *)
Definition update_heartbeat_where (clk : Clock) (wp plugin : option string)
    (licenseId : Z) (domain : string) : DB Z :=
  fun s =>
    (Returned (Z.of_nat (List.length (filter (matches_active licenseId domain)
                                             (activations s)))),
     set_activations s
       (map (touch_where_active clk wp plugin licenseId domain) (activations s))
       (seq_activations s)).

Section Heartbeat.

Variable Date_parse : string -> option Z.

Local Open Scope db_scope.

Definition recordHeartbeat (clk : Clock) (licenseKey domain : string)
    (siteInfo : SiteInfo) : DB HeartbeatResult :=
  found <- getLicenseByKey licenseKey ;;
  match found with
  | None => ret (HeartbeatFailed "invalid_key" None)
  | Some license =>
    changes <- update_heartbeat_where clk (wpVersion siteInfo) (pluginVersion siteInfo)
                 (License.id license) domain ;;
    if (changes =? 0)%Z
    then ret (HeartbeatFailed "not_activated" (Some "No active activation for this domain"))
    else
      (* Check if license is still valid *)
      let isExpired := license_expired Date_parse license clk in
      ret (HeartbeatRecorded (negb isExpired) (License.expires_at license)
             (License.plan license))
  end.

End Heartbeat.

(** ** The public routes (src/routes/licenses.js) and the error handler

    A request carries the body, query and header fields the handlers read;
    a field that is absent is [None]. *)

Record Request : Type := mkRequest {
  req_license_key : option string;
  req_domain : option string;
  req_site_url : option string;
  req_wp_version : option string;
  req_plugin_version : option string;
  req_token : option Token;
  req_x_license_key : option string;
  req_query_domain : option string;
  req_ip : option string
}.

(** What [res.json] is given: an error object built by the handler itself,
    or the result object of the service. *)
Inductive Payload (R : Type) : Type :=
| ErrorObject (error : string) (message : string)
| ResultObject (result : R).
Arguments ErrorObject {R} error message.
Arguments ResultObject {R} result.

Definition Response (R : Type) : Type := (Z * Payload R)%type.

(** [!x] for a field that is absent or a string. *)
Definition missing (x : option string) : bool :=
  match x with
  | Some text => negb (truthy text)
  | None => true
  end.

Definition field (x : option string) : string :=
  match x with Some text => text | None => "" end.

(** [result.error === tag] *)
Definition tag_is (tag : string) (error : option string) : bool :=
  match error with Some e => String.eqb e tag | None => false end.

Definition heartbeat_success (r : HeartbeatResult) : bool :=
  match r with HeartbeatRecorded _ _ _ => true | HeartbeatFailed _ _ => false end.

Definition deactivate_succeeded (r : DeactivateResult) : bool :=
  match r with Deactivated _ _ => true | DeactivateFailed _ _ => false end.

Definition deactivate_error (r : DeactivateResult) : option string :=
  match r with DeactivateFailed e _ => Some e | Deactivated _ _ => None end.

Definition validate_valid (r : ValidateResult) : bool :=
  match r with Valid _ _ _ _ => true | ValidateFailed _ _ _ => false end.

Section Routes.

Variable JWT_SECRET : string.
Variable Date_parse : string -> option Z.

Local Open Scope db_scope.

(** [POST /api/v1/license/activate] *)
Definition post_activate (clk : Clock) (req : Request) : DB (Response ActivateResult) :=
  if (missing (req_license_key req) || missing (req_domain req))%bool
  then ret (400, ErrorObject "missing_params" "license_key and domain are required")
  else
    result <- activateLicense JWT_SECRET Date_parse clk
                (field (req_license_key req)) (field (req_domain req))
                (mkSiteInfo (req_site_url req) (req_wp_version req)
                   (req_plugin_version req) (req_ip req)) ;;
    let status :=
      if activate_success result then 200
      else if tag_is "invalid_key" (activate_error result) then 404 else 400 in
    ret (status, ResultObject result).

(** [POST /api/v1/license/deactivate] *)
Definition post_deactivate (clk : Clock) (req : Request) : DB (Response DeactivateResult) :=
  if (missing (req_license_key req) || missing (req_domain req))%bool
  then ret (400, ErrorObject "missing_params" "license_key and domain are required")
  else
    result <- deactivateLicense clk (field (req_license_key req))
                (field (req_domain req)) (req_ip req) ;;
    let status :=
      if deactivate_succeeded result then 200
      else if tag_is "invalid_key" (deactivate_error result) then 404 else 400 in
    ret (status, ResultObject result).

(** [POST /api/v1/license/validate] *)
Definition post_validate (clk : Clock) (req : Request) : DB (Response ValidateResult) :=
  if (missing (req_license_key req) || missing (req_domain req))%bool
  then ret (400, ErrorObject "missing_params" "license_key and domain are required")
  else
    result <- validateLicense JWT_SECRET Date_parse clk
                (field (req_license_key req)) (field (req_domain req))
                (req_token req) None ;;
    ret (if validate_valid result then 200 else 400, ResultObject result).

(** [POST /api/v1/license/heartbeat] *)
Definition post_heartbeat (clk : Clock) (req : Request) : DB (Response HeartbeatResult) :=
  if (missing (req_license_key req) || missing (req_domain req))%bool
  then ret (400, ErrorObject "missing_params" "license_key and domain are required")
  else
    result <- recordHeartbeat Date_parse clk
                (field (req_license_key req)) (field (req_domain req))
                (mkSiteInfo None (req_wp_version req) (req_plugin_version req) None) ;;
    ret (if heartbeat_success result then 200 else 400, ResultObject result).

(** [GET /api/v1/license/status] *)
Definition get_status (clk : Clock) (req : Request) : DB (Response ValidateResult) :=
  if missing (req_x_license_key req)
  then ret (401, ErrorObject "missing_key" "X-License-Key header required")
  else if missing (req_query_domain req)
  then ret (400, ErrorObject "missing_domain" "domain query parameter required")
  else
    result <- validateLicense JWT_SECRET Date_parse clk
                (field (req_x_license_key req)) (field (req_query_domain req))
                None None ;;
    ret (if validate_valid result then 200 else 400, ResultObject result).

End Routes.

(** [errorHandler] (src/middleware/errors.js) on an error thrown by a
    handler.  Its [name] is 'SqliteError' or 'TypeError', so neither JWT
    branch applies, and a TypeError has no [code]. *)
Definition errorHandler {R} (production : bool) (err : Exn) : Response R :=
  match err with
  | SqliteError code message =>
    if String.eqb code "SQLITE_CONSTRAINT"
    then (409, ErrorObject "conflict" "Resource already exists")
    else (500, ErrorObject "internal_error"
                 (if production then "An internal error occurred" else message))
  | TypeError message =>
    (500, ErrorObject "internal_error"
            (if production then "An internal error occurred" else message))
  end.

(** A synchronous handler under Express: what it returns is the response;
    what it throws goes to [errorHandler]. *)
Definition respond {R} (production : bool) (handler : DB (Response R))
  : Store -> Response R * Store :=
  fun s =>
    match handler s with
    | (Returned response, s') => (response, s')
    | (Thrown err, s') => (errorHandler production err, s')
    end.

(** The token a successful activation hands out. *)
Definition issued_token (r : ActivateResult) : option Token :=
  match r with
  | ActivateFailed _ _ _ => None
  | AlreadyActivated _ _ token _ => Some token
  | Activated _ _ token _ _ _ => Some token
  end.

Definition token_exp (t : Token) : option Z :=
  match t with
  | Signed payload _ => claim_exp payload
  | Unparsable _ => None
  end.

(** The character of the key alphabet at an index below its length. *)
Definition symbol (n : nat) : ascii :=
  match String.get n chars with
  | Some c => c
  | None => " "%char
  end.

(** ** More string operations of the callers *)

(** [text.slice(n)] for an index [n] that is not negative. *)
Definition slice_from (n : nat) (text : string) : string :=
  substring n (String.length text - n) text.

(** [text.split(sep)] for a separator of one character. *)
Fixpoint split_on (sep : ascii) (text : string) : list string :=
  match text with
  | EmptyString => [EmptyString]
  | String c rest =>
    if Ascii.eqb c sep then EmptyString :: split_on sep rest
    else match split_on sep rest with
         | head :: tail => String c head :: tail
         | [] => [String c EmptyString]
         end
  end.

(** ** Admin authentication (src/routes/admin.js, src/routes/products.js) *)

Inductive Gate : Type :=
| Rejected (status : Z) (error : string)
| Next.

(** [process.env.ADMIN_API_KEY || 'dev-admin-key'] *)
Definition ADMIN_API_KEY (env : option string) : string :=
  match env with
  | Some key => if truthy key then key else "dev-admin-key"
  | None => "dev-admin-key"
  end.

(** [requireAdmin] of the license admin routes, on the Authorization
    header. *)
Definition requireAdmin (env : option string) (authorization : option string) : Gate :=
  match authorization with
  | None => Rejected 401 "Missing authorization header"
  | Some authHeader =>
    if (negb (truthy authHeader) || negb (startsWith authHeader "Bearer "))%bool
    then Rejected 401 "Missing authorization header"
    else
      let token := slice_from 7 authHeader in
      if negb (String.eqb token (ADMIN_API_KEY env))
      then Rejected 403 "Invalid admin key"
      else Next
  end.

(** [requireAdmin] of the product routes, on the x-api-key header, against
    [process.env.ADMIN_API_KEY] itself. *)
Definition requireAdmin_products (env : option string) (x_api_key : option string) : Gate :=
  match x_api_key with
  | None => Rejected 401 "unauthorized"
  | Some apiKey =>
    if (negb (truthy apiKey)
        || negb (match env with Some key => String.eqb apiKey key | None => false end))%bool
    then Rejected 401 "unauthorized"
    else Next
  end.

(** The gates in front of a product route.  The admin router is mounted on
    the prefix /api/v1/admin before the products router is mounted on
    /api/v1/admin/products (src/index.js), and its [requireAdmin] runs for
    every path under the prefix; none of its routes matches a product path,
    so a request it lets through goes on to the products router. *)
Definition product_route_gate (env authorization x_api_key : option string) : Gate :=
  match requireAdmin env authorization with
  | Next => requireAdmin_products env x_api_key
  | Rejected status error => Rejected status error
  end.

(** ** Rate-limit keys (src/middleware/rate-limit.js) *)

Definition normalizeIp (ip : option string) : string :=
  match ip with
  | None => "unknown"
  | Some ip =>
    if negb (truthy ip) then "unknown"
    (* Handle IPv6-mapped IPv4 addresses *)
    else if startsWith ip "::ffff:" then slice_from 7 ip
    (* For IPv6, use first 64 bits (network prefix) to group requests *)
    else if includes ip ":" then String.concat ":" (firstn 4 (split_on ":" ip))
    else ip
  end.

(** [req.body?.domain || req.query?.domain || 'unknown'], then
    [`${ip}-${domain}`]. *)
Definition licenseKeyGenerator (body_domain query_domain ip : option string) : string :=
  let domain :=
    if negb (missing body_domain) then field body_domain
    else if negb (missing query_domain) then field query_domain
    else "unknown" in
  normalizeIp ip ++ "-" ++ domain.

(** ** Versions and download tokens (src/services/update.js) *)

Section Versions.

(** The numbers [Number(text)] can give, NaN apart and the two zeros taken
    as one, with their order; [None] is NaN. *)
Variable num : Type.
Variable zero : num.
Variable ltb : num -> num -> bool.
Variable Number : string -> option num.

(** [parts[i] || 0] *)
Definition part_or_zero (parts : list (option num)) (i : nat) : num :=
  match nth_error parts i with
  | Some (Some n) => n
  | _ => zero
  end.

Fixpoint compare_parts (parts1 parts2 : list (option num)) (indexes : list nat) : Z :=
  match indexes with
  | [] => 0
  | i :: rest =>
    let p1 := part_or_zero parts1 i in
    let p2 := part_or_zero parts2 i in
    if ltb p2 p1 then 1
    else if ltb p1 p2 then (-1)
    else compare_parts parts1 parts2 rest
  end.

Definition compareVersions (v1 v2 : string) : Z :=
  let parts1 := map Number (split_on "." v1) in
  let parts2 := map Number (split_on "." v2) in
  compare_parts parts1 parts2
    (seq 0 (Nat.max (List.length parts1) (List.length parts2))).

End Versions.

(** The [exp] claim of a payload: absent, a number of seconds, or a value
    that is not a number. *)
Inductive ExpClaim : Type :=
| ExpAbsent
| ExpAt (seconds : Z)
| ExpInvalid.

(** The payload of a token as [jwt.verify] hands it back; a field that is
    missing, or is not of the type read, is [None]. *)
Record DownloadClaims : Type := mkDownloadClaims {
  dl_slug : option string;
  dl_version : option string;
  dl_domain : option string;
  dl_licenseKey : option string;
  dl_iat : option Z;
  dl_exp : ExpClaim
}.

Inductive DownloadJwt : Type :=
| SignedPayload (payload : DownloadClaims) (secret : string)
| NotAToken (raw : string).

(** [jwt.verify(token, secret)] on such a token. *)
Definition jwt_verify_download (token : DownloadJwt) (secret : string) (now : Z)
  : JwtError + DownloadClaims :=
  match token with
  | NotAToken _ => inl JsonWebTokenError
  | SignedPayload payload signer =>
    if negb (String.eqb signer secret) then inl JsonWebTokenError
    else match dl_exp payload with
         | ExpAt e => if (now / 1000 >=? e)%Z then inl TokenExpiredError else inr payload
         | ExpAbsent => inr payload
         | ExpInvalid => inl JsonWebTokenError
         end
  end.

(** [decoded.field === text] *)
Definition option_eqb_string (x : option string) (text : string) : bool :=
  match x with Some y => String.eqb y text | None => false end.

Inductive DownloadValidation : Type :=
| DownloadRefused (error message : string)
| DownloadAllowed (domain licenseKey : option string).

Section Downloads.

(** [DOWNLOAD_SECRET], [process.env.BASE_URL || 'https://licenses.holstjensen.eu'],
    and the text a signed token is written as. *)
Variable DOWNLOAD_SECRET : string.
Variable baseUrl : string.
Variable jwt_text : DownloadJwt -> string.

(** The [jwt.sign] call of [getSignedDownloadUrl]. *)
Definition download_token (clk : Clock) (slug version licenseKey domain : string)
  : DownloadJwt :=
  SignedPayload
    (mkDownloadClaims (Some slug) (Some version) (Some domain)
       (Some (substring 0 8 licenseKey ++ "..."))
       (Some (Date_now clk / 1000)%Z)
       (ExpAt (Date_now clk / 1000 + 3600)%Z))
    DOWNLOAD_SECRET.

Definition getSignedDownloadUrl (clk : Clock) (slug version licenseKey domain : string)
  : string :=
  baseUrl ++ "/api/v1/update/download/" ++ slug ++ "/" ++ version ++ "?token="
  ++ jwt_text (download_token clk slug version licenseKey domain).

Definition validateDownloadToken (clk : Clock) (token : DownloadJwt)
    (slug version : string) : DownloadValidation :=
  match jwt_verify_download token DOWNLOAD_SECRET (Date_now clk) with
  | inr decoded =>
    if negb (option_eqb_string (dl_slug decoded) slug)
    then DownloadRefused "slug_mismatch" "Token not valid for this plugin"
    else if negb (option_eqb_string (dl_version decoded) version)
    then DownloadRefused "version_mismatch" "Token not valid for this version"
    else DownloadAllowed (dl_domain decoded) (dl_licenseKey decoded)
  | inl TokenExpiredError =>
    DownloadRefused "token_expired" "Download link has expired. Request a new one."
  | inl JsonWebTokenError =>
    DownloadRefused "invalid_token" "Invalid download token"
  end.

End Downloads.

(** ** Sequences of calls to the public operations *)

Inductive Call : Type :=
| CallActivate (clk : Clock) (licenseKey domain : string) (siteInfo : SiteInfo)
| CallDeactivate (clk : Clock) (licenseKey domain : string) (ip : option string)
| CallHeartbeat (clk : Clock) (licenseKey domain : string) (siteInfo : SiteInfo)
| CallValidate (clk : Clock) (licenseKey domain : string) (token : option Token)
    (productSlug : option string).

(** One activation request: the clock readings its call observes, and the
    domain and site data it carries. *)
Record ActivationRequest : Type := mkActivationRequest {
  request_clock : Clock;
  request_domain : string;
  request_siteInfo : SiteInfo
}.

Section Calls.

Variable JWT_SECRET : string.
Variable Date_parse : string -> option Z.

(** The store a call leaves, whether it returns or throws. *)
Definition after_call (s : Store) (c : Call) : Store :=
  match c with
  | CallActivate clk licenseKey domain siteInfo =>
    snd (activateLicense JWT_SECRET Date_parse clk licenseKey domain siteInfo s)
  | CallDeactivate clk licenseKey domain ip =>
    snd (deactivateLicense clk licenseKey domain ip s)
  | CallHeartbeat clk licenseKey domain siteInfo =>
    snd (recordHeartbeat Date_parse clk licenseKey domain siteInfo s)
  | CallValidate clk licenseKey domain token productSlug =>
    snd (validateLicense JWT_SECRET Date_parse clk licenseKey domain token productSlug s)
  end.

(** Calls served one after another. *)
Definition after_calls (s : Store) (calls : list Call) : Store :=
  fold_left after_call calls s.

(** Activation requests for one license key that are in flight together.
    The handler of POST /activate and [activateLicense] are synchronous, and
    the server is a single process: the calls run one after another, each to
    completion, in some order.  [serve_activations] runs them in the order
    of the list and collects what each call gives. *)
Fixpoint serve_activations (licenseKey : string) (requests : list ActivationRequest)
    (s : Store) : list (Completion ActivateResult) * Store :=
  match requests with
  | [] => ([], s)
  | r :: rest =>
    let (outcome, s1) :=
      activateLicense JWT_SECRET Date_parse (request_clock r) licenseKey
        (request_domain r) (request_siteInfo r) s in
    let (outcomes, s2) := serve_activations licenseKey rest s1 in
    (outcome :: outcomes, s2)
  end.

End Calls.

(** A call that returned a success outcome. *)
Definition succeeded (c : Completion ActivateResult) : bool :=
  match c with
  | Returned r => activate_success r
  | Thrown _ => false
  end.

(** No license has more active production activations than its cap. *)
Definition within_caps (s : Store) : Prop :=
  forall l, In l (licenses s) ->
            (Z.of_nat (production_count s (License.id l)) <= License.max_activations l)%Z.

(** [id] is the primary key of licenses: rows with one id are one row. *)
Definition license_ids_unique (s : Store) : Prop :=
  forall l l', In l (licenses s) -> In l' (licenses s) ->
               License.id l = License.id l' -> l = l'.

(** How a license token reads to [validateDownloadToken]: the same signed
    text, whose payload has a domain, a license key and an expiry but no
    slug and no version. *)
Definition as_download_token (t : Token) : DownloadJwt :=
  match t with
  | Signed payload secret =>
    SignedPayload
      (mkDownloadClaims None None (Some (claim_domain payload))
         (Some (claim_licenseKey payload)) None
         (match claim_exp payload with
          | Some e => ExpAt e
          | None => ExpInvalid
          end))
      secret
  | Unparsable raw => NotAToken raw
  end.

(** ** Admin update of a license (PATCH /api/v1/admin/licenses/:key) *)

(** The body fields the handler reads.  [expires_at] may be absent
    ([None]), [null] ([Some None]) or a text. *)
Record LicensePatch : Type := mkLicensePatch {
  patch_plan : option string;
  patch_max_activations : option Z;
  patch_expires_at : option (option string);
  patch_email : option string
}.

Inductive AdminReply : Type :=
| AdminError (status : Z) (error : string)
| AdminDone (message : string).

(** Truthiness of a number that is present. *)
Definition number_given (x : option Z) : bool :=
  match x with Some n => negb (n =? 0)%Z | None => false end.

Definition no_updates (p : LicensePatch) : bool :=
  (missing (patch_plan p) && negb (number_given (patch_max_activations p))
   && match patch_expires_at p with None => true | Some _ => false end
   && missing (patch_email p))%bool.

(** The row after [UPDATE licenses SET ... , updated_at = datetime('now')]
    with the assignments the handler collects. *)
Definition patched (clk : Clock) (p : LicensePatch) (l : License.t) : License.t :=
  License.mk (License.id l) (License.license_key l) (License.product_id l)
    (if missing (patch_email p) then License.email l else field (patch_email p))
    (if missing (patch_plan p) then License.plan l else field (patch_plan p))
    (match patch_max_activations p with
     | Some n => if (n =? 0)%Z then License.max_activations l else n
     | None => License.max_activations l
     end)
    (match patch_expires_at p with
     | Some value => value
     | None => License.expires_at l
     end)
    (License.created_at l) (datetime_now clk) (License.metadata l).

Definition patch_where_id (clk : Clock) (p : LicensePatch) (licenseId : Z)
    (l : License.t) : License.t :=
  if (License.id l =? licenseId)%Z then patched clk p l else l.

Definition update_license (clk : Clock) (p : LicensePatch) (licenseId : Z) : DB unit :=
  fun s =>
    (Returned tt,
     mkStore (products s) (map (patch_where_id clk p licenseId) (licenses s))
       (activations s) (audit_log s)
       (seq_licenses s) (seq_activations s) (seq_audit_log s)).

Definition patch_license (clk : Clock) (licenseKey : string) (p : LicensePatch)
  : DB AdminReply :=
  bind (getLicenseByKey licenseKey) (fun found =>
  match found with
  | None => ret (AdminError 404 "License not found")
  | Some license =>
    if no_updates p then ret (AdminError 400 "No fields to update")
    else bind (update_license clk p (License.id license))
              (fun _ => ret (AdminDone "License updated"))
  end).

(** ** Sample data used by the closed examples below *)

Module Sample.

(** [new Date(text).getTime()] on the date texts the samples use. *)
Definition Date_parse (text : string) : option Z :=
  if String.eqb text "2024-01-01" then Some 1704067200000%Z
  else if String.eqb text "2030-01-01" then Some 1893456000000%Z
  else None.

Definition secret : string := "dev-secret-change-in-production".

(** 2026-11-02, midnight UTC. *)
Definition clock : Clock :=
  mkClock 1793577600000 "2026-11-02 00:00:00" "2026-11-02T00:00:00.000Z".

Definition key : string := "TLAT-AAAA-AAAA-AAAA-AAAA".

Definition license_row (expires : option string) (product : option Z) (cap : Z)
  : License.t :=
  License.mk 1 key product "test@example.com" "standard" cap expires
    "2023-01-01 00:00:00" "2023-01-01 00:00:00" None.

Definition activation_row (rowid : Z) (domain : string) (active : Z) : Activation.t :=
  Activation.mk rowid 1 domain None (Some "6.4") None "2023-01-02 00:00:00"
    (Some "2023-01-02 00:00:00") active
    (if (active =? 1)%Z then None else Some "2023-02-01 00:00:00").

Definition product_row : Product.t :=
  Product.mk 1 "tutor-lms-advanced-tracking" "Advanced Tutor LMS Stats Dashboard"
    None (Some "1.0.1") None 1.

Definition store_of (l : License.t) (rows : list Activation.t) : Store :=
  mkStore [product_row] [l] rows [] 1 (Z.of_nat (List.length rows)) 0.

Definition site : SiteInfo := mkSiteInfo None (Some "6.5") (Some "1.0.1") None.

(** An expired license (cap 1) whose one slot is taken by a production
    domain. *)
Definition expired_full : Store :=
  store_of (license_row (Some "2024-01-01") None 1) [activation_row 1 "example.com" 1].

(** The same, the license running until 2030. *)
Definition live_full : Store :=
  store_of (license_row (Some "2030-01-01") None 1) [activation_row 1 "example.com" 1].

(** An expired license bound to product 1. *)
Definition expired_bound : Store :=
  store_of (license_row (Some "2024-01-01") (Some 1%Z) 1)
           [activation_row 1 "example.com" 1].

(** A perpetual license (cap 1), first without activations, then active on
    one production domain. *)
Definition perpetual_fresh : Store := store_of (license_row None None 1) [].

Definition perpetual_active : Store :=
  store_of (license_row None None 1) [activation_row 1 "example.com" 1].

(** A license (cap 2) active on a production and on a development domain. *)
Definition mixed : Store :=
  store_of (license_row None None 2)
           [activation_row 1 "example.com" 1; activation_row 2 "site.local" 1].

(** A token for (key, example.com) that ran out in 2023, and text that is
    no token. *)
Definition stale_token : Token :=
  Signed (mkClaims key "example.com" "standard" (Some 1700000000%Z)) secret.

Definition garbled_token : Token := Unparsable "not-a-token".

(** [JSON.stringify] on the metadata values the samples use. *)
Definition JSON_stringify (v : JsValue) : string :=
  match v with
  | VBool true => "true"
  | VNumber n => of_Z n
  | VArray [] => "[]"
  | VObject [] => "{}"
  | _ => "null"
  end.

Definition params : CreateParams :=
  mkCreateParams None "new@example.com" "standard" 1 None VNull.

(** The same for product 1, with an empty object as metadata; and for a
    product that does not exist. *)
Definition params_bound : CreateParams :=
  mkCreateParams (Some 1%Z) "new@example.com" "standard" 1 None (VObject []).

Definition params_dangling : CreateParams :=
  mkCreateParams (Some 7%Z) "new@example.com" "standard" 1 None VNull.

(** A token for (key, other.example.com) that runs until 2030. *)
Definition foreign_token : Token :=
  Signed (mkClaims key "other.example.com" "standard" (Some 1893456000%Z)) secret.

(** Every draw of the key generator comes out 0. *)
Definition zero_draws : nat -> nat := fun _ => 0%nat.

End Sample.

(** ** More sample data *)

Module Fixture.

Import Sample.

(** A perpetual license (cap 1) whose activation on example.com has been
    deactivated. *)
Definition retired : Store :=
  store_of (license_row None None 1) [activation_row 1 "example.com" 0].

(** What the first activation of example.com on [perpetual_fresh] returns
    and leaves. *)
Definition first_result : ActivateResult :=
  Activated "License activated successfully"
    (mkNewActivation 1 "example.com" "2026-11-02T00:00:00.000Z" false)
    (Signed (mkClaims key "example.com" "standard" (Some 1825113600%Z)) secret)
    0 1 0.

Definition activated : Store :=
  snd (activateLicense secret Date_parse clock key "example.com" site perpetual_fresh).

Definition deactivated : Store :=
  snd (deactivateLicense clock key "example.com" None perpetual_active).

(** A license whose [expires_at] is no date, before and after the first
    activation of example.com. *)
Definition undated : Store := store_of (license_row (Some "next year") None 1) [].

Definition undated_result : ActivateResult :=
  Activated "License activated successfully"
    (mkNewActivation 1 "example.com" "2026-11-02T00:00:00.000Z" false)
    (Signed (mkClaims key "example.com" "standard" None) secret)
    0 1 0.

Definition undated_activated : Store :=
  snd (activateLicense secret Date_parse clock key "example.com" site undated).

(** Two requests for two production domains. *)
Definition request_a : ActivationRequest :=
  mkActivationRequest clock "a.example.com" site.

Definition request_b : ActivationRequest :=
  mkActivationRequest clock "b.example.com" site.

Definition request (licenseKey domain : option string) : Request :=
  mkRequest licenseKey domain None (Some "6.5") (Some "1.0.1") None
    licenseKey domain (Some "203.0.113.9").

(** [Number(text)] on texts made of decimal digits (the empty text gives
    0); other texts are taken as NaN. *)
Fixpoint digits (text : string) (acc : Z) : option Z :=
  match text with
  | EmptyString => Some acc
  | String c rest =>
    let n := nat_of_ascii c in
    if ((48 <=? n)%nat && (n <=? 57)%nat)%bool
    then digits rest (10 * acc + Z.of_nat (n - 48))%Z
    else None
  end.

Definition Number (text : string) : option Z := digits text 0.

(** Sixteen draws 0, 1, ..., 15, once followed by other draws. *)
Definition counting : nat -> nat := fun k => k.
Definition counting_then_zero : nat -> nat :=
  fun k => if (k <? 16)%nat then k else 0%nat.

Definition calls : list Call :=
  [CallActivate clock key "a.example.com" site;
   CallActivate clock key "b.example.com" site;
   CallHeartbeat clock key "a.example.com" site;
   CallActivate clock key "foo.local" site;
   CallDeactivate clock key "a.example.com" None;
   CallActivate clock key "b.example.com" site;
   CallActivate clock key "a.example.com" site;
   CallValidate clock key "b.example.com" None None].

End Fixture.

(** * Properties *)

(** ** Classifier *)

Lemma lower_ascii_idem (c : ascii) : lower_ascii (lower_ascii c) = lower_ascii c.
Proof. destruct c as [[] [] [] [] [] [] [] []]; reflexivity. Qed.

Lemma toLowerCase_idem (s : string) : toLowerCase (toLowerCase s) = toLowerCase s.
Proof.
  induction s as [|c r IH]; simpl.
  - reflexivity.
  - now rewrite lower_ascii_idem, IH.
Qed.

Lemma truthy_toLowerCase (s : string) : truthy (toLowerCase s) = truthy s.
Proof. destruct s; reflexivity. Qed.

Lemma isDevEnvironment_lowered (s : string) :
  isDevEnvironment (DStr (toLowerCase s)) = isDevEnvironment (DStr s).
Proof.
  unfold isDevEnvironment.
  rewrite truthy_toLowerCase, toLowerCase_idem.
  reflexivity.
Qed.

Lemma isDevEnvironment_value_string (a : string) :
  isDevEnvironment_value (VString a) = Returned (isDevEnvironment (DStr a)).
Proof.
  unfold isDevEnvironment_value. cbn [js_truthy].
  destruct (truthy a) eqn:E; cbn [negb]; [reflexivity|].
  unfold isDevEnvironment. now rewrite E.
Qed.

(** C10 (amended): [isDevEnvironment] returns [false] for [null],
    [undefined], the empty string and every other falsy value.  On a string
    it returns, and the verdict is the one of the lower-cased string, so two
    strings with the same lower-cased form are classified alike.  On a
    truthy value that is not a string (a number other than 0, [true], an
    array, an object) it does not return: it throws a TypeError. *)
Theorem isDevEnvironment_value_outcomes :
  isDevEnvironment_value VNull = Returned false
  /\ isDevEnvironment_value VUndefined = Returned false
  /\ isDevEnvironment_value (VString "") = Returned false
  /\ (forall v, js_truthy v = false -> isDevEnvironment_value v = Returned false)
  /\ (forall a, isDevEnvironment_value (VString a)
                = Returned (isDevEnvironment (DStr (toLowerCase a))))
  /\ (forall a b, toLowerCase a = toLowerCase b ->
                  isDevEnvironment_value (VString a) = isDevEnvironment_value (VString b))
  /\ (forall v, js_truthy v = true -> (forall s, v <> VString s) ->
                isDevEnvironment_value v
                = Thrown (TypeError "domain.toLowerCase is not a function")).
Proof.
  split; [reflexivity|]. split; [reflexivity|]. split; [reflexivity|].
  split; [|split; [|split]].
  - intros v Hfalsy. unfold isDevEnvironment_value. now rewrite Hfalsy.
  - intro a. now rewrite isDevEnvironment_value_string, isDevEnvironment_lowered.
  - intros a b Hcase. rewrite !isDevEnvironment_value_string.
    rewrite <- (isDevEnvironment_lowered a), <- (isDevEnvironment_lowered b).
    now rewrite Hcase.
  - intros v Htruthy Hother. unfold isDevEnvironment_value. rewrite Htruthy.
    cbn [negb]. destruct v; try reflexivity. now elim (Hother s).
Qed.

(** At C10 as stated: the number 5 is an input on which the classifier
    gives no verdict. *)
Lemma isDevEnvironment_throws_on_a_number :
  js_truthy (VNumber 5) = true
  /\ isDevEnvironment_value (VNumber 5)
     = Thrown (TypeError "domain.toLowerCase is not a function")
  /\ (forall verdict, isDevEnvironment_value (VNumber 5) <> Returned verdict).
Proof. repeat split. intro verdict. discriminate. Qed.

Lemma isDevEnvironment_value_outcomes_witness :
  toLowerCase "Shop.Example.LOCAL" = toLowerCase "shop.example.local"
  /\ isDevEnvironment_value (VString "Shop.Example.LOCAL")
     = isDevEnvironment_value (VString "shop.example.local")
  /\ isDevEnvironment_value (VString "Shop.Example.LOCAL") = Returned true
  /\ isDevEnvironment_value (VNumber 0) = Returned false
  /\ isDevEnvironment_value (VObject [])
     = Thrown (TypeError "domain.toLowerCase is not a function").
Proof.
  destruct isDevEnvironment_value_outcomes
    as (_ & _ & _ & Hfalsy & Hlower & Hcase & Hthrows).
  split; [reflexivity|].
  split; [apply Hcase; reflexivity|].
  split; [rewrite Hlower; reflexivity|].
  split; [apply Hfalsy; reflexivity|].
  apply Hthrows; [reflexivity | discriminate].
Defined.

(** ** Engine *)

Ltac run_db :=
  unfold bind, ret, throw, getLicenseByKey, getActiveActivations, getProductById,
    update_heartbeat_by_id, insert_activation, update_deactivate, logAudit,
    insert_license in *;
  cbn beta iota in *.

Lemma store_eta (s : Store) :
  mkStore (products s) (licenses s) (activations s) (audit_log s)
    (seq_licenses s) (seq_activations s) (seq_audit_log s) = s.
Proof. now destruct s. Qed.

Lemma map_unless {A} (test : A -> bool) (f : A -> A) (l : list A) :
  existsb test l = false -> map (fun a => if test a then f a else a) l = l.
Proof.
  induction l as [|a l IH]; simpl; intro H.
  - reflexivity.
  - apply orb_false_iff in H as [Ha Hl]. rewrite Ha. now rewrite IH.
Qed.

Lemma filter_none_length {A} (test : A -> bool) (l : list A) :
  existsb test l = false -> List.length (filter test l) = 0%nat.
Proof.
  induction l as [|a l IH]; simpl; intro H.
  - reflexivity.
  - apply orb_false_iff in H as [Ha Hl]. rewrite Ha. now apply IH.
Qed.

Lemma filter_some_length {A} (test : A -> bool) (l : list A) :
  existsb test l = true -> (0 < List.length (filter test l))%nat.
Proof.
  induction l as [|a l IH]; simpl; intro H.
  - discriminate.
  - destruct (test a); simpl in *; [lia | now apply IH].
Qed.

Lemma filter_map_stable {A} (test : A -> bool) (f : A -> A) (l : list A) :
  (forall a, test (f a) = test a) ->
  filter test (map f l) = map f (filter test l).
Proof.
  intro Hf. induction l as [|a l IH]; simpl.
  - reflexivity.
  - rewrite Hf. destruct (test a); simpl; now rewrite IH.
Qed.

Lemma find_map_stable {A} (test : A -> bool) (f : A -> A) (l : list A) :
  (forall a, test (f a) = test a) ->
  find test (map f l) = option_map f (find test l).
Proof.
  intro Hf. induction l as [|a l IH]; simpl.
  - reflexivity.
  - rewrite Hf. now destruct (test a).
Qed.

Lemma Forall2_map_self {A} (R : A -> A -> Prop) (f : A -> A) (l : list A) :
  (forall a, R a (f a)) -> Forall2 R l (map f l).
Proof.
  intro Hf. induction l as [|a l IH]; simpl; constructor; auto.
Qed.

(** The heartbeat UPDATE as a function on rows. *)
Lemma touch_same_but_heartbeat clk wp plugin a :
  same_but_heartbeat a (touch clk wp plugin a).
Proof. unfold same_but_heartbeat, touch; simpl. repeat split. Qed.

Lemma same_but_heartbeat_refl a : same_but_heartbeat a a.
Proof. unfold same_but_heartbeat. repeat split. Qed.

Section TouchRows.

Variables (clk : Clock) (wp plugin : option string) (rowId : Z).

Local Abbreviation bump := (touch_where_id clk wp plugin rowId).

Lemma bump_active_of lid a : active_of lid (bump a) = active_of lid a.
Proof. unfold touch_where_id. now destruct (_ =? _)%Z. Qed.

Lemma bump_is_production a : is_production (bump a) = is_production a.
Proof. unfold touch_where_id. now destruct (_ =? _)%Z. Qed.

Lemma bump_same_pair lid d a : same_pair lid d (bump a) = same_pair lid d a.
Proof. unfold touch_where_id. now destruct (_ =? _)%Z. Qed.

Lemma bump_domain_eqb d a :
  String.eqb (Activation.domain (bump a)) d = String.eqb (Activation.domain a) d.
Proof. unfold touch_where_id. now destruct (_ =? _)%Z. Qed.

Lemma bump_rows_related (l : list Activation.t) :
  Forall2 (fun a a' => same_but_heartbeat a a'
                       /\ (Activation.id a <> rowId -> a' = a))
          l (map bump l).
Proof.
  apply Forall2_map_self. intro a. unfold touch_where_id.
  destruct (Z.eqb_spec (Activation.id a) rowId) as [E|E].
  - split; [apply touch_same_but_heartbeat | congruence].
  - split; [apply same_but_heartbeat_refl | reflexivity].
Qed.

Lemma touch_heartbeat_written a : heartbeat_written clk wp plugin a (touch clk wp plugin a).
Proof.
  unfold heartbeat_written, touch, COALESCE. cbn.
  repeat split; [now destruct wp | now destruct plugin].
Qed.

Lemma bump_rows_written (l : list Activation.t) :
  Forall2 (fun a a' => same_but_heartbeat a a'
                       /\ (Activation.id a <> rowId -> a' = a)
                       /\ (Activation.id a = rowId -> heartbeat_written clk wp plugin a a'))
          l (map bump l).
Proof.
  apply Forall2_map_self. intro a. unfold touch_where_id.
  destruct (Z.eqb_spec (Activation.id a) rowId) as [E|E].
  - split; [apply touch_same_but_heartbeat|].
    split; [congruence | intros _; apply touch_heartbeat_written].
  - split; [apply same_but_heartbeat_refl|]. split; [reflexivity | congruence].
Qed.

End TouchRows.

Section EngineFacts.

Variable JWT_SECRET : string.
Variable Date_parse : string -> option Z.
Variable JSON_stringify : JsValue -> string.

Abbreviation activate := (activateLicense JWT_SECRET Date_parse).
Abbreviation validate := (validateLicense JWT_SECRET Date_parse).
Abbreviation expired := (license_expired Date_parse).

(** C9: a call of [activateLicense] that returns a failure outcome returns
    one of [invalid_key], [expired], [limit_reached] and leaves the store as
    it found it: no activation row inserted or modified, no audit entry. *)
Theorem activateLicense_failure_keeps_store
    (clk : Clock) (licenseKey domain : string) (siteInfo : SiteInfo)
    (s s' : Store) (error message : string) (current : option (list ActivationSummary))
    (Hfail : activate clk licenseKey domain siteInfo s
             = (Returned (ActivateFailed error message current), s')) :
  s' = s
  /\ (error = "invalid_key" \/ error = "expired" \/ error = "limit_reached").
Proof.
  unfold activateLicense in Hfail. run_db.
  destruct (find _ (licenses s)) as [license|]; [|inversion Hfail; auto].
  destruct (license_expired _ _ _); [inversion Hfail; auto|].
  destruct (find _ (filter _ (activations s))) as [existing|]; [discriminate|].
  destruct (negb _ && _)%bool; [inversion Hfail; auto|].
  destruct (existsb _ _); discriminate.
Qed.

Lemma development_never_limit_reached
    (clk : Clock) (licenseKey dev : string) (siteInfo : SiteInfo) (s : Store) :
  isDevEnvironment (DStr dev) = true ->
  failure_tag (fst (activate clk licenseKey dev siteInfo s)) <> Some "limit_reached".
Proof.
  intro Hdev.
  unfold activateLicense. run_db.
  destruct (find _ (licenses s)) as [l|]; [|simpl; discriminate].
  destruct (license_expired _ _ _); [simpl; discriminate|].
  destruct (find _ (filter _ (activations s))); [simpl; discriminate|].
  rewrite Hdev. cbn [negb andb].
  destruct (existsb _ _); simpl; discriminate.
Qed.

(** C1 (amended): for a license that has not expired, with cap
    [max_activations], and a domain with no currently-active activation of
    that license: when the domain is production and the currently-active
    production activations number at least the cap, [activateLicense] fails
    with [limit_reached], lists every current activation with its
    dev/production flag, and writes nothing.  A development domain never
    draws [limit_reached], in any store and at any time. *)
Theorem activateLicense_limit_reached
    (clk : Clock) (licenseKey domain : string) (siteInfo : SiteInfo) (s : Store)
    (license : License.t)
    (Hfound : lookup s licenseKey = Some license)
    (Hlive : expired license clk = false)
    (Hnew : active_for s (License.id license) domain = None)
    (Hprod : isDevEnvironment (DStr domain) = false)
    (Hfull : (Z.of_nat (production_count s (License.id license))
              >= License.max_activations license)%Z) :
  activate clk licenseKey domain siteInfo s
  = (Returned (ActivateFailed "limit_reached" (limit_message license)
                 (Some (map summarize (active_rows s (License.id license))))), s)
  /\ (forall a, In a (active_rows s (License.id license)) ->
        In (mkActivationSummary (Activation.domain a) (Activation.activated_at a)
              (isDevEnvironment (DStr (Activation.domain a))))
           (map summarize (active_rows s (License.id license))))
  /\ (forall clk' key' dev siteInfo' s',
        isDevEnvironment (DStr dev) = true ->
        failure_tag (fst (activate clk' key' dev siteInfo' s')) <> Some "limit_reached").
Proof.
  unfold lookup, active_for, production_count, active_rows in *.
  split; [|split].
  - unfold activateLicense. run_db.
    rewrite Hfound, Hlive, Hnew, Hprod. cbn [negb andb].
    apply Z.ge_le, Z.geb_le in Hfull.
    now rewrite Hfull.
  - intros a Ha. apply (in_map summarize) in Ha. exact Ha.
  - apply development_never_limit_reached.
Qed.

(** *** Re-activation of a domain that is already active *)

Lemma heartbeat_update_facts clk wp plugin rowId (s : Store) :
  let s' := snd (update_heartbeat_by_id clk wp plugin rowId s) in
  products s' = products s
  /\ licenses s' = licenses s
  /\ audit_log s' = audit_log s
  /\ activations s' = map (touch_where_id clk wp plugin rowId) (activations s)
  /\ (forall lid, active_rows s' lid
                  = map (touch_where_id clk wp plugin rowId) (active_rows s lid))
  /\ (forall lid, production_count s' lid = production_count s lid)
  /\ (forall lid d, pair_count s' lid d = pair_count s lid d).
Proof.
  unfold update_heartbeat_by_id, production_count, pair_count, active_rows; simpl.
  repeat split; intros.
  - apply filter_map_stable. intro a. apply bump_active_of.
  - rewrite filter_map_stable by (intro a; apply bump_active_of).
    rewrite filter_map_stable by (intro a; apply bump_is_production).
    apply length_map.
  - rewrite filter_map_stable by (intro a; apply bump_same_pair).
    apply length_map.
Qed.

Lemma reactivation_step
    (clk : Clock) (licenseKey domain : string) (siteInfo : SiteInfo) (s : Store)
    (license : License.t) (existing : Activation.t) :
  lookup s licenseKey = Some license ->
  expired license clk = false ->
  active_for s (License.id license) domain = Some existing ->
  activate clk licenseKey domain siteInfo s
  = (Returned (AlreadyActivated "License already activated for this domain" existing
                 (generateToken JWT_SECRET Date_parse clk license domain)
                 (isDevEnvironment (DStr domain))),
     snd (update_heartbeat_by_id clk (wpVersion siteInfo) (pluginVersion siteInfo)
            (Activation.id existing) s)).
Proof.
  unfold lookup, active_for, active_rows. intros Hfound Hlive Hexisting.
  unfold activateLicense. run_db.
  now rewrite Hfound, Hlive, Hexisting.
Qed.

(** One call never adds a second row for a (license, domain) pair. *)
Lemma activateLicense_pair_count
    (clk : Clock) (licenseKey domain : string) (siteInfo : SiteInfo) (s : Store)
    (lid : Z) (d : string) :
  (pair_count (snd (activate clk licenseKey domain siteInfo s)) lid d
   <= Nat.max 1 (pair_count s lid d))%nat.
Proof.
  unfold activateLicense. run_db.
  destruct (find _ (licenses s)) as [license|]; [|cbn [snd]; lia].
  destruct (license_expired _ _ _); [cbn [snd]; lia|].
  destruct (find _ (filter _ (activations s))) as [existing|].
  - cbn [snd].
    pose proof (heartbeat_update_facts clk (wpVersion siteInfo) (pluginVersion siteInfo)
                  (Activation.id existing) s) as H.
    cbn zeta in H. unfold update_heartbeat_by_id in H. cbn [snd] in H.
    destruct H as (_ & _ & _ & _ & _ & _ & H). rewrite H. lia.
  - destruct (negb _ && _)%bool; [cbn [snd]; lia|].
    destruct (existsb _ (activations s)) eqn:Hdup; [cbn [snd]; lia|].
    cbn [snd]. unfold pair_count. cbn [activations set_activations].
    rewrite filter_app, length_app. cbn [filter].
    destruct (same_pair lid d _) eqn:Hsame; cbn [List.length]; [|lia].
    unfold same_pair in Hsame. cbn [Activation.license_id Activation.domain] in Hsame.
    apply andb_true_iff in Hsame as [Hl Hd].
    apply Z.eqb_eq in Hl. apply String.eqb_eq in Hd. subst lid d.
    rewrite (filter_none_length _ _ Hdup). lia.
Qed.

(** C2 (amended): for a license that has not expired and a domain that
    already has a currently-active row, [activateLicense] succeeds with the
    row it found and a token issued by this call.  On the rows carrying the
    found row's id it writes [last_heartbeat] (the time of the call),
    [wp_version] and [plugin_version] (each version sent; one not sent
    stays), so the domain's active row now carries them; it changes no other
    column and no other row, inserts no row, writes no audit entry and
    leaves the production count (the limit slots in use) as it was.  A
    further call for the same pair, the license still unexpired, is again a
    re-activation with the row count unchanged; and two calls in a row for
    one (license, domain) pair never leave more than one row for it where
    there was at most one. *)
Theorem activateLicense_idempotent_reactivation
    (clk : Clock) (licenseKey domain : string) (siteInfo : SiteInfo) (s : Store)
    (license : License.t) (existing : Activation.t)
    (Hfound : lookup s licenseKey = Some license)
    (Hlive : expired license clk = false)
    (Hexisting : active_for s (License.id license) domain = Some existing) :
  exists s',
    activate clk licenseKey domain siteInfo s
    = (Returned (AlreadyActivated "License already activated for this domain" existing
                   (generateToken JWT_SECRET Date_parse clk license domain)
                   (isDevEnvironment (DStr domain))), s')
    /\ Forall2 (fun a a' => same_but_heartbeat a a'
                            /\ (Activation.id a <> Activation.id existing -> a' = a)
                            /\ (Activation.id a = Activation.id existing ->
                                heartbeat_written clk (wpVersion siteInfo)
                                  (pluginVersion siteInfo) a a'))
               (activations s) (activations s')
    /\ (exists updated,
          active_for s' (License.id license) domain = Some updated
          /\ Activation.id updated = Activation.id existing
          /\ same_but_heartbeat existing updated
          /\ heartbeat_written clk (wpVersion siteInfo) (pluginVersion siteInfo)
                existing updated)
    /\ List.length (activations s') = List.length (activations s)
    /\ licenses s' = licenses s
    /\ audit_log s' = audit_log s
    /\ production_count s' (License.id license) = production_count s (License.id license)
    /\ (forall clk2 siteInfo2,
          expired license clk2 = false ->
          exists again token dev s'',
            activate clk2 licenseKey domain siteInfo2 s'
            = (Returned (AlreadyActivated "License already activated for this domain"
                           again token dev), s'')
            /\ List.length (activations s'') = List.length (activations s))
    /\ (forall s0 clk1 clk2 siteInfo1 siteInfo2 lid,
          (pair_count s0 lid domain <= 1)%nat ->
          (pair_count (snd (activate clk2 licenseKey domain siteInfo2
                              (snd (activate clk1 licenseKey domain siteInfo1 s0))))
                      lid domain <= 1)%nat).
Proof.
  pose proof (heartbeat_update_facts clk (wpVersion siteInfo) (pluginVersion siteInfo)
                (Activation.id existing) s) as F.
  cbn zeta in F. destruct F as (_ & Flic & Faud & Fact & Frows & Fprod & _).
  eexists. split; [apply reactivation_step; eassumption|].
  split; [rewrite Fact; apply bump_rows_written|].
  split.
  { exists (touch clk (wpVersion siteInfo) (pluginVersion siteInfo) existing).
    split.
    - unfold active_for. rewrite Frows.
      rewrite find_map_stable by (intro a; apply bump_domain_eqb).
      unfold active_for in Hexisting. rewrite Hexisting. cbn [option_map].
      unfold touch_where_id. now rewrite Z.eqb_refl.
    - split; [reflexivity|].
      split; [apply touch_same_but_heartbeat | apply touch_heartbeat_written]. }
  split; [rewrite Fact; apply length_map|].
  split; [exact Flic|]. split; [exact Faud|]. split; [apply Fprod|].
  split.
  - intros clk2 siteInfo2 Hlive2.
    set (s' := snd (update_heartbeat_by_id _ _ _ _ s)) in *.
    assert (Hfound' : lookup s' licenseKey = Some license)
      by (unfold lookup; rewrite Flic; exact Hfound).
    assert (Hexisting' : active_for s' (License.id license) domain
                         = Some (touch_where_id clk (wpVersion siteInfo)
                                   (pluginVersion siteInfo) (Activation.id existing)
                                   existing)).
    { unfold active_for. rewrite Frows.
      rewrite find_map_stable by (intro a; apply bump_domain_eqb).
      unfold active_for in Hexisting. now rewrite Hexisting. }
    do 4 eexists. split.
    + apply reactivation_step; eassumption.
    + pose proof (heartbeat_update_facts clk2 (wpVersion siteInfo2)
                    (pluginVersion siteInfo2)
                    (Activation.id (touch_where_id clk (wpVersion siteInfo)
                                      (pluginVersion siteInfo) (Activation.id existing)
                                      existing)) s') as F2.
      cbn zeta in F2. destruct F2 as (_ & _ & _ & Fact2 & _).
      rewrite Fact2, length_map. subst s'. rewrite Fact. apply length_map.
  - intros s0 clk1 clk2 siteInfo1 siteInfo2 lid Hone.
    pose proof (activateLicense_pair_count clk1 licenseKey domain siteInfo1 s0 lid domain).
    pose proof (activateLicense_pair_count clk2 licenseKey domain siteInfo2
                  (snd (activate clk1 licenseKey domain siteInfo1 s0)) lid domain).
    lia.
Qed.

(** *** Expiry *)

Lemma past_expiry_is_expired (license : License.t) (clk : Clock) (e : string) (t : Z) :
  License.expires_at license = Some e ->
  e <> "" ->
  Date_parse e = Some t ->
  (t < Date_now clk)%Z ->
  expired license clk = true.
Proof.
  intros He Hne Hp Hlt. unfold license_expired. rewrite He, Hp.
  apply String.eqb_neq in Hne. unfold truthy. rewrite Hne.
  apply Z.ltb_lt in Hlt. now rewrite Hlt.
Qed.

Lemma product_mismatch_reads (license : License.t) (productSlug : option string)
    (s : Store) :
  product_mismatch license productSlug s
  = (Returned match productSlug with
              | Some wanted =>
                if truthy wanted then
                  match bound_product s license with
                  | Some p => if negb (String.eqb (Product.slug p) wanted)
                              then Some p else None
                  | None => None
                  end
                else None
              | None => None
              end, s).
Proof.
  unfold product_mismatch, bound_product. run_db.
  destruct productSlug as [wanted|]; [|now destruct (License.product_id license)].
  destruct (License.product_id license) as [pid|]; [|now destruct (truthy wanted)].
  destruct (truthy wanted); [|reflexivity].
  now destruct (pid =? 0)%Z.
Qed.

(** C4 (amended): a license whose [expires_at] is set and lies in the past
    fails [activateLicense] with [expired] for every domain, whatever
    activations exist, and nothing is written.  [validateLicense] fails with
    [expired] as well, for every domain and token, unless a non-empty
    [productSlug] is passed and the license is bound to an existing product
    with another slug: the product check comes first and the outcome is then
    [product_mismatch]. *)
Theorem expired_license_is_rejected
    (clk : Clock) (licenseKey : string) (s : Store) (license : License.t)
    (e : string) (t : Z)
    (Hfound : lookup s licenseKey = Some license)
    (Hset : License.expires_at license = Some e)
    (Hnonempty : e <> "")
    (Hparse : Date_parse e = Some t)
    (Hpast : (t < Date_now clk)%Z) :
  (forall domain siteInfo,
     activate clk licenseKey domain siteInfo s
     = (Returned (ActivateFailed "expired" "License has expired" None), s))
  /\ (forall domain token productSlug,
        (forall p wanted, bound_product s license = Some p ->
                          productSlug = Some wanted -> wanted <> "" ->
                          Product.slug p = wanted) ->
        validate clk licenseKey domain token productSlug s
        = (Returned (ValidateFailed "expired" "License has expired" (Some e)), s))
  /\ (forall domain token p wanted,
        bound_product s license = Some p ->
        wanted <> "" ->
        Product.slug p <> wanted ->
        validate clk licenseKey domain token (Some wanted) s
        = (Returned (ValidateFailed "product_mismatch"
                       ("License is for " ++ Product.name p ++ ", not " ++ wanted) None),
           s)).
Proof.
  pose proof (past_expiry_is_expired license clk e t Hset Hnonempty Hparse Hpast) as Hexp.
  unfold lookup in Hfound.
  split; [|split].
  - intros domain siteInfo. unfold activateLicense. run_db.
    now rewrite Hfound, Hexp.
  - intros domain token productSlug Hslug.
    unfold validateLicense, bind at 1. unfold getLicenseByKey. rewrite Hfound.
    unfold bind at 1. rewrite product_mismatch_reads.
    assert (Hnone : match productSlug with
              | Some wanted =>
                if truthy wanted then
                  match bound_product s license with
                  | Some p => if negb (String.eqb (Product.slug p) wanted)
                              then Some p else None
                  | None => None
                  end
                else None
              | None => None
              end = None).
    { destruct productSlug as [wanted|]; [|reflexivity].
      unfold truthy. destruct (String.eqb_spec wanted ""); [reflexivity|]. cbn [negb].
      destruct (bound_product s license) as [p|]; [|reflexivity].
      rewrite (Hslug p wanted eq_refl eq_refl n). now rewrite String.eqb_refl. }
    rewrite Hnone, Hexp, Hset. reflexivity.
  - intros domain token p wanted Hbound Hne Hdiff.
    unfold validateLicense, bind at 1. unfold getLicenseByKey. rewrite Hfound.
    unfold bind at 1. rewrite product_mismatch_reads, Hbound.
    apply String.eqb_neq in Hne, Hdiff. unfold truthy. rewrite Hne, Hdiff.
    reflexivity.
Qed.

(** *** Deactivation *)

Lemma lookup_exists (s : Store) (licenseKey : string) :
  existsb (fun l => String.eqb (License.license_key l) licenseKey) (licenses s)
  = match lookup s licenseKey with Some _ => true | None => false end.
Proof.
  unfold lookup. induction (licenses s) as [|l ls IH]; simpl.
  - reflexivity.
  - now destruct (String.eqb _ _).
Qed.

Lemma active_for_exists (s : Store) (lid : Z) (d : string) :
  existsb (matches_active lid d) (activations s)
  = match active_for s lid d with Some _ => true | None => false end.
Proof.
  unfold active_for, active_rows, matches_active, same_pair, active_of.
  induction (activations s) as [|a l IH]; simpl.
  - reflexivity.
  - destruct (Activation.license_id a =? lid)%Z, (Activation.is_active a =? 1)%Z;
      simpl; rewrite ?andb_false_r; simpl; auto.
    destruct (String.eqb _ _); simpl; auto.
Qed.

Lemma retire_rows_related (clk : Clock) (lid : Z) (d : string) (l : list Activation.t) :
  Forall2 (fun a a' => if matches_active lid d a then retired_copy clk a a' else a' = a)
          l (map (retire_where clk lid d) l).
Proof.
  apply Forall2_map_self. intro a. unfold retire_where.
  destruct (matches_active lid d a); [|reflexivity].
  unfold retired_copy, retire; simpl. repeat split.
Qed.

Lemma active_rows_after_retire (clk : Clock) (lid : Z) (d : string)
    (l : list Activation.t) :
  filter (active_of lid) (map (retire_where clk lid d) l)
  = filter (fun a => negb (String.eqb (Activation.domain a) d)) (filter (active_of lid) l).
Proof.
  induction l as [|a l IH]; cbn [map filter].
  - reflexivity.
  - rewrite IH. clear IH.
    unfold retire_where, matches_active, same_pair, active_of.
    destruct (Activation.license_id a =? lid)%Z eqn:El,
             (String.eqb (Activation.domain a) d) eqn:Ed,
             (Activation.is_active a =? 1)%Z eqn:Ea;
      cbn [andb negb retire Activation.license_id Activation.is_active Activation.domain
           filter Z.eqb];
      rewrite ?El, ?Ed, ?Ea; cbn [andb negb filter]; rewrite ?Ed; reflexivity.
Qed.

Lemma find_after_excluding (d : string) (l : list Activation.t) :
  find (fun a => String.eqb (Activation.domain a) d)
       (filter (fun a => negb (String.eqb (Activation.domain a) d)) l) = None.
Proof.
  induction l as [|a l IH]; simpl.
  - reflexivity.
  - destruct (String.eqb (Activation.domain a) d) eqn:E; simpl; [|rewrite E]; exact IH.
Qed.

Lemma deactivate_unknown_key
    (clk : Clock) (licenseKey domain : string) (ip : option string) (s : Store) :
  lookup s licenseKey = None ->
  deactivateLicense clk licenseKey domain ip s
  = (Returned (DeactivateFailed "invalid_key" "License key not found"), s).
Proof.
  intro Hnone. unfold lookup in Hnone. unfold deactivateLicense. run_db.
  now rewrite Hnone.
Qed.

Lemma deactivate_not_found
    (clk : Clock) (licenseKey domain : string) (ip : option string) (s : Store)
    (license : License.t) :
  lookup s licenseKey = Some license ->
  active_for s (License.id license) domain = None ->
  deactivateLicense clk licenseKey domain ip s
  = (Returned (DeactivateFailed "not_found"
                 "No active activation found for this domain"), s).
Proof.
  intros Hfound Hnone.
  pose proof (active_for_exists s (License.id license) domain) as Hex.
  rewrite Hnone in Hex.
  unfold lookup in Hfound. unfold deactivateLicense. run_db.
  rewrite Hfound, (filter_none_length _ _ Hex). cbn [Z.of_nat Z.eqb].
  unfold set_activations, retire_where. rewrite (map_unless _ _ _ Hex).
  now rewrite store_eta.
Qed.

Lemma deactivate_success
    (clk : Clock) (licenseKey domain : string) (ip : option string) (s : Store)
    (license : License.t) (existing : Activation.t) :
  lookup s licenseKey = Some license ->
  active_for s (License.id license) domain = Some existing ->
  exists s',
    deactivateLicense clk licenseKey domain ip s
    = (Returned (Deactivated "License deactivated successfully"
                   (License.max_activations license
                    - Z.of_nat (List.length (active_rows s' (License.id license))))%Z),
       s')
    /\ activations s' = map (retire_where clk (License.id license) domain) (activations s)
    /\ audit_log s'
       = (audit_log s ++ [Audit.mk (seq_audit_log s + 1) (Some (License.id license))
                            "deactivated" (Some domain) ip None (datetime_now clk)])%list
    /\ licenses s' = licenses s.
Proof.
  intros Hfound Hsome.
  pose proof (active_for_exists s (License.id license) domain) as Hex.
  rewrite Hsome in Hex. apply filter_some_length in Hex.
  unfold lookup in Hfound. unfold deactivateLicense. run_db.
  rewrite Hfound.
  destruct (Z.eqb_spec (Z.of_nat (List.length
              (filter (matches_active (License.id license) domain) (activations s)))) 0)
    as [E|E]; [lia|].
  eexists. split; [reflexivity|]. cbn. repeat split.
Qed.

(** C5: [deactivateLicense] fails with [invalid_key] when no license has
    the key, and with [not_found] when the license has no currently-active
    row for the domain (the store is then as before).  Otherwise it
    succeeds: every currently-active row of the license for the domain
    becomes inactive and is stamped with the deactivation time, the other
    rows are untouched, one [deactivated] audit entry is appended, and
    [remaining] is the cap minus the number of all rows of the license that
    are still active, development ones included: the rows that were active
    before, less those of the domain. *)
Theorem deactivateLicense_outcomes
    (clk : Clock) (licenseKey domain : string) (ip : option string) (s : Store) :
  (lookup s licenseKey = None ->
   deactivateLicense clk licenseKey domain ip s
   = (Returned (DeactivateFailed "invalid_key" "License key not found"), s))
  /\ (forall license,
        lookup s licenseKey = Some license ->
        active_for s (License.id license) domain = None ->
        deactivateLicense clk licenseKey domain ip s
        = (Returned (DeactivateFailed "not_found"
                       "No active activation found for this domain"), s))
  /\ (forall license existing,
        lookup s licenseKey = Some license ->
        active_for s (License.id license) domain = Some existing ->
        exists s',
          deactivateLicense clk licenseKey domain ip s
          = (Returned (Deactivated "License deactivated successfully"
                         (License.max_activations license
                          - Z.of_nat (List.length (active_rows s' (License.id license))))%Z),
             s')
          /\ Forall2 (fun a a' => if matches_active (License.id license) domain a
                                  then retired_copy clk a a' else a' = a)
                     (activations s) (activations s')
          /\ audit_log s'
             = (audit_log s ++ [Audit.mk (seq_audit_log s + 1) (Some (License.id license))
                                  "deactivated" (Some domain) ip None (datetime_now clk)])%list
          /\ licenses s' = licenses s
          /\ active_rows s' (License.id license)
             = filter (fun a => negb (String.eqb (Activation.domain a) domain))
                      (active_rows s (License.id license))
          /\ active_for s' (License.id license) domain = None).
Proof.
  split; [|split].
  - apply deactivate_unknown_key.
  - intros license. apply deactivate_not_found.
  - intros license existing Hfound Hsome.
    destruct (deactivate_success clk licenseKey domain ip s license existing Hfound Hsome)
      as (s' & Hrun & Hrows & Haudit & Hlic).
    exists s'. split; [exact Hrun|].
    split; [rewrite Hrows; apply retire_rows_related|].
    split; [exact Haudit|]. split; [exact Hlic|].
    unfold active_for, active_rows. rewrite Hrows, active_rows_after_retire.
    split; [reflexivity | apply find_after_excluding].
Qed.

(** *** Creation *)

Lemma references_product_true (s : Store) (pid : option Z) :
  pid = None
  \/ (exists product, In product (products s) /\ pid = Some (Product.id product)) ->
  references_product s pid = true.
Proof.
  intros [Hnull | (product & Hin & Hid)]; subst pid; [reflexivity|].
  cbn [references_product]. apply existsb_exists. exists product.
  split; [exact Hin | apply Z.eqb_refl].
Qed.

Lemma references_product_false (s : Store) (pid : Z) :
  (forall product, In product (products s) -> Product.id product <> pid) ->
  references_product s (Some pid) = false.
Proof.
  intro Hnone. cbn [references_product].
  destruct (existsb _ (products s)) eqn:E; [|reflexivity].
  apply existsb_exists in E as (product & Hin & Hid).
  apply Z.eqb_eq in Hid. now elim (Hnone product Hin).
Qed.

(** C6 (amended): [createLicense] draws one key and attempts one INSERT.
    When no license holds the drawn key and [productId] is null or the id
    of an existing product, the row is persisted under the next rowid (its
    metadata column holds the JSON text of a truthy [metadata], and NULL
    otherwise) and a [created] audit entry is appended.  When the key is
    already taken, the uniqueness violation is thrown to the caller: there
    is no second draw, and nothing is persisted or audited.  A [productId]
    that is the id of no product makes the INSERT fail in the same way, on
    the foreign key. *)
Theorem createLicense_single_attempt
    (rnd : nat -> nat) (clk : Clock) (p : CreateParams) (s : Store) :
  (lookup s (generateLicenseKey rnd) = None ->
   productId p = None
   \/ (exists product, In product (products s)
                       /\ productId p = Some (Product.id product)) ->
   exists s',
     createLicense JSON_stringify rnd clk p s
     = (Returned (mkCreatedLicense (seq_licenses s + 1) (generateLicenseKey rnd)
                    (productId p) (email p) (plan p) (maxActivations p) (expiresAt p)),
        s')
     /\ licenses s'
        = (licenses s ++ [License.mk (seq_licenses s + 1) (generateLicenseKey rnd)
                            (productId p) (email p) (plan p) (maxActivations p)
                            (expiresAt p) (datetime_now clk) (datetime_now clk)
                            (if js_truthy (metadata p)
                             then Some (JSON_stringify (metadata p)) else None)])%list
     /\ audit_log s'
        = (audit_log s ++ [Audit.mk (seq_audit_log s + 1) (Some (seq_licenses s + 1)%Z)
                             "created" None None
                             (Some (DetailsCreated (email p) (plan p) (productId p)))
                             (datetime_now clk)])%list
     /\ activations s' = activations s
     /\ products s' = products s)
  /\ (forall holder,
        lookup s (generateLicenseKey rnd) = Some holder ->
        createLicense JSON_stringify rnd clk p s
        = (Thrown (SqliteError "SQLITE_CONSTRAINT_UNIQUE"
                     "UNIQUE constraint failed: licenses.license_key"), s))
  /\ (forall pid,
        lookup s (generateLicenseKey rnd) = None ->
        productId p = Some pid ->
        (forall product, In product (products s) -> Product.id product <> pid) ->
        createLicense JSON_stringify rnd clk p s
        = (Thrown (SqliteError "SQLITE_CONSTRAINT_FOREIGNKEY"
                     "FOREIGN KEY constraint failed"), s)).
Proof.
  pose proof (lookup_exists s (generateLicenseKey rnd)) as Hex.
  split; [|split].
  - intros Hfree Hproduct. rewrite Hfree in Hex.
    apply references_product_true in Hproduct.
    unfold createLicense. run_db. rewrite Hex, Hproduct. cbn [negb].
    eexists. split; [reflexivity|]. cbn. repeat split.
  - intros holder Htaken. rewrite Htaken in Hex.
    unfold createLicense. run_db. now rewrite Hex.
  - intros pid Hfree Hpid Hnone. rewrite Hfree in Hex.
    apply references_product_false in Hnone.
    unfold createLicense. run_db. now rewrite Hex, Hpid, Hnone.
Qed.

(** *** Token verification inside validation *)

Lemma token_check_failure (clk : Clock) (licenseKey domain : string) (t : Token)
    (e : JwtError) :
  token_truthy (Some t) = true ->
  jwt_verify t JWT_SECRET (Date_now clk) = inl e ->
  token_check JWT_SECRET clk licenseKey domain (Some t)
  = Some (ValidateFailed "invalid_token" "Invalid or expired token" None).
Proof.
  intros Ht Hv. unfold token_check. now rewrite Ht, Hv.
Qed.

Lemma token_check_mismatch (clk : Clock) (licenseKey domain : string) (t : Token)
    (decoded : Claims) :
  jwt_verify t JWT_SECRET (Date_now clk) = inr decoded ->
  claim_domain decoded <> domain \/ claim_licenseKey decoded <> licenseKey ->
  token_check JWT_SECRET clk licenseKey domain (Some t)
  = Some (ValidateFailed "token_mismatch" "Token does not match domain/license" None).
Proof.
  intros Hv Hother. unfold token_check.
  assert (Ht : token_truthy (Some t) = true).
  { destruct t as [payload signer|raw]; [reflexivity | discriminate Hv]. }
  rewrite Ht, Hv.
  destruct Hother as [H|H]; apply String.eqb_neq in H; rewrite H;
    cbn [negb orb]; [reflexivity | now rewrite orb_true_r].
Qed.

(** The product check lets a license through when no slug is asked for, or
    its product (if it has one) carries the slug asked for. *)
Lemma product_check_passes (license : License.t) (productSlug : option string)
    (s : Store) :
  (forall p wanted, bound_product s license = Some p ->
                    productSlug = Some wanted -> wanted <> "" ->
                    Product.slug p = wanted) ->
  product_mismatch license productSlug s = (Returned None, s).
Proof.
  intro Hslug. rewrite product_mismatch_reads. f_equal. f_equal.
  destruct productSlug as [wanted|]; [|reflexivity].
  unfold truthy. destruct (String.eqb_spec wanted ""); [reflexivity|]. cbn [negb].
  destruct (bound_product s license) as [p|]; [|reflexivity].
  rewrite (Hslug p wanted eq_refl eq_refl n). now rewrite String.eqb_refl.
Qed.

(** Where the token check is reached, its failure is the outcome. *)
Lemma validate_token_check_fails
    (clk : Clock) (licenseKey domain : string) (token : option Token)
    (productSlug : option string) (s : Store) (license : License.t)
    (activation : Activation.t) (failure : ValidateResult) :
  lookup s licenseKey = Some license ->
  (forall p wanted, bound_product s license = Some p ->
                    productSlug = Some wanted -> wanted <> "" ->
                    Product.slug p = wanted) ->
  expired license clk = false ->
  active_for s (License.id license) domain = Some activation ->
  token_check JWT_SECRET clk licenseKey domain token = Some failure ->
  validate clk licenseKey domain token productSlug s = (Returned failure, s).
Proof.
  intros Hfound Hslug Hlive Hact Hcheck.
  unfold lookup, active_for, active_rows in *.
  unfold validateLicense, bind at 1. unfold getLicenseByKey. rewrite Hfound.
  unfold bind at 1. rewrite (product_check_passes license productSlug s Hslug).
  rewrite Hlive. run_db. now rewrite Hact, Hcheck.
Qed.

(** A failure of one of the checks that come before the token check does
    not depend on the token. *)
Lemma validate_earlier_failure
    (clk : Clock) (licenseKey domain : string) (token token' : option Token)
    (productSlug : option string) (s s' : Store) (error message : string)
    (expiredAt : option string) :
  validate clk licenseKey domain token productSlug s
  = (Returned (ValidateFailed error message expiredAt), s') ->
  error = "invalid_key" \/ error = "product_mismatch" \/ error = "expired"
  \/ error = "not_activated" ->
  validate clk licenseKey domain token' productSlug s
  = (Returned (ValidateFailed error message expiredAt), s').
Proof.
  intros Hrun Htag.
  unfold validateLicense, bind at 1 in Hrun. unfold getLicenseByKey in Hrun.
  unfold validateLicense, bind at 1. unfold getLicenseByKey.
  destruct (find _ (licenses s)) as [license|]; [|exact Hrun].
  unfold bind at 1 in Hrun. unfold bind at 1.
  destruct (product_mismatch license productSlug s) as [[other|e] s1] eqn:Hcheck;
    rewrite product_mismatch_reads in Hcheck; [|discriminate Hcheck].
  injection Hcheck as Hother Hs. subst s1.
  destruct other as [other|].
  - destruct productSlug as [wanted|]; [exact Hrun | discriminate Hother].
  - destruct (license_expired _ _ _); [exact Hrun|]. run_db.
    destruct (find _ (filter _ (activations s))) as [activation|]; [|exact Hrun].
    unfold token_check in Hrun.
    destruct (token_truthy token).
    + destruct token as [t|].
      * destruct (jwt_verify t JWT_SECRET (Date_now clk)) as [e|decoded].
        -- injection Hrun as E _ _ _. subst error.
           destruct Htag as [H|[H|[H|H]]]; discriminate H.
        -- destruct (negb _ || negb _)%bool.
           ++ injection Hrun as E _ _ _. subst error.
              destruct Htag as [H|[H|[H|H]]]; discriminate H.
           ++ unfold product_info in Hrun. run_db.
              destruct (License.product_id license) as [pid|]; [|discriminate Hrun].
              destruct (negb (pid =? 0)%Z); discriminate Hrun.
      * unfold product_info in Hrun. run_db.
        destruct (License.product_id license) as [pid|]; [|discriminate Hrun].
        destruct (negb (pid =? 0)%Z); discriminate Hrun.
    + unfold product_info in Hrun. run_db.
      destruct (License.product_id license) as [pid|]; [|discriminate Hrun].
      destruct (negb (pid =? 0)%Z); discriminate Hrun.
Qed.

(** C7 (amended): [validateLicense] does not tell verification failures
    apart.  Two supplied tokens whose verification fails, for whatever
    reason (expired, malformed, wrong signature), get the same outcome in
    every store.  Where the call reaches the token check (the license is
    found, passes the product check, has not expired, and the domain has an
    active row) that outcome is [invalid_token] with the message "Invalid
    or expired token"; a token that verifies but names another domain or
    key is reported there as [token_mismatch].  Where an earlier check
    fails ([invalid_key], [product_mismatch], [expired], [not_activated]),
    its failure is the outcome whatever the token. *)
Theorem validateLicense_token_failures_alike
    (clk : Clock) (licenseKey domain : string) (productSlug : option string) (s : Store)
    (t1 t2 : Token) (e1 e2 : JwtError)
    (Hsupplied1 : token_truthy (Some t1) = true)
    (Hsupplied2 : token_truthy (Some t2) = true)
    (Hfails1 : jwt_verify t1 JWT_SECRET (Date_now clk) = inl e1)
    (Hfails2 : jwt_verify t2 JWT_SECRET (Date_now clk) = inl e2) :
  validate clk licenseKey domain (Some t1) productSlug s
  = validate clk licenseKey domain (Some t2) productSlug s
  /\ (forall license activation,
        lookup s licenseKey = Some license ->
        (forall p wanted, bound_product s license = Some p ->
                          productSlug = Some wanted -> wanted <> "" ->
                          Product.slug p = wanted) ->
        expired license clk = false ->
        active_for s (License.id license) domain = Some activation ->
        validate clk licenseKey domain (Some t1) productSlug s
        = (Returned (ValidateFailed "invalid_token" "Invalid or expired token" None), s))
  /\ (forall license activation t3 decoded,
        lookup s licenseKey = Some license ->
        (forall p wanted, bound_product s license = Some p ->
                          productSlug = Some wanted -> wanted <> "" ->
                          Product.slug p = wanted) ->
        expired license clk = false ->
        active_for s (License.id license) domain = Some activation ->
        jwt_verify t3 JWT_SECRET (Date_now clk) = inr decoded ->
        claim_domain decoded <> domain \/ claim_licenseKey decoded <> licenseKey ->
        validate clk licenseKey domain (Some t3) productSlug s
        = (Returned (ValidateFailed "token_mismatch"
                       "Token does not match domain/license" None), s))
  /\ (forall token token' s' error message expiredAt,
        validate clk licenseKey domain token productSlug s
        = (Returned (ValidateFailed error message expiredAt), s') ->
        error = "invalid_key" \/ error = "product_mismatch" \/ error = "expired"
        \/ error = "not_activated" ->
        validate clk licenseKey domain token' productSlug s
        = (Returned (ValidateFailed error message expiredAt), s')).
Proof.
  pose proof (token_check_failure clk licenseKey domain t1 e1 Hsupplied1 Hfails1) as C1.
  pose proof (token_check_failure clk licenseKey domain t2 e2 Hsupplied2 Hfails2) as C2.
  split; [|split; [|split]].
  - unfold validateLicense. now rewrite C1, C2.
  - intros license activation Hfound Hslug Hlive Hact.
    now apply (validate_token_check_fails clk licenseKey domain (Some t1) productSlug s
                 license activation).
  - intros license activation t3 decoded Hfound Hslug Hlive Hact Hverifies Hother.
    apply (validate_token_check_fails clk licenseKey domain (Some t3) productSlug s
             license activation); try assumption.
    now apply (token_check_mismatch clk licenseKey domain t3 decoded).
  - intros token token' s' error message expiredAt.
    apply validate_earlier_failure.
Qed.

(** *** After a deactivation *)

Lemma retire_same_pair clk lid d lid' d' a :
  same_pair lid' d' (retire_where clk lid d a) = same_pair lid' d' a.
Proof. unfold retire_where. now destruct (matches_active lid d a). Qed.

Lemma matches_active_same_pair lid d (l : list Activation.t) :
  existsb (matches_active lid d) l = true -> existsb (same_pair lid d) l = true.
Proof.
  induction l as [|a l IH]; simpl; [discriminate|].
  unfold matches_active at 1.
  destruct (same_pair lid d a); simpl; [reflexivity|exact IH].
Qed.

Lemma existsb_map_stable {A} (test : A -> bool) (f : A -> A) (l : list A) :
  (forall a, test (f a) = test a) -> existsb test (map f l) = existsb test l.
Proof.
  intro Hf. induction l as [|a l IH]; simpl; [reflexivity|]. now rewrite Hf, IH.
Qed.

(** Once [deactivateLicense] has succeeded for a domain, the row it retired
    still occupies the (license, domain) pair: a later [activateLicense] for
    the same key and domain never returns success. *)
Lemma activate_after_deactivate_never_succeeds
    (clk2 clk3 : Clock) (licenseKey domain : string) (ip : option string)
    (siteInfo : SiteInfo) (s1 s2 s3 : Store) (message : string) (remaining : Z)
    (r3 : ActivateResult) :
  deactivateLicense clk2 licenseKey domain ip s1
  = (Returned (Deactivated message remaining), s2) ->
  activate clk3 licenseKey domain siteInfo s2 = (Returned r3, s3) ->
  activate_success r3 = false.
Proof.
  intros Hde Hact.
  destruct (lookup s1 licenseKey) as [license|] eqn:Hfound.
  2:{ rewrite (deactivate_unknown_key clk2 licenseKey domain ip s1 Hfound) in Hde.
      discriminate. }
  destruct (active_for s1 (License.id license) domain) as [existing|] eqn:Hrow.
  2:{ rewrite (deactivate_not_found clk2 licenseKey domain ip s1 license Hfound Hrow)
        in Hde. discriminate. }
  pose proof (active_for_exists s1 (License.id license) domain) as Hex.
  rewrite Hrow in Hex. apply matches_active_same_pair in Hex.
  destruct (deactivate_success clk2 licenseKey domain ip s1 license existing Hfound Hrow)
    as (s' & Hrun & Hrows & _ & Hlic).
  rewrite Hrun in Hde. inversion Hde; subst s'. clear Hde.
  assert (Hdup : existsb (same_pair (License.id license) domain) (activations s2) = true).
  { rewrite Hrows.
    rewrite existsb_map_stable by (intro a; apply retire_same_pair). exact Hex. }
  assert (Hgone : find (fun a => String.eqb (Activation.domain a) domain)
                       (filter (active_of (License.id license)) (activations s2)) = None).
  { rewrite Hrows, active_rows_after_retire. apply find_after_excluding. }
  unfold lookup in Hfound.
  unfold activateLicense in Hact. run_db.
  rewrite Hlic, Hfound in Hact.
  destruct (license_expired _ _ _); [now inversion Hact|].
  rewrite Hgone in Hact.
  destruct (negb _ && _)%bool; [now inversion Hact|].
  rewrite Hdup in Hact. discriminate.
Qed.

(** *** The cap under calls that run one after another *)

(** Each call runs to completion before the next one starts (the function
    is synchronous).  In that setting a call never takes the production
    count of its license above the cap. *)
Lemma activateLicense_respects_cap
    (clk : Clock) (licenseKey domain : string) (siteInfo : SiteInfo) (s : Store)
    (license : License.t) :
  lookup s licenseKey = Some license ->
  (Z.of_nat (production_count s (License.id license))
   <= License.max_activations license)%Z ->
  (Z.of_nat (production_count (snd (activate clk licenseKey domain siteInfo s))
               (License.id license))
   <= License.max_activations license)%Z.
Proof.
  intros Hfound Hcap. unfold lookup in Hfound.
  unfold activateLicense. run_db. rewrite Hfound.
  destruct (license_expired _ _ _); [exact Hcap|].
  destruct (find _ (filter _ (activations s))) as [existing|].
  - cbn [snd].
    pose proof (heartbeat_update_facts clk (wpVersion siteInfo) (pluginVersion siteInfo)
                  (Activation.id existing) s) as H.
    cbn zeta in H. unfold update_heartbeat_by_id in H. cbn [snd] in H.
    destruct H as (_ & _ & _ & _ & _ & H & _). now rewrite H.
  - destruct (negb _ && _)%bool eqn:Hgate; [exact Hcap|].
    destruct (existsb _ (activations s)); [exact Hcap|].
    cbn [snd]. unfold production_count, active_rows in *.
    cbn [activations set_activations].
    rewrite filter_app. cbn [filter]. unfold active_of at 2.
    cbn [Activation.license_id Activation.is_active].
    rewrite Z.eqb_refl. cbn [Z.eqb Pos.eqb andb].
    rewrite filter_app, length_app. cbn [filter].
    unfold is_production at 2. cbn [Activation.domain].
    destruct (isDevEnvironment (DStr domain)); cbn [negb andb List.length] in *.
    + lia.
    + rewrite Z.geb_leb in Hgate. apply Z.leb_gt in Hgate. lia.
Qed.

End EngineFacts.

(** ** Closed instances *)

Module Instances.

Import Sample.

Abbreviation activate := (activateLicense secret Date_parse clock).
Abbreviation validate := (validateLicense secret Date_parse clock).
Abbreviation deactivate := (deactivateLicense clock).

(** Cap 2: two production domains succeed, the third is refused, and
    development domains are accepted at any count. *)
Example limit_enforcement :
  let s0 := store_of (license_row None None 2) [] in
  let s1 := snd (activate key "a.example.com" site s0) in
  let s2 := snd (activate key "b.example.com" site s1) in
  let s3 := snd (activate key "foo.local" site s2) in
  map (fun c => match c with
                | Returned r => (activate_success r, activate_error r)
                | Thrown _ => (false, Some "thrown")
                end)
      [fst (activate key "a.example.com" site s0);
       fst (activate key "b.example.com" site s1);
       fst (activate key "c.example.com" site s2);
       fst (activate key "foo.local" site s2);
       fst (activate key "localhost" site s3)]
  = [(true, None); (true, None); (false, Some "limit_reached");
     (true, None); (true, None)].
Proof. vm_compute. reflexivity. Qed.

(** Cap 1, two production domains, the calls run one after the other in
    either order: the first succeeds and the second is refused. *)
Example one_slot_two_domains :
  let run first second :=
    let s1 := snd (activate key first site perpetual_fresh) in
    (failure_tag (fst (activate key first site perpetual_fresh)),
     failure_tag (fst (activate key second site s1)),
     production_count (snd (activate key second site s1)) 1) in
  run "a.example.com" "b.example.com" = (None, Some "limit_reached", 1%nat)
  /\ run "b.example.com" "a.example.com" = (None, Some "limit_reached", 1%nat).
Proof. split; vm_compute; reflexivity. Qed.

(** At C1 as stated: the license is at its cap and the domain is a
    production domain without an active row, yet the outcome is [expired],
    not [limit_reached], because the license has expired. *)
Lemma limit_reached_on_expired_license :
  lookup expired_full key = Some (license_row (Some "2024-01-01") None 1)
  /\ active_for expired_full 1 "shop.example.org" = None
  /\ isDevEnvironment (DStr "shop.example.org") = false
  /\ (Z.of_nat (production_count expired_full 1) >= 1)%Z
  /\ activate key "shop.example.org" site expired_full
     = (Returned (ActivateFailed "expired" "License has expired" None), expired_full)
  /\ failure_tag (fst (activate key "shop.example.org" site expired_full))
     <> Some "limit_reached".
Proof. repeat split; vm_compute; discriminate. Qed.

Lemma activateLicense_limit_reached_witness :
  lookup live_full key = Some (license_row (Some "2030-01-01") None 1)
  /\ activate key "shop.example.org" site live_full
     = (Returned (ActivateFailed "limit_reached"
                    "Maximum production activations (1) reached. Dev/staging environments are unlimited."
                    (Some [mkActivationSummary "example.com" "2023-01-02 00:00:00" false])),
        live_full).
Proof.
  split; [reflexivity|].
  apply (activateLicense_limit_reached secret Date_parse clock key "shop.example.org"
           site live_full (license_row (Some "2030-01-01") None 1)).
  - reflexivity.
  - reflexivity.
  - reflexivity.
  - reflexivity.
  - vm_compute. discriminate.
Defined.

(** At C2 as stated: an active row exists for the domain, yet the call
    fails with [expired]. *)
Lemma reactivation_on_expired_license :
  lookup expired_full key = Some (license_row (Some "2024-01-01") None 1)
  /\ active_for expired_full 1 "example.com" = Some (activation_row 1 "example.com" 1)
  /\ activate key "example.com" site expired_full
     = (Returned (ActivateFailed "expired" "License has expired" None), expired_full).
Proof. repeat split. Qed.

Lemma activateLicense_idempotent_reactivation_witness :
  lookup live_full key = Some (license_row (Some "2030-01-01") None 1)
  /\ exists s',
       activate key "example.com" site live_full
       = (Returned (AlreadyActivated "License already activated for this domain"
                      (activation_row 1 "example.com" 1)
                      (Signed (mkClaims key "example.com" "standard" (Some 1893456000%Z))
                              secret)
                      false), s')
       /\ List.length (activations s') = 1%nat
       /\ Activation.wp_version (activation_row 1 "example.com" 1) = Some "6.4"
       /\ exists updated,
            active_for s' 1 "example.com" = Some updated
            /\ Activation.last_heartbeat updated = Some "2026-11-02 00:00:00"
            /\ Activation.wp_version updated = Some "6.5"
            /\ Activation.plugin_version updated = Some "1.0.1".
Proof.
  split; [reflexivity|].
  destruct (activateLicense_idempotent_reactivation secret Date_parse clock key
              "example.com" site live_full (license_row (Some "2030-01-01") None 1)
              (activation_row 1 "example.com" 1) eq_refl eq_refl eq_refl)
    as (s' & Hrun & _ & (updated & Hrow & _ & _ & Hlast & Hwp & Hplugin) & Hlen & _).
  exists s'. split; [exact Hrun|]. split; [exact Hlen|]. split; [reflexivity|].
  exists updated. split; [exact Hrow|].
  split; [exact Hlast|]. split; [exact Hwp | exact Hplugin].
Defined.

(** C3: activate, deactivate, activate again.  The first two calls succeed
    ([remaining] goes from 0 back to 1); the third runs into the retired
    row, which still holds the (license, domain) pair, and the INSERT
    throws.  No active row for the domain exists afterwards. *)
Theorem reactivate_after_deactivate_throws :
  exists s1 s2,
    activate key "example.com" site perpetual_fresh
    = (Returned (Activated "License activated successfully"
                   (mkNewActivation 1 "example.com" "2026-11-02T00:00:00.000Z" false)
                   (Signed (mkClaims key "example.com" "standard" (Some 1825113600%Z))
                           secret)
                   0 1 0), s1)
    /\ deactivate key "example.com" None s1
       = (Returned (Deactivated "License deactivated successfully" 1), s2)
    /\ activate key "example.com" site s2
       = (Thrown (SqliteError "SQLITE_CONSTRAINT_UNIQUE"
                    "UNIQUE constraint failed: activations.license_id, activations.domain"),
          s2)
    /\ active_for s2 1 "example.com" = None
    /\ pair_count s2 1 "example.com" = 1%nat.
Proof.
  exists (snd (activate key "example.com" site perpetual_fresh)).
  exists (snd (deactivate key "example.com" None
                 (snd (activate key "example.com" site perpetual_fresh)))).
  repeat split; vm_compute; reflexivity.
Qed.

(** At C4 as stated: the license has expired, yet [validateLicense]
    answers [product_mismatch], the requested slug not being the one of the
    license's product. *)
Lemma expired_but_product_mismatch :
  lookup expired_bound key = Some (license_row (Some "2024-01-01") (Some 1%Z) 1)
  /\ Date_parse "2024-01-01" = Some 1704067200000%Z
  /\ (1704067200000 < Date_now clock)%Z
  /\ validate key "example.com" None (Some "wp-dev-system") expired_bound
     = (Returned (ValidateFailed "product_mismatch"
                    "License is for Advanced Tutor LMS Stats Dashboard, not wp-dev-system"
                    None), expired_bound).
Proof. repeat split. Qed.

Lemma expired_license_is_rejected_witness :
  lookup expired_full key = Some (license_row (Some "2024-01-01") None 1)
  /\ activate key "example.com" site expired_full
     = (Returned (ActivateFailed "expired" "License has expired" None), expired_full)
  /\ validate key "example.com" None None expired_full
     = (Returned (ValidateFailed "expired" "License has expired" (Some "2024-01-01")),
        expired_full).
Proof.
  pose proof (expired_license_is_rejected secret Date_parse clock key expired_full
                (license_row (Some "2024-01-01") None 1) "2024-01-01" 1704067200000
                eq_refl eq_refl) as H.
  destruct H as (Hact & Hval & _).
  - discriminate.
  - reflexivity.
  - reflexivity.
  - split; [reflexivity|]. split.
    + apply Hact.
    + apply Hval. intros p wanted _ Hslug. discriminate Hslug.
Defined.

Lemma deactivateLicense_outcomes_witness :
  lookup mixed key = Some (license_row None None 2)
  /\ active_for mixed 1 "example.com" = Some (activation_row 1 "example.com" 1)
  /\ exists s',
       deactivate key "example.com" None mixed
       = (Returned (Deactivated "License deactivated successfully" 1), s')
       /\ active_rows s' 1 = [activation_row 2 "site.local" 1].
Proof.
  split; [reflexivity|]. split; [reflexivity|].
  destruct (proj2 (proj2 (deactivateLicense_outcomes clock key "example.com" None mixed))
              (license_row None None 2) (activation_row 1 "example.com" 1)
              eq_refl eq_refl)
    as (s' & Hrun & _ & _ & _ & Hrows & _).
  exists s'. split.
  - rewrite Hrun, Hrows. reflexivity.
  - exact Hrows.
Defined.

(** At C6 as stated: the drawn key is taken; the call throws instead of
    drawing again, and neither a license row nor an audit entry is
    written. *)
Lemma createLicense_conflict_is_thrown :
  generateLicenseKey zero_draws = key
  /\ createLicense JSON_stringify zero_draws clock params perpetual_fresh
     = (Thrown (SqliteError "SQLITE_CONSTRAINT_UNIQUE"
                  "UNIQUE constraint failed: licenses.license_key"), perpetual_fresh)
  /\ (forall created s',
        createLicense JSON_stringify zero_draws clock params perpetual_fresh
        <> (Returned created, s')).
Proof. repeat split. intros created s'. vm_compute. discriminate. Qed.

Lemma createLicense_single_attempt_witness :
  lookup perpetual_fresh (generateLicenseKey (fun k => k)) = None
  /\ In product_row (products perpetual_fresh)
  /\ (exists s',
        createLicense JSON_stringify (fun k => k) clock params_bound perpetual_fresh
        = (Returned (mkCreatedLicense 2 "TLAT-ABCD-EFGH-JKLM-NPQR" (Some 1%Z)
                       "new@example.com" "standard" 1 None), s')
        /\ map License.metadata (licenses s') = [None; Some "{}"]
        /\ map Audit.action (audit_log s') = ["created"])
  /\ createLicense JSON_stringify (fun k => k) clock params_dangling perpetual_fresh
     = (Thrown (SqliteError "SQLITE_CONSTRAINT_FOREIGNKEY"
                  "FOREIGN KEY constraint failed"), perpetual_fresh).
Proof.
  pose proof (createLicense_single_attempt JSON_stringify (fun k => k) clock)
    as Hcreate.
  split; [reflexivity|]. split; [left; reflexivity|]. split.
  - destruct (proj1 (Hcreate params_bound perpetual_fresh) eq_refl) as
      (s' & Hrun & Hlic & Haudit & _).
    { right. exists product_row. split; [left; reflexivity | reflexivity]. }
    exists s'. split; [exact Hrun|]. split.
    + rewrite Hlic. reflexivity.
    + rewrite Haudit. reflexivity.
  - apply (proj2 (proj2 (Hcreate params_dangling perpetual_fresh)) 7%Z).
    + reflexivity.
    + reflexivity.
    + intros product [Hrow|[]]. subst product. discriminate.
Defined.

(** At C7 as stated: verification fails with [TokenExpiredError] for one
    token and with [JsonWebTokenError] for the other, and [validateLicense]
    returns the very same outcome for both. *)
Lemma expired_and_garbled_token_same_outcome :
  jwt_verify stale_token secret (Date_now clock) = inl TokenExpiredError
  /\ jwt_verify garbled_token secret (Date_now clock) = inl JsonWebTokenError
  /\ validate key "example.com" (Some stale_token) None perpetual_active
     = (Returned (ValidateFailed "invalid_token" "Invalid or expired token" None),
        perpetual_active)
  /\ validate key "example.com" (Some stale_token) None perpetual_active
     = validate key "example.com" (Some garbled_token) None perpetual_active.
Proof. repeat split. Qed.

Lemma validateLicense_token_failures_alike_witness :
  jwt_verify stale_token secret (Date_now clock) = inl TokenExpiredError
  /\ jwt_verify garbled_token secret (Date_now clock) = inl JsonWebTokenError
  /\ validate key "example.com" (Some stale_token) None perpetual_active
     = validate key "example.com" (Some garbled_token) None perpetual_active
  /\ validate key "example.com" (Some stale_token) None perpetual_active
     = (Returned (ValidateFailed "invalid_token" "Invalid or expired token" None),
        perpetual_active)
  /\ validate key "example.com" (Some foreign_token) None perpetual_active
     = (Returned (ValidateFailed "token_mismatch" "Token does not match domain/license"
                    None), perpetual_active)
  /\ validate key "example.com" (Some stale_token) None expired_full
     = (Returned (ValidateFailed "expired" "License has expired" (Some "2024-01-01")),
        expired_full).
Proof.
  pose proof (fun s =>
    validateLicense_token_failures_alike secret Date_parse clock key "example.com"
      None s stale_token garbled_token TokenExpiredError JsonWebTokenError
      eq_refl eq_refl eq_refl eq_refl) as H.
  split; [reflexivity|]. split; [reflexivity|].
  destruct (H perpetual_active) as (Hsame & Hinvalid & Hmismatch & _).
  destruct (H expired_full) as (_ & _ & _ & Hearlier).
  split; [exact Hsame|]. split; [|split].
  - apply (Hinvalid (license_row None None 1) (activation_row 1 "example.com" 1)).
    + reflexivity.
    + intros p wanted _ Hslug. discriminate Hslug.
    + reflexivity.
    + reflexivity.
  - apply (Hmismatch (license_row None None 1) (activation_row 1 "example.com" 1)
             foreign_token
             (mkClaims key "other.example.com" "standard" (Some 1893456000%Z))).
    + reflexivity.
    + intros p wanted _ Hslug. discriminate Hslug.
    + reflexivity.
    + reflexivity.
    + reflexivity.
    + left. discriminate.
  - apply (Hearlier None (Some stale_token) expired_full).
    + reflexivity.
    + right. right. left. reflexivity.
Defined.

Lemma activateLicense_failure_keeps_store_witness :
  fst (activate key "shop.example.org" site live_full)
  = Returned (ActivateFailed "limit_reached"
                (limit_message (license_row (Some "2030-01-01") None 1))
                (Some [mkActivationSummary "example.com" "2023-01-02 00:00:00" false]))
  /\ snd (activate key "shop.example.org" site live_full) = live_full.
Proof.
  split; [reflexivity|].
  apply (activateLicense_failure_keeps_store secret Date_parse clock key
           "shop.example.org" site live_full
           (snd (activate key "shop.example.org" site live_full))
           "limit_reached"
           (limit_message (license_row (Some "2030-01-01") None 1))
           (Some [mkActivationSummary "example.com" "2023-01-02 00:00:00" false])).
  reflexivity.
Defined.

End Instances.

(** * Further properties of the service *)

Ltac run_heartbeat :=
  unfold recordHeartbeat, update_heartbeat_where; run_db.

Lemma touch_active_same_but_heartbeat clk wp plugin lid d (l : list Activation.t) :
  Forall2 (fun a a' => same_but_heartbeat a a'
                       /\ (matches_active lid d a = false -> a' = a)
                       /\ (matches_active lid d a = true ->
                           Activation.last_heartbeat a' = Some (datetime_now clk)))
          l (map (touch_where_active clk wp plugin lid d) l).
Proof.
  apply Forall2_map_self. intro a. unfold touch_where_active.
  destruct (matches_active lid d a).
  - split; [apply touch_same_but_heartbeat|]. split; [discriminate | reflexivity].
  - split; [apply same_but_heartbeat_refl|]. split; [reflexivity | discriminate].
Qed.

Lemma touch_active_of clk wp plugin lid d lid' a :
  active_of lid' (touch_where_active clk wp plugin lid d a) = active_of lid' a.
Proof. unfold touch_where_active. now destruct (matches_active lid d a). Qed.

Lemma touch_active_is_production clk wp plugin lid d a :
  is_production (touch_where_active clk wp plugin lid d a) = is_production a.
Proof. unfold touch_where_active. now destruct (matches_active lid d a). Qed.

Lemma touch_active_same_pair clk wp plugin lid d lid' d' a :
  same_pair lid' d' (touch_where_active clk wp plugin lid d a) = same_pair lid' d' a.
Proof. unfold touch_where_active. now destruct (matches_active lid d a). Qed.

Section ServiceFacts.

Variable JWT_SECRET : string.
Variable Date_parse : string -> option Z.
Variable JSON_stringify : JsValue -> string.

Abbreviation activate := (activateLicense JWT_SECRET Date_parse).
Abbreviation validate := (validateLicense JWT_SECRET Date_parse).
Abbreviation heartbeat := (recordHeartbeat Date_parse).
Abbreviation expired := (license_expired Date_parse).

(** ** Heartbeats *)

Lemma heartbeat_unknown_key
    (clk : Clock) (licenseKey domain : string) (siteInfo : SiteInfo) (s : Store) :
  lookup s licenseKey = None ->
  heartbeat clk licenseKey domain siteInfo s
  = (Returned (HeartbeatFailed "invalid_key" None), s).
Proof.
  intro Hnone. unfold lookup in Hnone. run_heartbeat. now rewrite Hnone.
Qed.

Lemma heartbeat_not_activated
    (clk : Clock) (licenseKey domain : string) (siteInfo : SiteInfo) (s : Store)
    (license : License.t) :
  lookup s licenseKey = Some license ->
  active_for s (License.id license) domain = None ->
  heartbeat clk licenseKey domain siteInfo s
  = (Returned (HeartbeatFailed "not_activated"
                 (Some "No active activation for this domain")), s).
Proof.
  intros Hfound Hnone.
  pose proof (active_for_exists s (License.id license) domain) as Hex.
  rewrite Hnone in Hex. unfold lookup in Hfound. run_heartbeat.
  rewrite Hfound, (filter_none_length _ _ Hex). cbn [Z.of_nat Z.eqb].
  unfold set_activations, touch_where_active. rewrite (map_unless _ _ _ Hex).
  now rewrite store_eta.
Qed.

(** X1: [recordHeartbeat] fails with [invalid_key] (no message) when no
    license has the key, and with [not_activated] when the license has no
    currently-active row for the domain; in both cases the store is left as
    it was. *)
Theorem recordHeartbeat_failures
    (clk : Clock) (licenseKey domain : string) (siteInfo : SiteInfo) (s : Store) :
  (lookup s licenseKey = None ->
   heartbeat clk licenseKey domain siteInfo s
   = (Returned (HeartbeatFailed "invalid_key" None), s))
  /\ (forall license,
        lookup s licenseKey = Some license ->
        active_for s (License.id license) domain = None ->
        heartbeat clk licenseKey domain siteInfo s
        = (Returned (HeartbeatFailed "not_activated"
                       (Some "No active activation for this domain")), s)).
Proof.
  split.
  - apply heartbeat_unknown_key.
  - intro license. apply heartbeat_not_activated.
Qed.

Lemma heartbeat_recorded
    (clk : Clock) (licenseKey domain : string) (siteInfo : SiteInfo) (s : Store)
    (license : License.t) (existing : Activation.t)
    (Hfound : lookup s licenseKey = Some license)
    (Hexisting : active_for s (License.id license) domain = Some existing) :
  exists s',
    heartbeat clk licenseKey domain siteInfo s
    = (Returned (HeartbeatRecorded (negb (expired license clk))
                   (License.expires_at license) (License.plan license)), s')
    /\ Forall2 (fun a a' =>
                  same_but_heartbeat a a'
                  /\ (matches_active (License.id license) domain a = false -> a' = a)
                  /\ (matches_active (License.id license) domain a = true ->
                      Activation.last_heartbeat a' = Some (datetime_now clk)))
               (activations s) (activations s')
    /\ audit_log s' = audit_log s
    /\ licenses s' = licenses s
    /\ (forall lid, production_count s' lid = production_count s lid)
    /\ (forall lid, List.length (active_rows s' lid) = List.length (active_rows s lid)).
Proof.
  pose proof (active_for_exists s (License.id license) domain) as Hex.
  rewrite Hexisting in Hex. apply filter_some_length in Hex.
  unfold lookup in Hfound. run_heartbeat. rewrite Hfound.
  destruct (Z.eqb_spec (Z.of_nat (List.length
              (filter (matches_active (License.id license) domain) (activations s)))) 0)
    as [E|E]; [lia|].
  eexists. split; [reflexivity|].
  unfold production_count, active_rows. cbn [activations set_activations audit_log licenses].
  split; [apply touch_active_same_but_heartbeat|].
  split; [reflexivity|]. split; [reflexivity|].
  split; intro lid.
  - rewrite filter_map_stable by (intro a; apply touch_active_of).
    rewrite filter_map_stable by (intro a; apply touch_active_is_production).
    apply length_map.
  - rewrite filter_map_stable by (intro a; apply touch_active_of).
    apply length_map.
Qed.

(** X2: when the license has a currently-active row for the domain,
    [recordHeartbeat] succeeds whether or not the license has expired and
    reports [valid] as "not expired".  It stamps [last_heartbeat] on the
    active rows of that license and domain, changes no other column but the
    two version columns there, leaves every other row alone, writes no
    audit entry, and leaves the production count of every license as it
    was. *)
Theorem recordHeartbeat_success
    (clk : Clock) (licenseKey domain : string) (siteInfo : SiteInfo) (s : Store)
    (license : License.t) (existing : Activation.t)
    (Hfound : lookup s licenseKey = Some license)
    (Hexisting : active_for s (License.id license) domain = Some existing) :
  exists s',
    heartbeat clk licenseKey domain siteInfo s
    = (Returned (HeartbeatRecorded (negb (expired license clk))
                   (License.expires_at license) (License.plan license)), s')
    /\ Forall2 (fun a a' =>
                  same_but_heartbeat a a'
                  /\ (matches_active (License.id license) domain a = false -> a' = a)
                  /\ (matches_active (License.id license) domain a = true ->
                      Activation.last_heartbeat a' = Some (datetime_now clk)))
               (activations s) (activations s')
    /\ audit_log s' = audit_log s
    /\ licenses s' = licenses s
    /\ (forall lid, production_count s' lid = production_count s lid)
    /\ (forall lid, List.length (active_rows s' lid) = List.length (active_rows s lid)).
Proof.
  exact (heartbeat_recorded clk licenseKey domain siteInfo s license existing
           Hfound Hexisting).
Qed.

(** ** Validation *)

Lemma product_info_reads (license : License.t) (s : Store) :
  product_info license s
  = (Returned (option_map (fun p => mkProductInfo (Product.slug p) (Product.name p)
                                      (Product.current_version p))
                          (bound_product s license)), s).
Proof.
  unfold product_info, bound_product. run_db.
  destruct (License.product_id license) as [pid|]; [|reflexivity].
  now destruct (pid =? 0)%Z.
Qed.

(** What [validateLicense] answers once the license is found, the product
    check has passed, the license has not expired and an active row exists:
    the verdict of the token check, or the summary. *)
Lemma validate_reaches_token_check
    (clk : Clock) (licenseKey domain : string) (token : option Token) (s : Store)
    (license : License.t) (activation : Activation.t) :
  lookup s licenseKey = Some license ->
  expired license clk = false ->
  active_for s (License.id license) domain = Some activation ->
  validate clk licenseKey domain token None s
  = (Returned
       match token_check JWT_SECRET clk licenseKey domain token with
       | Some failure => failure
       | None =>
         Valid (mkLicenseSummary (License.plan license) (License.email license)
                  (License.expires_at license) (License.max_activations license)
                  (Z.of_nat (List.length (active_rows s (License.id license)))))
               (option_map (fun p => mkProductInfo (Product.slug p) (Product.name p)
                                       (Product.current_version p))
                           (bound_product s license))
               (Activation.domain activation) (Activation.activated_at activation)
       end, s).
Proof.
  unfold lookup, active_for, active_rows. intros Hfound Hlive Hact.
  unfold validateLicense, product_mismatch. run_db.
  rewrite Hfound, Hlive, Hact.
  destruct (token_check _ _ _ _ _); [reflexivity|].
  now rewrite product_info_reads.
Qed.

Lemma validateLicense_store
    (clk : Clock) (licenseKey domain : string) (token : option Token)
    (productSlug : option string) (s : Store) :
  exists result, validate clk licenseKey domain token productSlug s = (Returned result, s).
Proof.
  unfold validateLicense, bind at 1. unfold getLicenseByKey.
  destruct (find _ (licenses s)) as [license|]; [|eexists; reflexivity].
  unfold bind at 1. rewrite product_mismatch_reads.
  set (other := match productSlug with Some _ => _ | None => None end).
  destruct other as [product|], productSlug as [wanted|];
    try (eexists; reflexivity);
    (destruct (license_expired Date_parse license clk); [eexists; reflexivity|]);
    unfold bind at 1; unfold getActiveActivations;
    (destruct (find _ (filter _ (activations s))); [|eexists; reflexivity]);
    (destruct (token_check _ _ _ _ _); [eexists; reflexivity|]);
    unfold bind, ret; rewrite product_info_reads; eexists; reflexivity.
Qed.

(** X3: [validateLicense] only reads.  Whatever the key, domain, token and
    product slug, it returns a result (it never throws) and the store after
    the call is the store before it. *)
Theorem validateLicense_reads_only
    (clk : Clock) (licenseKey domain : string) (token : option Token)
    (productSlug : option string) (s : Store) :
  exists result, validate clk licenseKey domain token productSlug s = (Returned result, s).
Proof.
  exact (validateLicense_store clk licenseKey domain token productSlug s).
Qed.

(** ** Activation followed by validation *)

Lemma lookup_key (s : Store) (licenseKey : string) (license : License.t) :
  lookup s licenseKey = Some license -> License.license_key license = licenseKey.
Proof.
  unfold lookup. intro H. apply find_some in H as [_ H]. now apply String.eqb_eq.
Qed.

Lemma find_app_new {A} (test : A -> bool) (l : list A) (a : A) :
  test a = true -> exists b, find test (l ++ [a]) = Some b.
Proof.
  intro Ha. induction l as [|x l IH]; simpl.
  - rewrite Ha. now exists a.
  - destruct (test x); [now exists x | exact IH].
Qed.

(** What a successful activation leaves behind. *)
Lemma activate_success_facts
    (clk : Clock) (licenseKey domain : string) (siteInfo : SiteInfo) (s s1 : Store)
    (r : ActivateResult) :
  activate clk licenseKey domain siteInfo s = (Returned r, s1) ->
  activate_success r = true ->
  exists license,
    lookup s licenseKey = Some license
    /\ expired license clk = false
    /\ licenses s1 = licenses s
    /\ products s1 = products s
    /\ (exists a, active_for s1 (License.id license) domain = Some a)
    /\ issued_token r = Some (generateToken JWT_SECRET Date_parse clk license domain).
Proof.
  intros Hrun Hok. unfold lookup, active_for, active_rows.
  unfold activateLicense in Hrun. run_db.
  destruct (find _ (licenses s)) as [license|]; [|inversion Hrun; subst; discriminate].
  exists license. split; [reflexivity|].
  destruct (license_expired _ _ _); [inversion Hrun; subst; discriminate|].
  split; [reflexivity|].
  destruct (find _ (filter _ (activations s))) as [existing|] eqn:Hrow.
  - inversion Hrun; subst. cbn [licenses products activations set_activations issued_token].
    repeat split.
    rewrite filter_map_stable by (intro a; apply bump_active_of).
    rewrite find_map_stable by (intro a; apply bump_domain_eqb).
    rewrite Hrow. eexists; reflexivity.
  - destruct (negb _ && _)%bool; [inversion Hrun; subst; discriminate|].
    destruct (existsb _ (activations s)); [discriminate|].
    inversion Hrun; subst. cbn [licenses products activations set_activations issued_token].
    repeat split.
    rewrite filter_app. cbn [filter]. unfold active_of at 2.
    cbn [Activation.license_id Activation.is_active].
    rewrite Z.eqb_refl. cbn [Z.eqb Pos.eqb andb].
    apply find_app_new. cbn [Activation.domain]. apply String.eqb_refl.
Qed.

(** The [exp] of an issued token is no number exactly when the license's
    [expires_at] is a non-empty text that does not parse as a date; such a
    license never counts as expired. *)
Lemma generateToken_exp_invalid (clk : Clock) (license : License.t) (domain : string) :
  token_exp (generateToken JWT_SECRET Date_parse clk license domain) = None ->
  (exists text, License.expires_at license = Some text /\ text <> ""
                /\ Date_parse text = None)
  /\ forall clk2, expired license clk2 = false.
Proof.
  unfold generateToken, license_expired. cbn [token_exp claim_exp].
  destruct (License.expires_at license) as [text|]; [|discriminate].
  unfold truthy. destruct (String.eqb_spec text "") as [E|E]; cbn [negb andb];
    [discriminate|].
  destruct (Date_parse text) as [t|] eqn:Hparse; [discriminate|].
  intros _. split; [|reflexivity].
  exists text. now repeat split.
Qed.

(** X4: the token a successful [activateLicense] returns carries as [exp]
    a number of seconds, unless the license's [expires_at] is a text that
    does not parse as a date: then [exp] is no number.  With a number as
    [exp], [validateLicense] accepts the token for the same key and domain
    at any later clock reading at which the license has not expired and the
    [exp] second has not been reached.  With an [expires_at] that does not
    parse, the token just issued is refused with [invalid_token] at every
    clock reading. *)
Theorem issued_token_validates
    (clk clk2 : Clock) (licenseKey domain : string) (siteInfo : SiteInfo)
    (s s1 : Store) (r : ActivateResult) (token : Token) (license : License.t)
    (Hrun : activate clk licenseKey domain siteInfo s = (Returned r, s1))
    (Hissued : issued_token r = Some token)
    (Hfound : lookup s licenseKey = Some license) :
  (forall e,
     token_exp token = Some e ->
     expired license clk2 = false ->
     (Date_now clk2 / 1000 < e)%Z ->
     exists summary product activatedAt,
       validate clk2 licenseKey domain (Some token) None s1
       = (Returned (Valid summary product domain activatedAt), s1))
  /\ (token_exp token = None ->
      (exists text, License.expires_at license = Some text /\ text <> ""
                    /\ Date_parse text = None)
      /\ validate clk2 licenseKey domain (Some token) None s1
         = (Returned (ValidateFailed "invalid_token" "Invalid or expired token" None),
            s1))
  /\ ((forall text, License.expires_at license = Some text -> text <> "" ->
                    Date_parse text <> None) ->
      exists e, token_exp token = Some e).
Proof.
  assert (Hok : activate_success r = true) by (destruct r; [discriminate | reflexivity..]).
  destruct (activate_success_facts clk licenseKey domain siteInfo s s1 r Hrun Hok)
    as (license' & Hfound' & _ & Hlic & _ & (a & Hrow) & Htok).
  rewrite Hfound in Hfound'. inversion Hfound'; subst license'. clear Hfound'.
  rewrite Hissued in Htok. inversion Htok; subst token. clear Htok.
  assert (Hfound1 : lookup s1 licenseKey = Some license)
    by (unfold lookup; rewrite Hlic; exact Hfound).
  assert (Hdom : Activation.domain a = domain).
  { unfold active_for in Hrow. apply find_some in Hrow as [_ H].
    now apply String.eqb_eq. }
  split; [|split].
  - intros e Hexp Hlive Hfresh.
    rewrite (validate_reaches_token_check clk2 licenseKey domain _ s1 license a
               Hfound1 Hlive Hrow).
    unfold token_check, token_truthy, generateToken, jwt_verify.
    rewrite String.eqb_refl. cbn [negb claim_exp token_exp generateToken] in *.
    unfold generateToken in Hexp. cbn [token_exp claim_exp] in Hexp. rewrite Hexp.
    assert (Hlt : (Date_now clk2 / 1000 >=? e)%Z = false)
      by (rewrite Z.geb_leb; apply Z.leb_gt; exact Hfresh).
    rewrite Hlt. cbn [claim_domain claim_licenseKey].
    rewrite (lookup_key s licenseKey license Hfound), !String.eqb_refl. cbn [negb orb].
    rewrite Hdom. do 3 eexists. reflexivity.
  - intro Hexp.
    destruct (generateToken_exp_invalid clk license domain Hexp) as (Htext & Hlive).
    split; [exact Htext|].
    rewrite (validate_reaches_token_check clk2 licenseKey domain _ s1 license a
               Hfound1 (Hlive clk2) Hrow).
    unfold token_check, token_truthy, generateToken, jwt_verify.
    rewrite String.eqb_refl. cbn [negb claim_exp].
    unfold generateToken in Hexp. cbn [token_exp claim_exp] in Hexp. now rewrite Hexp.
  - intro Hparses.
    destruct (token_exp (generateToken JWT_SECRET Date_parse clk license domain))
      as [e|] eqn:Hexp; [now exists e|].
    destruct (generateToken_exp_invalid clk license domain Hexp)
      as ((text & Hset & Hne & Hnone) & _).
    now elim (Hparses text Hset Hne).
Qed.

(** X5: a token is bound to its domain.  A token issued for one domain of a
    license and presented with another domain of the same license, itself
    active, is refused with [token_mismatch], although the token verifies. *)
Theorem token_is_bound_to_domain
    (clk0 clk : Clock) (licenseKey issuedFor domain : string) (s : Store)
    (license : License.t) (activation : Activation.t) (e : Z)
    (Hfound : lookup s licenseKey = Some license)
    (Hlive : expired license clk = false)
    (Hactive : active_for s (License.id license) domain = Some activation)
    (Hother : issuedFor <> domain)
    (Hexp : token_exp (generateToken JWT_SECRET Date_parse clk0 license issuedFor) = Some e)
    (Hfresh : (Date_now clk / 1000 < e)%Z) :
  validate clk licenseKey domain
    (Some (generateToken JWT_SECRET Date_parse clk0 license issuedFor)) None s
  = (Returned (ValidateFailed "token_mismatch" "Token does not match domain/license" None),
     s).
Proof.
  rewrite (validate_reaches_token_check clk licenseKey domain _ s license activation
             Hfound Hlive Hactive).
  unfold token_check, token_truthy, generateToken, jwt_verify.
  rewrite String.eqb_refl. cbn [negb claim_exp].
  unfold generateToken in Hexp. cbn [token_exp claim_exp] in Hexp. rewrite Hexp.
  assert (Hlt : (Date_now clk / 1000 >=? e)%Z = false)
    by (rewrite Z.geb_leb; apply Z.leb_gt; exact Hfresh).
  rewrite Hlt. cbn [claim_domain claim_licenseKey].
  apply String.eqb_neq in Hother. now rewrite Hother.
Qed.

(** ** Deactivation followed by validation or a heartbeat *)

(** X6: once [deactivateLicense] has succeeded for a key and domain, the
    domain is no longer served: [validateLicense] for that key and domain is
    not valid, whatever token, product slug and clock, and [recordHeartbeat]
    answers [not_activated] and writes nothing. *)
Theorem deactivated_domain_is_not_served
    (clk clk2 : Clock) (licenseKey domain : string) (ip : option string)
    (s s2 : Store) (message : string) (remaining : Z)
    (Hde : deactivateLicense clk licenseKey domain ip s
           = (Returned (Deactivated message remaining), s2)) :
  (forall token productSlug result s3,
     validate clk2 licenseKey domain token productSlug s2 = (Returned result, s3) ->
     validate_valid result = false)
  /\ (forall siteInfo,
        heartbeat clk2 licenseKey domain siteInfo s2
        = (Returned (HeartbeatFailed "not_activated"
                       (Some "No active activation for this domain")), s2)).
Proof.
  destruct (lookup s licenseKey) as [license|] eqn:Hfound.
  2:{ rewrite (deactivate_unknown_key clk licenseKey domain ip s Hfound) in Hde.
      discriminate. }
  destruct (active_for s (License.id license) domain) as [existing|] eqn:Hrow.
  2:{ rewrite (deactivate_not_found clk licenseKey domain ip s license Hfound Hrow)
        in Hde. discriminate. }
  destruct (deactivate_success clk licenseKey domain ip s license existing Hfound Hrow)
    as (s' & Hrun & Hrows & _ & Hlic).
  rewrite Hrun in Hde. inversion Hde; subst s'. clear Hde.
  assert (Hfound2 : lookup s2 licenseKey = Some license)
    by (unfold lookup; rewrite Hlic; exact Hfound).
  assert (Hgone : active_for s2 (License.id license) domain = None).
  { unfold active_for, active_rows. rewrite Hrows, active_rows_after_retire.
    apply find_after_excluding. }
  split.
  - intros token productSlug result s3 Hval.
    unfold lookup in Hfound2. unfold active_for, active_rows in Hgone.
    unfold validateLicense, bind at 1 in Hval. unfold getLicenseByKey in Hval.
    rewrite Hfound2 in Hval. unfold bind at 1 in Hval.
    rewrite product_mismatch_reads in Hval.
    set (other := match productSlug with Some _ => _ | None => None end) in Hval.
    destruct other as [product|], productSlug as [wanted|];
      try (inversion Hval; reflexivity);
      (destruct (license_expired Date_parse license clk2); [inversion Hval; reflexivity|]);
      unfold bind at 1 in Hval; unfold getActiveActivations in Hval;
      rewrite Hgone in Hval; inversion Hval; reflexivity.
  - intro siteInfo.
    apply (heartbeat_not_activated clk2 licenseKey domain siteInfo s2 license
             Hfound2 Hgone).
Qed.

(** ** Creation followed by a lookup *)

Lemma find_app_fresh {A} (test : A -> bool) (l : list A) (a : A) :
  existsb test l = false -> test a = true -> find test (l ++ [a]) = Some a.
Proof.
  intros Hl Ha. induction l as [|x l IH]; simpl in *.
  - now rewrite Ha.
  - apply orb_false_iff in Hl as [Hx Hl]. rewrite Hx. now apply IH.
Qed.

Lemma find_app_miss {A} (test : A -> bool) (l : list A) (a : A) :
  test a = false -> find test (l ++ [a]) = find test l.
Proof.
  intro Ha. induction l as [|x l IH]; simpl.
  - now rewrite Ha.
  - now destruct (test x).
Qed.

(** X7: a license that [createLicense] has returned can be looked up by its
    key straight away: the row found carries the returned id and the
    parameters given, its metadata column holding the JSON text of a truthy
    [metadata] and NULL otherwise; the key was not in use before, the
    [productId] given is null or the id of an existing product, and the
    lookup of every other key is as it was. *)
Theorem created_license_is_found
    (rnd : nat -> nat) (clk : Clock) (p : CreateParams) (s s' : Store)
    (created : CreatedLicense)
    (Hrun : createLicense JSON_stringify rnd clk p s = (Returned created, s')) :
  created_licenseKey created = generateLicenseKey rnd
  /\ lookup s (created_licenseKey created) = None
  /\ lookup s' (created_licenseKey created)
     = Some (License.mk (created_id created) (created_licenseKey created)
               (productId p) (email p) (plan p) (maxActivations p) (expiresAt p)
               (datetime_now clk) (datetime_now clk)
               (if js_truthy (metadata p) then Some (JSON_stringify (metadata p))
                else None))
  /\ (forall pid, productId p = Some pid ->
                  exists product, In product (products s) /\ Product.id product = pid)
  /\ (forall other, other <> created_licenseKey created ->
                    lookup s' other = lookup s other)
  /\ activations s' = activations s.
Proof.
  pose proof (lookup_exists s (generateLicenseKey rnd)) as Hex.
  unfold createLicense in Hrun. run_db.
  destruct (existsb _ (licenses s)) eqn:Htaken; [discriminate|].
  destruct (references_product s (productId p)) eqn:Hproduct; [|discriminate].
  cbn [negb] in Hrun.
  inversion Hrun; subst. clear Hrun.
  cbn [created_licenseKey created_id licenses activations].
  split; [reflexivity|].
  split; [destruct (lookup s (generateLicenseKey rnd)); [discriminate | reflexivity]|].
  unfold lookup. cbn [licenses].
  split; [|split; [|split; [|reflexivity]]].
  - apply find_app_fresh; [exact Htaken|].
    cbn [License.license_key]. apply String.eqb_refl.
  - intros pid Hpid. rewrite Hpid in Hproduct. cbn [references_product] in Hproduct.
    apply existsb_exists in Hproduct as (product & Hin & Hid).
    exists product. split; [exact Hin | now apply Z.eqb_eq].
  - intros other Hother. apply find_app_miss.
    cbn [License.license_key]. apply String.eqb_neq. congruence.
Qed.

(** ** What a new activation reports *)

Lemma filter_complement_length {A} (test : A -> bool) (l : list A) :
  (List.length (filter test l) + List.length (filter (fun a => negb (test a)) l)
   = List.length l)%nat.
Proof.
  induction l as [|a l IH]; simpl; [reflexivity|].
  destruct (test a); simpl; lia.
Qed.

Lemma active_filter_snoc (l : list Activation.t) (lid : Z) (row : Activation.t) :
  Activation.license_id row = lid ->
  Activation.is_active row = 1%Z ->
  filter (active_of lid) (l ++ [row]) = (filter (active_of lid) l ++ [row])%list.
Proof.
  intros Hl Ha. rewrite filter_app. cbn [filter]. unfold active_of at 2.
  now rewrite Hl, Ha, Z.eqb_refl.
Qed.

(** X8: the numbers a new activation reports describe the store it leaves:
    [productionActivations] is the production count of the license after
    the call, [devActivations] the number of its other active rows,
    [remaining] the cap minus the production count, never negative for a
    production domain.  The new row is the last active row of the license,
    under the reported id, and exactly one audit entry, [activated] for the
    domain, has been appended. *)
Theorem new_activation_accounting
    (clk : Clock) (licenseKey domain : string) (siteInfo : SiteInfo) (s s' : Store)
    (license : License.t) (message : string) (activation : NewActivation)
    (token : Token) (remaining productionActivations devActivations : Z)
    (Hfound : lookup s licenseKey = Some license)
    (Hrun : activate clk licenseKey domain siteInfo s
            = (Returned (Activated message activation token remaining
                           productionActivations devActivations), s')) :
  productionActivations = Z.of_nat (production_count s' (License.id license))
  /\ (productionActivations + devActivations
      = Z.of_nat (List.length (active_rows s' (License.id license))))%Z
  /\ remaining = (License.max_activations license - productionActivations)%Z
  /\ (new_isDevEnvironment activation = false -> (0 <= remaining)%Z)
  /\ new_isDevEnvironment activation = isDevEnvironment (DStr domain)
  /\ active_rows s' (License.id license)
     = (active_rows s (License.id license)
        ++ [Activation.mk (new_id activation) (License.id license) domain
              (siteUrl siteInfo) (wpVersion siteInfo) (pluginVersion siteInfo)
              (datetime_now clk) (Some (datetime_now clk)) 1 None])%list
  /\ audit_log s'
     = (audit_log s ++ [Audit.mk (seq_audit_log s + 1) (Some (License.id license))
                          "activated" (Some domain) (ipAddress siteInfo)
                          (Some (DetailsSiteInfo siteInfo)) (datetime_now clk)])%list.
Proof.
  unfold lookup in Hfound. unfold activateLicense in Hrun. run_db.
  rewrite Hfound in Hrun.
  remember (isDevEnvironment (DStr domain)) as dev eqn:Hdev.
  destruct (license_expired _ _ _); [discriminate|].
  destruct (find _ (filter _ (activations s))); [discriminate|].
  destruct (negb _ && _)%bool eqn:Hgate; [discriminate|].
  destruct (existsb _ (activations s)); [discriminate|].
  injection Hrun as Hm Ha Ht Hr Hp Hd Hs. subst s' activation.
  cbn [new_isDevEnvironment new_id audit_log].
  unfold production_count, active_rows. cbn [activations set_activations].
  rewrite active_filter_snoc by reflexivity.
  rewrite filter_app, !length_app. cbn [filter]. unfold is_production at 2.
  cbn [Activation.domain]. rewrite <- Hdev.
  pose proof (filter_complement_length is_development
                (filter (active_of (License.id license)) (activations s))) as Hsplit.
  change (fun a => negb (is_development a)) with is_production in Hsplit.
  destruct dev; cbn [negb andb List.length] in *.
  - repeat split; lia || discriminate.
  - rewrite Z.geb_leb in Hgate. apply Z.leb_gt in Hgate.
    repeat split; lia.
Qed.

(** ** When activation throws *)

Lemma pair_count_positive (s : Store) (lid : Z) (d : string) :
  existsb (same_pair lid d) (activations s) = true -> (1 <= pair_count s lid d)%nat.
Proof. intro H. apply filter_some_length in H. unfold pair_count. lia. Qed.

Lemma pair_count_zero (s : Store) (lid : Z) (d : string) :
  pair_count s lid d = 0%nat -> existsb (same_pair lid d) (activations s) = false.
Proof.
  unfold pair_count. intro H.
  destruct (existsb _ _) eqn:E; [|reflexivity].
  apply filter_some_length in E. lia.
Qed.

(** X9: called with strings for the key and the domain (on a string the
    classifier returns; on a truthy value of another type it throws a
    TypeError instead), [activateLicense] throws in one situation only: the license is found
    and has not expired, the domain has no active row, the limit check has
    passed, and a row that is not active still holds the (license, domain)
    pair.  The error is the uniqueness violation of the INSERT, not a
    TypeError, and the store is left as it was (no audit entry). *)
Theorem activateLicense_throws_only_on_retired_row
    (clk : Clock) (licenseKey domain : string) (siteInfo : SiteInfo) (s s' : Store)
    (err : Exn)
    (Hrun : activate clk licenseKey domain siteInfo s = (Thrown err, s')) :
  s' = s
  /\ isDevEnvironment_value (VString domain) = Returned (isDevEnvironment (DStr domain))
  /\ (forall message, err <> TypeError message)
  /\ err = SqliteError "SQLITE_CONSTRAINT_UNIQUE"
             "UNIQUE constraint failed: activations.license_id, activations.domain"
  /\ exists license,
       lookup s licenseKey = Some license
       /\ expired license clk = false
       /\ active_for s (License.id license) domain = None
       /\ (1 <= pair_count s (License.id license) domain)%nat
       /\ (isDevEnvironment (DStr domain) = true
           \/ (Z.of_nat (production_count s (License.id license))
               < License.max_activations license)%Z).
Proof.
  unfold lookup, active_for, production_count, active_rows.
  unfold activateLicense in Hrun. run_db.
  destruct (find _ (licenses s)) as [license|]; [|discriminate].
  destruct (license_expired _ _ _) eqn:Hlive; [discriminate|].
  destruct (find _ (filter _ (activations s))) eqn:Hrow; [discriminate|].
  destruct (negb _ && _)%bool eqn:Hgate; [discriminate|].
  destruct (existsb _ (activations s)) eqn:Hdup; [|discriminate].
  inversion Hrun; subst. split; [reflexivity|].
  split; [apply isDevEnvironment_value_string|].
  split; [discriminate|]. split; [reflexivity|].
  exists license. repeat split; try assumption.
  - now apply pair_count_positive.
  - destruct (isDevEnvironment (DStr domain)); [now left | right].
    cbn [negb andb] in Hgate. rewrite Z.geb_leb in Hgate. now apply Z.leb_gt in Hgate.
Qed.

(** ** Development domains *)

Lemma no_row_no_active_row (s : Store) (lid : Z) (d : string) :
  existsb (same_pair lid d) (activations s) = false -> active_for s lid d = None.
Proof.
  intro H. pose proof (active_for_exists s lid d) as Hex.
  destruct (active_for s lid d); [|reflexivity].
  apply matches_active_same_pair in Hex. congruence.
Qed.

(** X10: a development domain is always let in.  For a license that has not
    expired and a development domain for which the store holds no row, the
    activation succeeds whatever the cap and however many activations exist;
    the production count stays as it was and [remaining] is reported
    unchanged, cap minus production count. *)
Theorem development_domain_is_admitted
    (clk : Clock) (licenseKey domain : string) (siteInfo : SiteInfo) (s : Store)
    (license : License.t)
    (Hfound : lookup s licenseKey = Some license)
    (Hlive : expired license clk = false)
    (Hdev : isDevEnvironment (DStr domain) = true)
    (Hnorow : pair_count s (License.id license) domain = 0%nat) :
  exists s' count,
    activate clk licenseKey domain siteInfo s
    = (Returned (Activated
                   "License activated for development environment (doesn't count toward limit)"
                   (mkNewActivation (seq_activations s + 1) domain
                      (toISOString_now clk) true)
                   (generateToken JWT_SECRET Date_parse clk license domain)
                   (License.max_activations license
                    - Z.of_nat (production_count s (License.id license)))
                   (Z.of_nat (production_count s (License.id license)))
                   count), s')
    /\ production_count s' (License.id license) = production_count s (License.id license).
Proof.
  apply pair_count_zero in Hnorow.
  pose proof (no_row_no_active_row s _ _ Hnorow) as Hnone.
  unfold lookup in Hfound. unfold active_for, active_rows in Hnone.
  unfold activateLicense. run_db.
  rewrite Hfound, Hlive, Hnone, Hdev. cbn [negb andb]. rewrite Hnorow.
  do 2 eexists. split; [reflexivity|].
  unfold production_count, active_rows. cbn [activations set_activations].
  rewrite active_filter_snoc by reflexivity.
  rewrite filter_app, length_app. cbn [filter]. unfold is_production at 2.
  cbn [Activation.domain]. rewrite Hdev. cbn [negb List.length]. lia.
Qed.

End ServiceFacts.

(** ** Key generator *)

Lemma charAt_symbol (n : nat) :
  (n < 32)%nat -> charAt chars n = String (symbol n) EmptyString.
Proof.
  intro H.
  do 32 (destruct n as [|n]; [reflexivity|]). exfalso; lia.
Qed.

Lemma symbol_position (n : nat) :
  (n < 32)%nat -> String.index 0 (String (symbol n) EmptyString) chars = Some n.
Proof.
  intro H.
  do 32 (destruct n as [|n]; [reflexivity|]). exfalso; lia.
Qed.

Lemma symbol_unambiguous (n : nat) :
  (n < 32)%nat ->
  symbol n <> "0"%char /\ symbol n <> "O"%char
  /\ symbol n <> "1"%char /\ symbol n <> "I"%char.
Proof.
  intro H.
  do 32 (destruct n as [|n]; [repeat split; discriminate|]). exfalso; lia.
Qed.

Lemma symbol_injective (i j : nat) :
  (i < 32)%nat -> (j < 32)%nat -> symbol i = symbol j -> i = j.
Proof.
  intros Hi Hj E.
  pose proof (symbol_position i Hi) as Pi.
  pose proof (symbol_position j Hj) as Pj.
  rewrite E in Pi. congruence.
Qed.

Lemma generateLicenseKey_chars (rnd : nat -> nat) :
  (forall k, (k < 16)%nat -> (rnd k < 32)%nat) ->
  list_ascii_of_string (generateLicenseKey rnd)
  = (["T"; "L"; "A"; "T"; "-"]%char
     ++ map (fun k => symbol (rnd k)) [0; 1; 2; 3]%nat ++ ["-"%char]
     ++ map (fun k => symbol (rnd k)) [4; 5; 6; 7]%nat ++ ["-"%char]
     ++ map (fun k => symbol (rnd k)) [8; 9; 10; 11]%nat ++ ["-"%char]
     ++ map (fun k => symbol (rnd k)) [12; 13; 14; 15]%nat)%list.
Proof.
  intro Hrange. unfold generateLicenseKey.
  cbn [fold_left seq map String.concat Nat.mul Nat.add].
  rewrite !charAt_symbol by (apply Hrange; lia).
  reflexivity.
Qed.

(** X11: with every draw inside the alphabet (as [Math.floor(Math.random()
    * 32)] is), a generated key is the text TLAT followed by four groups of
    four alphabet characters, each group led by a dash: 24 characters in
    all, none of them one of the look-alikes 0, O, 1, I. *)
Theorem generateLicenseKey_format (rnd : nat -> nat)
    (Hrange : forall k, (k < 16)%nat -> (rnd k < 32)%nat) :
  list_ascii_of_string (generateLicenseKey rnd)
  = (["T"; "L"; "A"; "T"; "-"]%char
     ++ map (fun k => symbol (rnd k)) [0; 1; 2; 3]%nat ++ ["-"%char]
     ++ map (fun k => symbol (rnd k)) [4; 5; 6; 7]%nat ++ ["-"%char]
     ++ map (fun k => symbol (rnd k)) [8; 9; 10; 11]%nat ++ ["-"%char]
     ++ map (fun k => symbol (rnd k)) [12; 13; 14; 15]%nat)%list
  /\ String.length (generateLicenseKey rnd) = 24%nat
  /\ (forall k, (k < 16)%nat ->
        In (symbol (rnd k)) (list_ascii_of_string chars))
  /\ (forall c, In c (list_ascii_of_string (generateLicenseKey rnd)) ->
        c <> "0"%char /\ c <> "O"%char /\ c <> "1"%char /\ c <> "I"%char).
Proof.
  pose proof (generateLicenseKey_chars rnd Hrange) as Hchars.
  split; [exact Hchars|]. split; [|split].
  - rewrite <- (string_of_list_ascii_of_string (generateLicenseKey rnd)), Hchars.
    reflexivity.
  - intros k Hk. specialize (Hrange k Hk). remember (rnd k) as n. clear Heqn.
    do 32 (destruct n as [|n]; [cbn; tauto|]). exfalso; lia.
  - intros c Hc. rewrite Hchars in Hc. cbn [map app In] in Hc.
    repeat (destruct Hc as [Hc|Hc];
            [subst c; try (repeat split; discriminate);
             apply symbol_unambiguous; apply Hrange; lia|]).
    contradiction.
Qed.

(** X12: the key records its draws: two runs of the generator whose sixteen
    draws all lie inside the alphabet and differ somewhere give different
    keys. *)
Theorem generateLicenseKey_injective (rnd rnd' : nat -> nat)
    (Hrange : forall k, (k < 16)%nat -> (rnd k < 32)%nat)
    (Hrange' : forall k, (k < 16)%nat -> (rnd' k < 32)%nat)
    (Hsame : generateLicenseKey rnd = generateLicenseKey rnd') :
  forall k, (k < 16)%nat -> rnd k = rnd' k.
Proof.
  pose proof (generateLicenseKey_chars rnd Hrange) as H.
  rewrite Hsame, (generateLicenseKey_chars rnd' Hrange') in H.
  cbn [map app] in H.
  injection H as E0 E1 E2 E3 E4 E5 E6 E7 E8 E9 E10 E11 E12 E13 E14 E15.
  intros k Hk.
  do 16 (destruct k as [|k];
         [symmetry; apply symbol_injective;
          [apply Hrange'; lia | apply Hrange; lia | assumption]|]).
  exfalso; lia.
Qed.

(** ** The public routes *)

Section RouteFacts.

Variable JWT_SECRET : string.
Variable Date_parse : string -> option Z.

Abbreviation activate := (activateLicense JWT_SECRET Date_parse).
Abbreviation validate := (validateLicense JWT_SECRET Date_parse).
Abbreviation expired := (license_expired Date_parse).
Abbreviation POST_activate := (post_activate JWT_SECRET Date_parse).
Abbreviation POST_validate := (post_validate JWT_SECRET Date_parse).
Abbreviation POST_heartbeat := (post_heartbeat Date_parse).
Abbreviation GET_status := (get_status JWT_SECRET Date_parse).

(** X13: the answers of [POST /activate].  Without a license key or a
    domain the handler answers 400 [missing_params] and does not reach the
    service.  Otherwise the body is the service's result and the status is
    200 exactly when the result is a success, 404 exactly when no license has
    the key, and 400 for every other failure; unless the status is 200 the
    store is as before. *)
Theorem post_activate_status
    (clk : Clock) (req : Request) (s s' : Store) (status : Z)
    (payload : Payload ActivateResult)
    (Hrun : POST_activate clk req s = (Returned (status, payload), s')) :
  ((missing (req_license_key req) || missing (req_domain req))%bool = true ->
   status = 400%Z
   /\ payload = ErrorObject "missing_params" "license_key and domain are required"
   /\ s' = s)
  /\ ((missing (req_license_key req) || missing (req_domain req))%bool = false ->
      exists result,
        payload = ResultObject result
        /\ (status = 200%Z <-> activate_success result = true)
        /\ (status = 404%Z <-> lookup s (field (req_license_key req)) = None)
        /\ (status = 200 \/ status = 400 \/ status = 404)%Z
        /\ (status <> 200%Z -> s' = s)).
Proof.
  unfold post_activate in Hrun.
  destruct (missing (req_license_key req) || missing (req_domain req))%bool.
  - split; [|discriminate]. intros _. unfold ret in Hrun. now inversion Hrun.
  - split; [discriminate|]. intros _.
    unfold lookup. unfold activateLicense in Hrun. run_db.
    destruct (find _ (licenses s)) as [license|].
    2:{ inversion Hrun; subst. eexists. split; [reflexivity|]. cbn.
        repeat split; try discriminate; auto. }
    destruct (license_expired _ _ _).
    { inversion Hrun; subst. eexists. split; [reflexivity|]. cbn.
      repeat split; try discriminate; auto. }
    destruct (find _ (filter _ (activations s))).
    { inversion Hrun; subst. eexists. split; [reflexivity|]. cbn.
      repeat split; try discriminate; auto. congruence. }
    destruct (negb _ && _)%bool.
    { inversion Hrun; subst. eexists. split; [reflexivity|]. cbn.
      repeat split; try discriminate; auto. }
    destruct (existsb _ (activations s)); [discriminate|].
    inversion Hrun; subst. eexists. split; [reflexivity|]. cbn.
    repeat split; try discriminate; auto. congruence.
Qed.

(** X14: activating a domain whose earlier activation was deactivated ends
    in an HTTP 500.  With the license found and unexpired, no active row for
    the domain, the limit not in the way and a retired row holding the
    pair, the INSERT throws; the error handler looks for the code
    SQLITE_CONSTRAINT, the error carries SQLITE_CONSTRAINT_UNIQUE, so the
    answer is 500 [internal_error], not 409, and nothing is written. *)
Theorem post_activate_retired_domain_is_500
    (production : bool) (clk : Clock) (req : Request) (s : Store) (license : License.t)
    (Hparams : (missing (req_license_key req) || missing (req_domain req))%bool = false)
    (Hfound : lookup s (field (req_license_key req)) = Some license)
    (Hlive : expired license clk = false)
    (Hnone : active_for s (License.id license) (field (req_domain req)) = None)
    (Hretired : (1 <= pair_count s (License.id license) (field (req_domain req)))%nat)
    (Hroom : isDevEnvironment (DStr (field (req_domain req))) = true
             \/ (Z.of_nat (production_count s (License.id license))
                 < License.max_activations license)%Z) :
  respond production (POST_activate clk req) s
  = ((500,
      ErrorObject "internal_error"
        (if production then "An internal error occurred"
         else "UNIQUE constraint failed: activations.license_id, activations.domain")),
     s).
Proof.
  assert (Hdup : existsb (same_pair (License.id license) (field (req_domain req)))
                         (activations s) = true).
  { destruct (existsb _ _) eqn:E; [reflexivity|].
    unfold pair_count in Hretired. rewrite (filter_none_length _ _ E) in Hretired. lia. }
  assert (Hgate : (negb (isDevEnvironment (DStr (field (req_domain req))))
                   && (Z.of_nat (production_count s (License.id license))
                       >=? License.max_activations license)%Z)%bool = false).
  { destruct Hroom as [Hdev|Hlt]; [now rewrite Hdev|].
    rewrite Z.geb_leb. apply Z.leb_gt in Hlt. rewrite Hlt. apply andb_false_r. }
  unfold lookup in Hfound. unfold active_for, active_rows in Hnone.
  unfold production_count, active_rows in Hgate.
  unfold respond, post_activate. rewrite Hparams.
  unfold activateLicense. run_db.
  rewrite Hfound, Hlive, Hnone, Hgate, Hdup. reflexivity.
Qed.

Lemma token_check_tags (clk : Clock) (licenseKey domain : string) (token : option Token)
    (failure : ValidateResult) :
  token_check JWT_SECRET clk licenseKey domain token = Some failure ->
  validate_error failure = Some "token_mismatch"
  \/ validate_error failure = Some "invalid_token".
Proof.
  unfold token_check. destruct (token_truthy token); [|discriminate].
  destruct token as [t|]; [|discriminate].
  destruct (jwt_verify _ _ _) as [e|decoded].
  - intro H; inversion H; now right.
  - destruct (_ || _)%bool; [|discriminate]. intro H; inversion H; now left.
Qed.

(** What [validateLicense] answers when no product slug is passed. *)
Lemma validate_without_slug
    (clk : Clock) (licenseKey domain : string) (token : option Token) (s : Store) :
  exists result,
    validate clk licenseKey domain token None s = (Returned result, s)
    /\ validate_error result <> Some "product_mismatch"
    /\ (forall license, lookup s licenseKey = Some license ->
                        expired license clk = true ->
                        result = ValidateFailed "expired" "License has expired"
                                   (License.expires_at license)).
Proof.
  unfold lookup, validateLicense, product_mismatch. run_db.
  destruct (find _ (licenses s)) as [license|].
  2:{ eexists. split; [reflexivity|]. split; [discriminate|]. discriminate. }
  destruct (license_expired _ _ _) eqn:Hexp.
  { eexists. split; [reflexivity|]. split; [discriminate|].
    intros l Hl _. now inversion Hl. }
  destruct (find _ (filter _ (activations s))).
  2:{ eexists. split; [reflexivity|]. split; [discriminate|].
      intros l Hl Hl'. inversion Hl; subst. congruence. }
  destruct (token_check _ _ _ _ _) as [failure|] eqn:Htok.
  - eexists. split; [reflexivity|]. split.
    + destruct (token_check_tags _ _ _ _ _ Htok) as [H|H]; rewrite H; discriminate.
    + intros l Hl Hl'. inversion Hl; subst. congruence.
  - rewrite product_info_reads. eexists. split; [reflexivity|]. split; [discriminate|].
    intros l Hl Hl'. inversion Hl; subst. congruence.
Qed.

(** X15: no public route passes a product slug to [validateLicense], so
    [POST /validate] and [GET /status] never answer [product_mismatch]; and
    for a license that has expired both answer 400 with [expired], whatever
    domain and token come with the request.  Neither route writes. *)
Theorem validation_routes_skip_product_check
    (clk : Clock) (req : Request) (s : Store) :
  (exists status payload,
     POST_validate clk req s = (Returned (status, payload), s)
     /\ (forall result, payload = ResultObject result ->
                        validate_error result <> Some "product_mismatch")
     /\ (forall license,
           (missing (req_license_key req) || missing (req_domain req))%bool = false ->
           lookup s (field (req_license_key req)) = Some license ->
           expired license clk = true ->
           status = 400%Z
           /\ payload = ResultObject (ValidateFailed "expired" "License has expired"
                                        (License.expires_at license))))
  /\ (exists status payload,
        GET_status clk req s = (Returned (status, payload), s)
        /\ (forall result, payload = ResultObject result ->
                           validate_error result <> Some "product_mismatch")
        /\ (forall license,
              missing (req_x_license_key req) = false ->
              missing (req_query_domain req) = false ->
              lookup s (field (req_x_license_key req)) = Some license ->
              expired license clk = true ->
              status = 400%Z
              /\ payload = ResultObject (ValidateFailed "expired" "License has expired"
                                           (License.expires_at license)))).
Proof.
  split.
  - unfold post_validate.
    destruct (missing (req_license_key req) || missing (req_domain req))%bool.
    { do 2 eexists. split; [reflexivity|]. split; [discriminate|]. discriminate. }
    destruct (validate_without_slug clk (field (req_license_key req))
                (field (req_domain req)) (req_token req) s)
      as (result & Hrun & Hnot & Hexp).
    unfold bind, ret. rewrite Hrun. do 2 eexists. split; [reflexivity|].
    split.
    + intros r Hr. inversion Hr; subst. exact Hnot.
    + intros license _ Hfound Hdead. rewrite (Hexp license Hfound Hdead). now split.
  - unfold get_status.
    destruct (missing (req_x_license_key req)).
    { do 2 eexists. split; [reflexivity|]. split; discriminate. }
    destruct (missing (req_query_domain req)).
    { do 2 eexists. split; [reflexivity|]. split; [discriminate|]. discriminate. }
    destruct (validate_without_slug clk (field (req_x_license_key req))
                (field (req_query_domain req)) None s)
      as (result & Hrun & Hnot & Hexp).
    unfold bind, ret. rewrite Hrun. do 2 eexists. split; [reflexivity|].
    split.
    + intros r Hr. inversion Hr; subst. exact Hnot.
    + intros license _ _ Hfound Hdead. rewrite (Hexp license Hfound Hdead). now split.
Qed.

(** X16: a heartbeat outlives the license.  For a license that has expired
    but still has an active row for the domain, [POST /heartbeat] answers
    200 with [valid: false] and records the heartbeat, while
    [POST /validate] for the same request answers 400 [expired]. *)
Theorem heartbeat_accepted_after_expiry
    (clk : Clock) (req : Request) (s : Store) (license : License.t)
    (existing : Activation.t)
    (Hparams : (missing (req_license_key req) || missing (req_domain req))%bool = false)
    (Hfound : lookup s (field (req_license_key req)) = Some license)
    (Hdead : expired license clk = true)
    (Hexisting : active_for s (License.id license) (field (req_domain req))
                 = Some existing) :
  (exists s',
     POST_heartbeat clk req s
     = (Returned (200, ResultObject (HeartbeatRecorded false (License.expires_at license)
                                       (License.plan license))), s')
     /\ Forall2 (fun a a' =>
                   matches_active (License.id license) (field (req_domain req)) a = true ->
                   Activation.last_heartbeat a' = Some (datetime_now clk))
                (activations s) (activations s'))
  /\ POST_validate clk req s
     = (Returned (400, ResultObject (ValidateFailed "expired" "License has expired"
                                       (License.expires_at license))), s).
Proof.
  split.
  - destruct (heartbeat_recorded Date_parse clk (field (req_license_key req))
                (field (req_domain req))
                (mkSiteInfo None (req_wp_version req) (req_plugin_version req) None)
                s license existing Hfound Hexisting)
      as (s' & Hrun & Hrows & _).
    exists s'. split.
    + unfold post_heartbeat. rewrite Hparams. unfold bind, ret.
      rewrite Hrun, Hdead. reflexivity.
    + eapply Forall2_impl; [|exact Hrows]. cbv beta. intros a a' (_ & _ & H). exact H.
  - destruct (validate_without_slug clk (field (req_license_key req))
                (field (req_domain req)) (req_token req) s)
      as (result & Hrun & _ & Hexp).
    unfold post_validate. rewrite Hparams. unfold bind, ret.
    rewrite Hrun, (Hexp license Hfound Hdead). reflexivity.
Qed.

End RouteFacts.

(** ** Strings: prefixes, slices, splitting *)

Lemma substring_whole (text : string) : substring 0 (String.length text) text = text.
Proof. induction text as [|c r IH]; simpl; [reflexivity | now rewrite IH]. Qed.

Lemma length_append_string (a b : string) :
  String.length (a ++ b) = (String.length a + String.length b)%nat.
Proof. induction a as [|c a IH]; simpl; [reflexivity | now rewrite IH]. Qed.

Lemma length_substring_bound (n m : nat) (text : string) :
  (String.length (substring n m text) <= m)%nat.
Proof.
  revert n m. induction text as [|c r IH]; intros n m.
  - destruct n, m; simpl; lia.
  - destruct n as [|n]; simpl.
    + destruct m as [|m]; simpl; [lia|]. specialize (IH 0%nat m). lia.
    + apply IH.
Qed.

Lemma slice_from_app (p r : string) : slice_from (String.length p) (p ++ r) = r.
Proof.
  unfold slice_from. induction p as [|c p IH]; simpl.
  - rewrite Nat.sub_0_r. apply substring_whole.
  - exact IH.
Qed.

Lemma startsWith_app (p r : string) : startsWith (p ++ r) p = true.
Proof.
  unfold startsWith. induction p as [|c p IH]; simpl.
  - now destruct r.
  - destruct (ascii_dec c c); [exact IH | contradiction].
Qed.

Lemma startsWith_split (p text : string) :
  startsWith text p = true -> text = p ++ slice_from (String.length p) text.
Proof.
  unfold startsWith, slice_from. revert text.
  induction p as [|c p IH]; intros text H; simpl.
  - rewrite Nat.sub_0_r. now rewrite substring_whole.
  - destruct text as [|d text]; simpl in H; [discriminate|].
    destruct (ascii_dec c d); [|discriminate]. subst d. simpl.
    f_equal. now apply IH.
Qed.

Lemma split_on_nonempty (sep : ascii) (text : string) : split_on sep text <> [].
Proof.
  destruct text as [|c r]; simpl; [discriminate|].
  destruct (Ascii.eqb c sep); [discriminate|].
  destruct (split_on sep r); discriminate.
Qed.

Lemma split_on_app (sep : ascii) (a b : string) :
  split_on sep (a ++ String sep b) = (split_on sep a ++ split_on sep b)%list.
Proof.
  induction a as [|c a IH]; simpl.
  - now rewrite Ascii.eqb_refl.
  - destruct (Ascii.eqb c sep); [now rewrite IH|].
    rewrite IH. pose proof (split_on_nonempty sep a) as Hne.
    destruct (split_on sep a); [contradiction | reflexivity].
Qed.

Lemma concat_cons2 (sep x y : string) (l : list string) :
  String.concat sep (x :: y :: l) = x ++ sep ++ String.concat sep (y :: l).
Proof. reflexivity. Qed.

Lemma concat_split_on (sep : ascii) (text : string) :
  String.concat (String sep EmptyString) (split_on sep text) = text.
Proof.
  induction text as [|c r IH]; [reflexivity|].
  cbn [split_on].
  pose proof (split_on_nonempty sep r) as Hne.
  destruct (Ascii.eqb_spec c sep) as [E|E].
  - subst c. destruct (split_on sep r) as [|h t]; [contradiction|].
    rewrite concat_cons2, IH. reflexivity.
  - destruct (split_on sep r) as [|h t]; [contradiction|].
    destruct t as [|h' t].
    + cbn [String.concat] in *. now rewrite IH.
    + rewrite concat_cons2 in *. rewrite <- IH. reflexivity.
Qed.

Lemma includes_app_sep (sep : ascii) (a b : string) :
  includes (a ++ String sep b) (String sep EmptyString) = true.
Proof.
  induction a as [|c a IH]; simpl.
  - destruct (ascii_dec sep sep); [|contradiction]. now destruct b.
  - rewrite IH. apply orb_true_r.
Qed.

Lemma no_colon_not_mapped (text : string) :
  includes text ":" = false -> startsWith text "::ffff:" = false.
Proof.
  unfold startsWith. destruct text as [|c r]; [reflexivity|].
  cbn [includes String.prefix]. intro H. apply orb_false_iff in H as [H _].
  destruct (ascii_dec ":" c); [|reflexivity].
  destruct r; discriminate.
Qed.

(** ** Admin authentication *)

(** X17: the license admin routes let a request through exactly when its
    Authorization header is the text "Bearer " followed by the admin key;
    anything else is answered 401 (no header, or not a Bearer header) or 403
    (a Bearer header with another key). *)
Theorem requireAdmin_passes_iff (env authorization : option string) :
  (requireAdmin env authorization = Next
   <-> authorization = Some ("Bearer " ++ ADMIN_API_KEY env))
  /\ (forall status error,
        requireAdmin env authorization = Rejected status error ->
        (status = 401%Z /\ error = "Missing authorization header")
        \/ (status = 403%Z /\ error = "Invalid admin key"
            /\ exists other, authorization = Some ("Bearer " ++ other)
                             /\ other <> ADMIN_API_KEY env)).
Proof.
  unfold requireAdmin. split; [split|].
  - destruct authorization as [authHeader|]; [|discriminate].
    destruct (truthy authHeader); [|discriminate]. cbn [negb orb].
    destruct (startsWith authHeader "Bearer ") eqn:Hb; [|discriminate]. cbn [negb].
    destruct (String.eqb_spec (slice_from 7 authHeader) (ADMIN_API_KEY env)) as [E|E];
      [|discriminate].
    intros _. f_equal. rewrite <- E. exact (startsWith_split "Bearer " authHeader Hb).
  - intro H. subst authorization.
    change 7%nat with (String.length "Bearer ").
    rewrite slice_from_app, startsWith_app, String.eqb_refl. reflexivity.
  - intros status error.
    destruct authorization as [authHeader|]; [|intro H; inversion H; now left].
    destruct (truthy authHeader); [|intro H; inversion H; now left]. cbn [negb orb].
    destruct (startsWith authHeader "Bearer ") eqn:Hb; [|intro H; inversion H; now left].
    cbn [negb].
    destruct (String.eqb_spec (slice_from 7 authHeader) (ADMIN_API_KEY env)) as [E|E];
      [discriminate|].
    intro H; inversion H. right. repeat split.
    exists (slice_from 7 authHeader). split; [|exact E].
    f_equal. exact (startsWith_split "Bearer " authHeader Hb).
Qed.

Lemma requireAdmin_next (env authorization : option string) :
  requireAdmin env authorization = Next
  <-> authorization = Some ("Bearer " ++ ADMIN_API_KEY env).
Proof.
  unfold requireAdmin. split.
  - destruct authorization as [authHeader|]; [|discriminate].
    destruct (truthy authHeader); [|discriminate]. cbn [negb orb].
    destruct (startsWith authHeader "Bearer ") eqn:Hb; [|discriminate]. cbn [negb].
    destruct (String.eqb_spec (slice_from 7 authHeader) (ADMIN_API_KEY env)) as [E|E];
      [|discriminate].
    intros _. f_equal. rewrite <- E. exact (startsWith_split "Bearer " authHeader Hb).
  - intro H. subst authorization.
    change 7%nat with (String.length "Bearer ").
    rewrite slice_from_app, startsWith_app, String.eqb_refl. reflexivity.
Qed.

Lemma requireAdmin_products_next (env x_api_key : option string) :
  requireAdmin_products env x_api_key = Next
  <-> exists key, key <> "" /\ env = Some key /\ x_api_key = Some key.
Proof.
  unfold requireAdmin_products. split.
  - destruct x_api_key as [apiKey|]; [|discriminate].
    unfold truthy. destruct (String.eqb_spec apiKey "") as [E|E]; [discriminate|].
    cbn [negb orb]. destruct env as [key|]; [|discriminate].
    destruct (String.eqb_spec apiKey key) as [K|K]; [|discriminate].
    intros _. exists key. subst. auto.
  - intros (key & Hne & He & Hk). subst.
    unfold truthy. apply String.eqb_neq in Hne. rewrite Hne, String.eqb_refl. reflexivity.
Qed.

(** X18: a request for a product route passes two gates one after the
    other: the admin router, mounted on the prefix /api/v1/admin, checks the
    Authorization header, then the products router checks the x-api-key
    header.  The request is let through exactly when a non-empty admin key
    is configured and both headers carry it (Authorization as "Bearer "
    followed by the key).  Without an Authorization header it is answered
    401 "Missing authorization header", whatever its x-api-key.  When no
    admin key is configured (the variable unset or empty) no request gets
    through to a product route, while the license admin routes then accept
    the built-in key dev-admin-key. *)
Theorem product_routes_need_both_keys (env authorization x_api_key : option string) :
  (product_route_gate env authorization x_api_key = Next
   <-> exists key, key <> "" /\ env = Some key
                   /\ authorization = Some ("Bearer " ++ key)
                   /\ x_api_key = Some key)
  /\ product_route_gate env None x_api_key = Rejected 401 "Missing authorization header"
  /\ (env = None \/ env = Some "" ->
      product_route_gate env authorization x_api_key <> Next
      /\ requireAdmin env (Some "Bearer dev-admin-key") = Next).
Proof.
  assert (Hkey : forall key, key <> "" -> ADMIN_API_KEY (Some key) = key).
  { intros key Hne. unfold ADMIN_API_KEY, truthy.
    apply String.eqb_neq in Hne. now rewrite Hne. }
  assert (Hiff : product_route_gate env authorization x_api_key = Next
                 <-> exists key, key <> "" /\ env = Some key
                                 /\ authorization = Some ("Bearer " ++ key)
                                 /\ x_api_key = Some key).
  { unfold product_route_gate. split.
    - destruct (requireAdmin env authorization) eqn:Hfirst; [discriminate|].
      intro Hsecond.
      apply requireAdmin_products_next in Hsecond as (key & Hne & He & Hk).
      apply requireAdmin_next in Hfirst. subst env.
      rewrite (Hkey key Hne) in Hfirst. exists key. auto.
    - intros (key & Hne & He & Ha & Hk). subst env.
      assert (Hfirst : requireAdmin (Some key) authorization = Next)
        by (apply requireAdmin_next; now rewrite (Hkey key Hne)).
      rewrite Hfirst. apply requireAdmin_products_next. exists key. auto. }
  split; [exact Hiff|]. split; [reflexivity|].
  intros Hunset. split.
  - intro Hnext. apply Hiff in Hnext as (key & Hne & He & _).
    destruct Hunset as [H|H]; rewrite H in He; [discriminate|].
    injection He as He. now elim Hne.
  - destruct Hunset as [H|H]; subst env; reflexivity.
Qed.

(** ** Rate-limit keys *)

(** X19: an IPv4 client is counted under one key however its address is
    written: the IPv6-mapped form ::ffff:a.b.c.d and the plain form a.b.c.d
    normalise to the same text, so the rate-limit key is the same for both. *)
Theorem mapped_ipv4_shares_rate_limit_key
    (v4 : string) (body_domain query_domain : option string)
    (Hnonempty : v4 <> "")
    (Hplain : includes v4 ":" = false) :
  normalizeIp (Some ("::ffff:" ++ v4)) = v4
  /\ normalizeIp (Some v4) = v4
  /\ licenseKeyGenerator body_domain query_domain (Some ("::ffff:" ++ v4))
     = licenseKeyGenerator body_domain query_domain (Some v4).
Proof.
  assert (H1 : normalizeIp (Some ("::ffff:" ++ v4)) = v4).
  { unfold normalizeIp. change 7%nat with (String.length "::ffff:").
    rewrite startsWith_app, slice_from_app. reflexivity. }
  assert (H2 : normalizeIp (Some v4) = v4).
  { unfold normalizeIp, truthy. apply String.eqb_neq in Hnonempty. rewrite Hnonempty.
    cbn [negb]. now rewrite (no_colon_not_mapped v4 Hplain), Hplain. }
  split; [exact H1|]. split; [exact H2|].
  unfold licenseKeyGenerator. now rewrite H1, H2.
Qed.

(** X20: for an IPv6 address, [normalizeIp] keeps the first four
    colon-separated fields of the text.  An address written with four
    fields [network] followed by a colon and anything normalises to
    [network], so addresses of one /64 that are written out in full share a
    rate-limit key.  An address with at most four fields normalises to
    itself: abbreviated addresses of one /64, such as 2001:db8::1 and
    2001:db8::2, keep different keys. *)
Theorem normalizeIp_keeps_four_fields :
  (forall network rest,
     List.length (split_on ":" network) = 4%nat ->
     startsWith (network ++ ":" ++ rest) "::ffff:" = false ->
     normalizeIp (Some (network ++ ":" ++ rest)) = network)
  /\ (forall ip,
        includes ip ":" = true ->
        startsWith ip "::ffff:" = false ->
        (List.length (split_on ":" ip) <= 4)%nat ->
        normalizeIp (Some ip) = ip).
Proof.
  split.
  - intros network rest Hfour Hnotmapped.
    unfold normalizeIp. rewrite Hnotmapped.
    assert (Htruthy : truthy (network ++ ":" ++ rest) = true)
      by (destruct network; reflexivity).
    rewrite Htruthy. cbn [negb].
    change (network ++ ":" ++ rest) with (network ++ String ":" rest).
    rewrite (includes_app_sep ":" network rest), split_on_app.
    assert (Hall : firstn 4 (split_on ":" network) = split_on ":" network)
      by (rewrite <- Hfour; apply firstn_all).
    rewrite firstn_app, Hall, Hfour, Nat.sub_diag, firstn_O, app_nil_r.
    apply concat_split_on.
  - intros ip Hcolon Hnotmapped Hshort.
    unfold normalizeIp. rewrite Hnotmapped, Hcolon.
    assert (Htruthy : truthy ip = true) by (destruct ip; [discriminate Hcolon | reflexivity]).
    rewrite Htruthy. cbn [negb].
    rewrite (firstn_all2 _ Hshort). apply concat_split_on.
Qed.

(** ** Version comparison *)

Section VersionFacts.

Variable num : Type.
Variable zero : num.
Variable ltb : num -> num -> bool.
Variable Number : string -> option num.

Hypothesis ltb_irrefl : forall x, ltb x x = false.
Hypothesis ltb_asym : forall x y, ltb x y = true -> ltb y x = false.

Abbreviation part := (part_or_zero num zero).
Abbreviation scan := (compare_parts num zero ltb).
Abbreviation compare := (compareVersions num zero ltb Number).

Lemma scan_ext (p1 p2 q1 q2 : list (option num)) (indexes : list nat) :
  (forall i, part p1 i = part q1 i) ->
  (forall i, part p2 i = part q2 i) ->
  scan p1 p2 indexes = scan q1 q2 indexes.
Proof.
  intros H1 H2. induction indexes as [|i rest IH]; simpl; [reflexivity|].
  now rewrite H1, H2, IH.
Qed.

Lemma scan_swap (p1 p2 : list (option num)) (indexes : list nat) :
  scan p1 p2 indexes = (- scan p2 p1 indexes)%Z.
Proof.
  induction indexes as [|i rest IH]; simpl; [reflexivity|].
  destruct (ltb (part p2 i) (part p1 i)) eqn:E1.
  - now rewrite (ltb_asym _ _ E1).
  - destruct (ltb (part p1 i) (part p2 i)); [reflexivity | exact IH].
Qed.

Lemma scan_range (p1 p2 : list (option num)) (indexes : list nat) :
  scan p1 p2 indexes = 1%Z \/ scan p1 p2 indexes = 0%Z \/ scan p1 p2 indexes = (-1)%Z.
Proof.
  induction indexes as [|i rest IH]; simpl; [auto|].
  destruct (ltb _ _); [auto|]. destruct (ltb _ _); auto.
Qed.

Lemma scan_zeros (p1 p2 : list (option num)) (indexes : list nat) :
  (forall i, In i indexes -> part p1 i = zero /\ part p2 i = zero) ->
  scan p1 p2 indexes = 0%Z.
Proof.
  induction indexes as [|i rest IH]; simpl; intro H; [reflexivity|].
  destruct (H i (or_introl eq_refl)) as [Z1 Z2].
  rewrite Z1, Z2, ltb_irrefl. apply IH. intros j Hj. apply H. now right.
Qed.

Lemma scan_app (p1 p2 : list (option num)) (l1 l2 : list nat) :
  scan p1 p2 l2 = 0%Z -> scan p1 p2 (l1 ++ l2) = scan p1 p2 l1.
Proof.
  intro H. induction l1 as [|i rest IH]; simpl; [exact H|].
  destruct (ltb _ _); [reflexivity|]. destruct (ltb _ _); [reflexivity | exact IH].
Qed.

Lemma part_beyond (p : list (option num)) (i : nat) :
  (List.length p <= i)%nat -> part p i = zero.
Proof.
  intro H. unfold part_or_zero. apply nth_error_None in H. now rewrite H.
Qed.

Lemma scan_longer (p1 p2 : list (option num)) (n m : nat) :
  (Nat.max (List.length p1) (List.length p2) <= n)%nat -> (n <= m)%nat ->
  scan p1 p2 (seq 0 m) = scan p1 p2 (seq 0 n).
Proof.
  intros Hn Hm. replace m with (n + (m - n))%nat by lia.
  rewrite seq_app. apply scan_app. apply scan_zeros.
  intros i Hi. apply in_seq in Hi. split; apply part_beyond; lia.
Qed.

Lemma part_padded (p : list (option num)) (last : option num) (i : nat) :
  last = None \/ last = Some zero ->
  part (p ++ [last]) i = part p i.
Proof.
  intro Hlast. unfold part_or_zero.
  destruct (Nat.lt_ge_cases i (List.length p)) as [Hlt|Hge].
  - now rewrite nth_error_app1.
  - rewrite nth_error_app2 by exact Hge.
    pose proof (proj2 (nth_error_None p i) Hge) as Hnone. rewrite Hnone.
    destruct (i - List.length p)%nat as [|k]; cbn.
    + destruct Hlast; subst; reflexivity.
    + now destruct k.
Qed.

(** X21: [compareVersions] is a consistent comparison.  It answers 1, 0 or
    -1; a version compared with itself gives 0; and swapping the two
    versions flips the sign, so the two sides never both count as newer. *)
Theorem compareVersions_consistent (v1 v2 : string) :
  compareVersions num zero ltb Number v1 v1 = 0%Z
  /\ compareVersions num zero ltb Number v1 v2
     = (- compareVersions num zero ltb Number v2 v1)%Z
  /\ (compareVersions num zero ltb Number v1 v2 = 1%Z
      \/ compareVersions num zero ltb Number v1 v2 = 0%Z
      \/ compareVersions num zero ltb Number v1 v2 = (-1)%Z).
Proof.
  unfold compareVersions. split; [|split].
  - generalize (seq 0 (Nat.max (List.length (map Number (split_on "." v1)))
                               (List.length (map Number (split_on "." v1))))).
    generalize (map Number (split_on "." v1)). intros p l.
    induction l as [|i rest IH]; simpl; [reflexivity|]. now rewrite ltb_irrefl.
  - rewrite (Nat.max_comm (List.length (map Number (split_on "." v2)))).
    apply scan_swap.
  - apply scan_range.
Qed.

(** X22: a trailing part that is zero, empty or not a number is ignored.
    Appending to a version a dot and a part [x] (itself free of dots) for
    which [Number] gives 0 or NaN changes no comparison, on either side; in
    particular the padded version compares equal to the original. *)
Theorem compareVersions_ignores_trailing_zero (v x other : string)
    (Hnodot : split_on "." x = [x])
    (Hzero : Number x = None \/ Number x = Some zero) :
  compare (v ++ "." ++ x) other = compare v other
  /\ compare other (v ++ "." ++ x) = compare other v
  /\ compare (v ++ "." ++ x) v = 0%Z.
Proof.
  assert (Hparts : map Number (split_on "." (v ++ "." ++ x))
                   = (map Number (split_on "." v) ++ [Number x])%list).
  { change (v ++ "." ++ x) with (v ++ String "." x).
    now rewrite split_on_app, map_app, Hnodot. }
  unfold compareVersions. rewrite Hparts.
  set (P := map Number (split_on "." v)).
  set (W := map Number (split_on "." other)).
  assert (Hleft : forall Q,
            scan (P ++ [Number x]) Q
              (seq 0 (Nat.max (List.length (P ++ [Number x])) (List.length Q)))
            = scan P Q (seq 0 (Nat.max (List.length P) (List.length Q)))).
  { intro Q.
    rewrite (scan_ext (P ++ [Number x]) Q P Q)
      by (intro i; first [reflexivity | apply part_padded; exact Hzero]).
    apply scan_longer; [lia|]. rewrite length_app. cbn [List.length]. lia. }
  assert (Hright : forall Q,
            scan Q (P ++ [Number x])
              (seq 0 (Nat.max (List.length Q) (List.length (P ++ [Number x]))))
            = scan Q P (seq 0 (Nat.max (List.length Q) (List.length P)))).
  { intro Q.
    rewrite (scan_ext Q (P ++ [Number x]) Q P)
      by (intro i; first [reflexivity | apply part_padded; exact Hzero]).
    apply scan_longer; [lia|]. rewrite length_app. cbn [List.length]. lia. }
  split; [apply Hleft|]. split; [apply Hright|].
  rewrite Hleft.
  generalize (seq 0 (Nat.max (List.length P) (List.length P))). intro l.
  induction l as [|i rest IH]; simpl; [reflexivity|]. now rewrite ltb_irrefl.
Qed.

End VersionFacts.

(** ** Download tokens *)

Section DownloadFacts.

Variable DOWNLOAD_SECRET : string.

Abbreviation issue := (download_token DOWNLOAD_SECRET).
Abbreviation check := (validateDownloadToken DOWNLOAD_SECRET).

(** X23: a download token opens the download it was issued for.  Within the
    hour after [getSignedDownloadUrl] (before second [iat + 3600]), the
    token is accepted for the same plugin and version and hands back the
    domain it was issued to.  Of the license key it carries only the first
    eight characters followed by three dots. *)
Theorem download_token_round_trip
    (clk clk2 : Clock) (slug version licenseKey domain : string)
    (Hfresh : (Date_now clk2 / 1000 < Date_now clk / 1000 + 3600)%Z) :
  check clk2 (issue clk slug version licenseKey domain) slug version
  = DownloadAllowed (Some domain) (Some (substring 0 8 licenseKey ++ "..."))
  /\ (String.length (substring 0 8 licenseKey ++ "...") <= 11)%nat.
Proof.
  split.
  - unfold validateDownloadToken, download_token, jwt_verify_download.
    rewrite String.eqb_refl. cbn [negb dl_exp].
    assert (H : (Date_now clk2 / 1000 >=? Date_now clk / 1000 + 3600)%Z = false)
      by (rewrite Z.geb_leb; apply Z.leb_gt; exact Hfresh).
    rewrite H. cbn [dl_slug dl_version dl_domain dl_licenseKey option_eqb_string].
    now rewrite !String.eqb_refl.
  - rewrite length_append_string. cbn [String.length].
    pose proof (length_substring_bound 0 8 licenseKey) as Hle. lia.
Qed.

(** X24: when a download token is refused, the reason is told apart.  A
    token issued by [getSignedDownloadUrl] is refused with [token_expired]
    from second [iat + 3600] on; while it is fresh it is refused with
    [slug_mismatch] for another plugin and with [version_mismatch] for
    another version of the same plugin.  Text that is no token, or a token
    signed with another secret, is refused with [invalid_token]. *)
Theorem download_token_refusals
    (clk clk2 : Clock) (slug version licenseKey domain : string) :
  ((Date_now clk / 1000 + 3600 <= Date_now clk2 / 1000)%Z ->
   forall slug2 version2,
     check clk2 (issue clk slug version licenseKey domain) slug2 version2
     = DownloadRefused "token_expired" "Download link has expired. Request a new one.")
  /\ ((Date_now clk2 / 1000 < Date_now clk / 1000 + 3600)%Z ->
      (forall slug2 version2, slug2 <> slug ->
         check clk2 (issue clk slug version licenseKey domain) slug2 version2
         = DownloadRefused "slug_mismatch" "Token not valid for this plugin")
      /\ (forall version2, version2 <> version ->
            check clk2 (issue clk slug version licenseKey domain) slug version2
            = DownloadRefused "version_mismatch" "Token not valid for this version"))
  /\ (forall raw slug2 version2,
        check clk2 (NotAToken raw) slug2 version2
        = DownloadRefused "invalid_token" "Invalid download token")
  /\ (forall payload secret slug2 version2, secret <> DOWNLOAD_SECRET ->
        check clk2 (SignedPayload payload secret) slug2 version2
        = DownloadRefused "invalid_token" "Invalid download token").
Proof.
  unfold validateDownloadToken, download_token, jwt_verify_download.
  rewrite String.eqb_refl. cbn [negb dl_exp].
  split; [|split; [|split]].
  - intros Hlate slug2 version2.
    assert (H : (Date_now clk2 / 1000 >=? Date_now clk / 1000 + 3600)%Z = true)
      by (rewrite Z.geb_leb; apply Z.leb_le; exact Hlate).
    now rewrite H.
  - intro Hfresh.
    assert (H : (Date_now clk2 / 1000 >=? Date_now clk / 1000 + 3600)%Z = false)
      by (rewrite Z.geb_leb; apply Z.leb_gt; exact Hfresh).
    rewrite H. cbn [dl_slug dl_version option_eqb_string].
    split.
    + intros slug2 version2 Hs. apply not_eq_sym, String.eqb_neq in Hs. now rewrite Hs.
    + intros version2 Hv. rewrite String.eqb_refl. cbn [negb].
      apply not_eq_sym, String.eqb_neq in Hv. now rewrite Hv.
  - reflexivity.
  - intros payload secret slug2 version2 Hs. apply String.eqb_neq in Hs. now rewrite Hs.
Qed.

End DownloadFacts.

(** ** The cap over any sequence of calls *)

Lemma production_count_after_retire (s : Store) (clk : Clock) (lid : Z) (d : string)
    (lid' : Z) (seq : Z) :
  (production_count
     (set_activations s (map (retire_where clk lid d) (activations s)) seq) lid'
   <= production_count s lid')%nat.
Proof.
  unfold production_count, active_rows. cbn [activations set_activations].
  induction (activations s) as [|a l IH]; cbn [map filter]; [apply Nat.le_refl|].
  destruct (matches_active lid d a) eqn:M.
  - replace (retire_where clk lid d a) with (retire clk a)
      by (unfold retire_where; now rewrite M).
    assert (Hoff : active_of lid' (retire clk a) = false)
      by (unfold active_of, retire; cbn; apply andb_false_r).
    rewrite Hoff.
    destruct (active_of lid' a); cbn [filter]; [|exact IH].
    destruct (is_production a); cbn [List.length];
      [apply Nat.le_le_succ_r; exact IH | exact IH].
  - replace (retire_where clk lid d a) with a
      by (unfold retire_where; now rewrite M).
    destruct (active_of lid' a); cbn [filter]; [|exact IH].
    destruct (is_production a); cbn [List.length];
      [apply le_n_S; exact IH | exact IH].
Qed.

Section CapFacts.

Variable JWT_SECRET : string.
Variable Date_parse : string -> option Z.

Abbreviation activate := (activateLicense JWT_SECRET Date_parse).
Abbreviation step := (after_call JWT_SECRET Date_parse).
Abbreviation serve := (after_calls JWT_SECRET Date_parse).

Lemma activate_keeps_licenses clk licenseKey domain siteInfo (s : Store) :
  licenses (snd (activate clk licenseKey domain siteInfo s)) = licenses s.
Proof.
  unfold activateLicense. run_db.
  destruct (find _ (licenses s)); [|reflexivity].
  destruct (license_expired _ _ _); [reflexivity|].
  destruct (find _ (filter _ (activations s))); [reflexivity|].
  destruct (negb _ && _)%bool; [reflexivity|].
  destruct (existsb _ (activations s)); reflexivity.
Qed.

Lemma activate_other_license clk licenseKey domain siteInfo (s : Store)
    (license : License.t) (lid : Z) :
  lookup s licenseKey = Some license ->
  lid <> License.id license ->
  production_count (snd (activate clk licenseKey domain siteInfo s)) lid
  = production_count s lid.
Proof.
  intros Hfound Hother. unfold lookup in Hfound.
  unfold activateLicense. run_db. rewrite Hfound.
  destruct (license_expired _ _ _); [reflexivity|].
  destruct (find _ (filter _ (activations s))) as [existing|].
  - cbn [snd].
    pose proof (heartbeat_update_facts clk (wpVersion siteInfo) (pluginVersion siteInfo)
                  (Activation.id existing) s) as H.
    cbn zeta in H. unfold update_heartbeat_by_id in H. cbn [snd] in H.
    destruct H as (_ & _ & _ & _ & _ & H & _). apply H.
  - destruct (negb _ && _)%bool; [reflexivity|].
    destruct (existsb _ (activations s)); [reflexivity|].
    cbn [snd]. unfold production_count, active_rows. cbn [activations set_activations].
    rewrite filter_app. cbn [filter]. unfold active_of at 2.
    cbn [Activation.license_id].
    destruct (Z.eqb_spec (License.id license) lid) as [E|E]; [congruence|].
    cbn [andb]. now rewrite app_nil_r.
Qed.

Lemma step_keeps_licenses (s : Store) (c : Call) : licenses (step s c) = licenses s.
Proof.
  destruct c as [clk k d si | clk k d ip | clk k d si | clk k d t slug]; cbn [after_call].
  - apply activate_keeps_licenses.
  - unfold deactivateLicense. run_db.
    destruct (find _ (licenses s)); [|reflexivity].
    destruct (_ =? 0)%Z; reflexivity.
  - run_heartbeat.
    destruct (find _ (licenses s)); [|reflexivity].
    destruct (_ =? 0)%Z; reflexivity.
  - destruct (validateLicense_store JWT_SECRET Date_parse clk k d t slug s) as (r' & H).
    now rewrite H.
Qed.

Lemma step_keeps_caps (s : Store) (c : Call) :
  license_ids_unique s -> within_caps s -> within_caps (step s c).
Proof.
  intros Hpk Hcap l Hl. rewrite step_keeps_licenses in Hl.
  specialize (Hcap l Hl) as Hl_cap.
  destruct c as [clk k d si | clk k d ip | clk k d si | clk k d t slug]; cbn [after_call].
  - destruct (lookup s k) as [license|] eqn:Hfound.
    + destruct (Z.eq_dec (License.id l) (License.id license)) as [E|E].
      * assert (Hin : In license (licenses s))
          by (unfold lookup in Hfound; now apply find_some in Hfound).
        rewrite (Hpk l license Hl Hin E) in *.
        now apply activateLicense_respects_cap.
      * now rewrite (activate_other_license clk k d si s license _ Hfound E).
    + unfold lookup in Hfound. unfold activateLicense. run_db. now rewrite Hfound.
  - unfold deactivateLicense. run_db.
    destruct (find _ (licenses s)) as [license|]; [|exact Hl_cap].
    pose proof (production_count_after_retire s clk (License.id license) d
                  (License.id l) (seq_activations s)) as Hle.
    destruct (_ =? 0)%Z; cbn [snd];
      unfold production_count, active_rows in *;
      cbn [activations set_activations] in *; lia.
  - run_heartbeat.
    destruct (find _ (licenses s)) as [license|]; [|exact Hl_cap].
    assert (Hsame : production_count
                      (set_activations s
                         (map (touch_where_active clk (wpVersion si) (pluginVersion si)
                                 (License.id license) d) (activations s))
                         (seq_activations s)) (License.id l)
                    = production_count s (License.id l)).
    { unfold production_count, active_rows. cbn [activations set_activations].
      rewrite filter_map_stable by (intro a; apply touch_active_of).
      rewrite filter_map_stable by (intro a; apply touch_active_is_production).
      apply length_map. }
    destruct (_ =? 0)%Z; cbn [snd]; now rewrite Hsame.
  - destruct (validateLicense_store JWT_SECRET Date_parse clk k d t slug s) as (r' & H).
    now rewrite H.
Qed.

(** X25: the cap holds over any run of the service.  Starting from a store
    in which no license exceeds its cap (and license ids are unique, as the
    primary key makes them), any sequence of activate, deactivate, heartbeat
    and validate calls, served one after another with whatever arguments
    and whether they return or throw, ends in a store in which no license
    exceeds its cap; the licenses themselves are never touched. *)
Theorem caps_hold_over_calls (s : Store) (calls : list Call)
    (Hpk : license_ids_unique s)
    (Hcaps : within_caps s) :
  within_caps (serve s calls)
  /\ licenses (serve s calls) = licenses s.
Proof.
  unfold after_calls. revert s Hpk Hcaps.
  induction calls as [|c rest IH]; intros s Hpk Hcaps; cbn [fold_left].
  - split; [exact Hcaps | reflexivity].
  - assert (Hpk' : license_ids_unique (step s c)).
    { unfold license_ids_unique. rewrite step_keeps_licenses. exact Hpk. }
    destruct (IH (step s c) Hpk' (step_keeps_caps s c Hpk Hcaps)) as [H1 H2].
    split; [exact H1|]. rewrite H2. apply step_keeps_licenses.
Qed.

End CapFacts.

(** ** Requests in flight together *)

Section ScheduleFacts.

Variable JWT_SECRET : string.
Variable Date_parse : string -> option Z.

Abbreviation activate := (activateLicense JWT_SECRET Date_parse).
Abbreviation serve := (serve_activations JWT_SECRET Date_parse).
Abbreviation expired := (license_expired Date_parse).

(** A production domain without a row is activated while a slot is free. *)
Lemma production_domain_is_admitted
    (clk : Clock) (licenseKey domain : string) (siteInfo : SiteInfo) (s : Store)
    (license : License.t) :
  lookup s licenseKey = Some license ->
  expired license clk = false ->
  isDevEnvironment (DStr domain) = false ->
  pair_count s (License.id license) domain = 0%nat ->
  (Z.of_nat (production_count s (License.id license)) < License.max_activations license)%Z ->
  exists r s1,
    activate clk licenseKey domain siteInfo s = (Returned r, s1)
    /\ activate_success r = true
    /\ licenses s1 = licenses s
    /\ activations s1
       = (activations s
          ++ [Activation.mk (seq_activations s + 1) (License.id license) domain
                (siteUrl siteInfo) (wpVersion siteInfo) (pluginVersion siteInfo)
                (datetime_now clk) (Some (datetime_now clk)) 1 None])%list
    /\ production_count s1 (License.id license)
       = S (production_count s (License.id license)).
Proof.
  intros Hfound Hlive Hprod Hnorow Hslot.
  apply pair_count_zero in Hnorow.
  pose proof (no_row_no_active_row s _ _ Hnorow) as Hnone.
  unfold lookup in Hfound. unfold active_for, active_rows in Hnone.
  unfold production_count, active_rows in Hslot.
  assert (Hgate : (Z.of_nat (List.length
                     (filter is_production
                        (filter (active_of (License.id license)) (activations s))))
                   >=? License.max_activations license)%Z = false)
    by (rewrite Z.geb_leb; apply Z.leb_gt; exact Hslot).
  unfold activateLicense. run_db.
  rewrite Hfound, Hlive, Hnone, Hprod. cbn [negb andb]. rewrite Hgate, Hnorow.
  do 2 eexists. split; [reflexivity|]. split; [reflexivity|].
  cbn [licenses activations set_activations]. split; [reflexivity|].
  split; [reflexivity|].
  unfold production_count, active_rows. cbn [activations set_activations].
  rewrite active_filter_snoc by reflexivity.
  rewrite filter_app, length_app. cbn [filter]. unfold is_production at 2.
  cbn [Activation.domain]. rewrite Hprod. cbn [negb List.length]. lia.
Qed.

(** A production domain without an active row is refused once the slots
    are taken. *)
Lemma production_domain_is_refused
    (clk : Clock) (licenseKey domain : string) (siteInfo : SiteInfo) (s : Store)
    (license : License.t) :
  lookup s licenseKey = Some license ->
  expired license clk = false ->
  isDevEnvironment (DStr domain) = false ->
  active_for s (License.id license) domain = None ->
  (License.max_activations license <= Z.of_nat (production_count s (License.id license)))%Z ->
  exists message current,
    activate clk licenseKey domain siteInfo s
    = (Returned (ActivateFailed "limit_reached" message current), s).
Proof.
  intros Hfound Hlive Hprod Hnone Hfull.
  unfold lookup in Hfound. unfold active_for, active_rows in Hnone.
  unfold production_count, active_rows in Hfull.
  apply Z.leb_le in Hfull. rewrite <- Z.geb_leb in Hfull.
  unfold activateLicense. run_db.
  rewrite Hfound, Hlive, Hnone, Hprod. cbn [negb andb]. rewrite Hfull.
  do 2 eexists. reflexivity.
Qed.

(** Two requests for one free slot, served in the order given. *)
Lemma one_slot_in_order
    (licenseKey : string) (s : Store) (license : License.t)
    (a b : ActivationRequest) :
  lookup s licenseKey = Some license ->
  License.max_activations license = 1%Z ->
  expired license (request_clock a) = false ->
  expired license (request_clock b) = false ->
  isDevEnvironment (DStr (request_domain a)) = false ->
  isDevEnvironment (DStr (request_domain b)) = false ->
  request_domain a <> request_domain b ->
  production_count s (License.id license) = 0%nat ->
  pair_count s (License.id license) (request_domain a) = 0%nat ->
  pair_count s (License.id license) (request_domain b) = 0%nat ->
  exists served refused s',
    serve licenseKey [a; b] s = ([served; refused], s')
    /\ succeeded served = true
    /\ failure_tag refused = Some "limit_reached"
    /\ production_count s' (License.id license) = 1%nat.
Proof.
  intros Hfound Hcap Hlive_a Hlive_b Hprod_a Hprod_b Hdistinct Hfree Hnew_a Hnew_b.
  destruct (production_domain_is_admitted (request_clock a) licenseKey (request_domain a)
              (request_siteInfo a) s license Hfound Hlive_a Hprod_a Hnew_a)
    as (r & s1 & Hrun1 & Hok & Hlic & Hrows & Hcount); [rewrite Hfree, Hcap; lia|].
  assert (Hfound1 : lookup s1 licenseKey = Some license)
    by (unfold lookup; rewrite Hlic; exact Hfound).
  assert (Hnone : active_for s1 (License.id license) (request_domain b) = None).
  { apply no_row_no_active_row. rewrite Hrows, existsb_app.
    rewrite (pair_count_zero s _ _ Hnew_b). cbn [existsb orb].
    unfold same_pair. cbn [Activation.license_id Activation.domain].
    apply String.eqb_neq in Hdistinct. now rewrite Hdistinct, andb_false_r. }
  destruct (production_domain_is_refused (request_clock b) licenseKey (request_domain b)
              (request_siteInfo b) s1 license Hfound1 Hlive_b Hprod_b Hnone)
    as (message & current & Hrun2); [rewrite Hcount, Hfree, Hcap; lia|].
  exists (Returned r), (Returned (ActivateFailed "limit_reached" message current)), s1.
  cbn [serve_activations]. rewrite Hrun1, Hrun2.
  split; [reflexivity|]. split; [exact Hok|]. split; [reflexivity|].
  now rewrite Hcount, Hfree.
Qed.

(** However many requests are served, a license within its cap stays
    within it. *)
Lemma serve_activations_respects_cap
    (licenseKey : string) (requests : list ActivationRequest) (s : Store)
    (license : License.t) :
  lookup s licenseKey = Some license ->
  (Z.of_nat (production_count s (License.id license))
   <= License.max_activations license)%Z ->
  (Z.of_nat (production_count (snd (serve licenseKey requests s)) (License.id license))
   <= License.max_activations license)%Z.
Proof.
  revert s. induction requests as [|r rest IH]; intros s Hfound Hcap; [exact Hcap|].
  cbn [serve_activations].
  pose proof (activateLicense_respects_cap JWT_SECRET Date_parse (request_clock r)
                licenseKey (request_domain r) (request_siteInfo r) s license Hfound Hcap)
    as Hstep.
  pose proof (activate_keeps_licenses JWT_SECRET Date_parse (request_clock r) licenseKey
                (request_domain r) (request_siteInfo r) s) as Hlic.
  destruct (activate (request_clock r) licenseKey (request_domain r)
              (request_siteInfo r) s) as [outcome s1].
  cbn [snd] in Hstep, Hlic.
  assert (Hfound1 : lookup s1 licenseKey = Some license)
    by (unfold lookup; rewrite Hlic; exact Hfound).
  specialize (IH s1 Hfound1 Hstep).
  destruct (serve licenseKey rest s1) as [outcomes s2]. exact IH.
Qed.

(** C8 (amended): activation requests that are in flight together are
    served one after another, in some order (the handler is synchronous and
    the server a single process).  Whatever the requests and their order, a
    license within its cap stays within it: the active production
    activations never exceed [max_activations].  With a cap of 1, a license
    that has not expired and whose slot is free, and two requests for two
    different production domains neither of which has a row yet, either
    order ends with exactly one success and one [limit_reached]: never two
    successes, and one production activation afterwards. *)
Theorem concurrent_activations_respect_cap
    (licenseKey : string) (s : Store) (license : License.t)
    (first second : ActivationRequest) (schedule : list ActivationRequest)
    (Hfound : lookup s licenseKey = Some license)
    (Hcap : License.max_activations license = 1%Z)
    (Hlive1 : expired license (request_clock first) = false)
    (Hlive2 : expired license (request_clock second) = false)
    (Hprod1 : isDevEnvironment (DStr (request_domain first)) = false)
    (Hprod2 : isDevEnvironment (DStr (request_domain second)) = false)
    (Hdistinct : request_domain first <> request_domain second)
    (Hfree : production_count s (License.id license) = 0%nat)
    (Hnew1 : pair_count s (License.id license) (request_domain first) = 0%nat)
    (Hnew2 : pair_count s (License.id license) (request_domain second) = 0%nat)
    (Horder : schedule = [first; second] \/ schedule = [second; first]) :
  (exists served refused s',
     serve_activations JWT_SECRET Date_parse licenseKey schedule s
     = ([served; refused], s')
     /\ succeeded served = true
     /\ failure_tag refused = Some "limit_reached"
     /\ List.length (filter succeeded [served; refused]) = 1%nat
     /\ production_count s' (License.id license) = 1%nat)
  /\ (forall requests s0 license0,
        lookup s0 licenseKey = Some license0 ->
        (Z.of_nat (production_count s0 (License.id license0))
         <= License.max_activations license0)%Z ->
        (Z.of_nat (production_count
                     (snd (serve_activations JWT_SECRET Date_parse licenseKey requests s0))
                     (License.id license0))
         <= License.max_activations license0)%Z).
Proof.
  split.
  - assert (Hboth : exists served refused s',
              serve licenseKey schedule s = ([served; refused], s')
              /\ succeeded served = true
              /\ failure_tag refused = Some "limit_reached"
              /\ production_count s' (License.id license) = 1%nat).
    { destruct Horder as [H|H]; subst schedule.
      - now apply (one_slot_in_order licenseKey s license first second).
      - apply (one_slot_in_order licenseKey s license second first); auto. }
    destruct Hboth as (served & refused & s' & Hrun & Hok & Hrefused & Hcount).
    exists served, refused, s'. repeat split; try assumption.
    cbn [filter]. rewrite Hok.
    destruct refused as [[error message current|? ? ? ?|? ? ? ? ? ?]|e];
      try discriminate Hrefused. reflexivity.
  - intros requests s0 license0. apply serve_activations_respects_cap.
Qed.

End ScheduleFacts.

(** ** One kind of token is not another *)

(** X26: a license token is of no use as a download token.  Whatever token
    [activateLicense] may have issued, and whatever text is sent in its
    place, [validateDownloadToken] refuses it when it is read as a download
    token, for every plugin and version, even when the download secret is
    the very secret the license token was signed with: a license token
    names no plugin, so the answer is then [slug_mismatch]. *)
Theorem license_token_opens_no_download
    (DOWNLOAD_SECRET : string) (clk : Clock) (token : Token) (slug version : string) :
  (exists error message,
     validateDownloadToken DOWNLOAD_SECRET clk (as_download_token token) slug version
     = DownloadRefused error message)
  /\ (forall payload e,
        token = Signed payload DOWNLOAD_SECRET ->
        claim_exp payload = Some e ->
        (Date_now clk / 1000 < e)%Z ->
        validateDownloadToken DOWNLOAD_SECRET clk (as_download_token token) slug version
        = DownloadRefused "slug_mismatch" "Token not valid for this plugin").
Proof.
  unfold validateDownloadToken, as_download_token, jwt_verify_download.
  split.
  - destruct token as [payload secret|raw]; [|eexists; eexists; reflexivity].
    destruct (negb (String.eqb secret DOWNLOAD_SECRET)); [eexists; eexists; reflexivity|].
    cbn [dl_exp]. destruct (claim_exp payload) as [e|].
    + destruct (_ >=? _)%Z; eexists; eexists; reflexivity.
    + eexists; eexists; reflexivity.
  - intros payload e Ht He Hfresh. subst token.
    rewrite String.eqb_refl. cbn [negb dl_exp]. rewrite He.
    assert (H : (Date_now clk / 1000 >=? e)%Z = false)
      by (rewrite Z.geb_leb; apply Z.leb_gt; exact Hfresh).
    now rewrite H.
Qed.

(** ** Admin update of a license *)

Lemma patch_where_id_key clk p lid l :
  License.license_key (patch_where_id clk p lid l) = License.license_key l.
Proof. unfold patch_where_id. now destruct (_ =? _)%Z. Qed.

Lemma patch_where_id_id clk p lid l :
  License.id (patch_where_id clk p lid l) = License.id l.
Proof. unfold patch_where_id. now destruct (_ =? _)%Z. Qed.

(** X27: the admin PATCH of a license.  An unknown key is answered 404 and
    a body without usable fields 400 (a [max_activations] of 0, an empty
    [plan] or [email] do not count as fields), both without touching the
    store.  Otherwise the rows with the license's id get exactly the fields
    given, and [updated_at]; no license changes its key or id, and the key
    now finds the updated row; activations are untouched and no audit entry
    is written. *)
Theorem patch_license_outcomes
    (clk : Clock) (licenseKey : string) (p : LicensePatch) (s : Store) :
  (lookup s licenseKey = None ->
   patch_license clk licenseKey p s = (Returned (AdminError 404 "License not found"), s))
  /\ (forall license,
        lookup s licenseKey = Some license ->
        no_updates p = true ->
        patch_license clk licenseKey p s
        = (Returned (AdminError 400 "No fields to update"), s))
  /\ (forall license,
        lookup s licenseKey = Some license ->
        no_updates p = false ->
        exists s',
          patch_license clk licenseKey p s = (Returned (AdminDone "License updated"), s')
          /\ licenses s' = map (patch_where_id clk p (License.id license)) (licenses s)
          /\ map License.license_key (licenses s') = map License.license_key (licenses s)
          /\ map License.id (licenses s') = map License.id (licenses s)
          /\ lookup s' licenseKey = Some (patched clk p license)
          /\ activations s' = activations s
          /\ audit_log s' = audit_log s).
Proof.
  unfold lookup, patch_license, update_license. run_db.
  split; [|split].
  - intro Hnone. now rewrite Hnone.
  - intros license Hfound Hempty. now rewrite Hfound, Hempty.
  - intros license Hfound Hsome. rewrite Hfound, Hsome.
    eexists. split; [reflexivity|]. cbn [licenses activations audit_log].
    split; [reflexivity|].
    split; [rewrite map_map; apply map_ext; intro l; apply patch_where_id_key|].
    split; [rewrite map_map; apply map_ext; intro l; apply patch_where_id_id|].
    split; [|split; reflexivity].
    rewrite find_map_stable
      by (intro l; now rewrite patch_where_id_key).
    rewrite Hfound. cbn [option_map]. unfold patch_where_id.
    now rewrite Z.eqb_refl.
Qed.

(** ** Closed instances of the further properties *)

Module Checks.

Import Sample Fixture.

Abbreviation activate := (activateLicense secret Date_parse clock).
Abbreviation validate := (validateLicense secret Date_parse clock).
Abbreviation heartbeat := (recordHeartbeat Date_parse clock).
Abbreviation deactivate := (deactivateLicense clock).

(** At C8 as stated: a cap of 1 and two requests for two different
    production domains, on a license whose one slot is already taken by a
    third domain.  Both requests are refused, in either order: there is no
    success. *)
Lemma two_requests_for_a_taken_slot :
  lookup live_full key = Some (license_row (Some "2030-01-01") None 1)
  /\ License.max_activations (license_row (Some "2030-01-01") None 1) = 1%Z
  /\ isDevEnvironment (DStr "a.example.com") = false
  /\ isDevEnvironment (DStr "b.example.com") = false
  /\ map failure_tag
       (fst (serve_activations secret Date_parse key [request_a; request_b] live_full))
     = [Some "limit_reached"; Some "limit_reached"]
  /\ map failure_tag
       (fst (serve_activations secret Date_parse key [request_b; request_a] live_full))
     = [Some "limit_reached"; Some "limit_reached"]
  /\ filter succeeded
       (fst (serve_activations secret Date_parse key [request_a; request_b] live_full))
     = []
  /\ filter succeeded
       (fst (serve_activations secret Date_parse key [request_b; request_a] live_full))
     = [].
Proof. repeat split. Qed.

Lemma concurrent_activations_respect_cap_witness :
  lookup perpetual_fresh key = Some (license_row None None 1)
  /\ production_count perpetual_fresh 1 = 0%nat
  /\ exists served refused s',
       serve_activations secret Date_parse key [request_b; request_a] perpetual_fresh
       = ([served; refused], s')
       /\ succeeded served = true
       /\ failure_tag refused = Some "limit_reached"
       /\ production_count s' 1 = 1%nat.
Proof.
  split; [reflexivity|]. split; [reflexivity|].
  assert (Hdistinct : request_domain request_a <> request_domain request_b)
    by discriminate.
  destruct (proj1 (concurrent_activations_respect_cap secret Date_parse key
                     perpetual_fresh (license_row None None 1) request_a request_b
                     [request_b; request_a]
                     eq_refl eq_refl eq_refl eq_refl eq_refl eq_refl
                     Hdistinct eq_refl eq_refl eq_refl (or_intror eq_refl)))
    as (served & refused & s' & Hrun & Hok & Hrefused & _ & Hcount).
  exists served, refused, s'. repeat split; assumption.
Defined.

Lemma recordHeartbeat_failures_witness :
  lookup perpetual_fresh key = Some (license_row None None 1)
  /\ active_for perpetual_fresh 1 "example.com" = None
  /\ heartbeat key "example.com" site perpetual_fresh
     = (Returned (HeartbeatFailed "not_activated"
                    (Some "No active activation for this domain")), perpetual_fresh).
Proof.
  split; [reflexivity|]. split; [reflexivity|].
  apply (proj2 (recordHeartbeat_failures Date_parse clock key "example.com" site
                  perpetual_fresh) (license_row None None 1)); reflexivity.
Defined.

Lemma recordHeartbeat_success_witness :
  lookup expired_full key = Some (license_row (Some "2024-01-01") None 1)
  /\ active_for expired_full 1 "example.com" = Some (activation_row 1 "example.com" 1)
  /\ exists s',
       heartbeat key "example.com" site expired_full
       = (Returned (HeartbeatRecorded false (Some "2024-01-01") "standard"), s')
       /\ audit_log s' = [].
Proof.
  split; [reflexivity|]. split; [reflexivity|].
  destruct (recordHeartbeat_success Date_parse clock key "example.com" site expired_full
              (license_row (Some "2024-01-01") None 1) (activation_row 1 "example.com" 1)
              eq_refl eq_refl)
    as (s' & Hrun & _ & Haudit & _).
  exists s'. split; [exact Hrun | exact Haudit].
Defined.

Lemma issued_token_validates_witness :
  activate key "example.com" site perpetual_fresh = (Returned first_result, activated)
  /\ (exists summary product activatedAt,
        validate key "example.com" (issued_token first_result) None activated
        = (Returned (Valid summary product "example.com" activatedAt), activated))
  /\ activate key "example.com" site undated = (Returned undated_result, undated_activated)
  /\ Date_parse "next year" = None
  /\ validate key "example.com" (issued_token undated_result) None undated_activated
     = (Returned (ValidateFailed "invalid_token" "Invalid or expired token" None),
        undated_activated).
Proof.
  split; [reflexivity|]. split; [|split; [reflexivity|split; [reflexivity|]]].
  - apply (proj1 (issued_token_validates secret Date_parse clock clock key "example.com"
                    site perpetual_fresh activated first_result
                    (Signed (mkClaims key "example.com" "standard" (Some 1825113600%Z))
                            secret)
                    (license_row None None 1) eq_refl eq_refl eq_refl) 1825113600%Z).
    + reflexivity.
    + reflexivity.
    + vm_compute. reflexivity.
  - apply (proj1 (proj2 (issued_token_validates secret Date_parse clock clock key
                           "example.com" site undated undated_activated undated_result
                           (Signed (mkClaims key "example.com" "standard" None) secret)
                           (license_row (Some "next year") None 1)
                           eq_refl eq_refl eq_refl))).
    reflexivity.
Defined.

Lemma token_is_bound_to_domain_witness :
  active_for perpetual_active 1 "example.com" = Some (activation_row 1 "example.com" 1)
  /\ validate key "example.com"
       (Some (generateToken secret Date_parse clock (license_row None None 1)
                "other.example.org")) None perpetual_active
     = (Returned (ValidateFailed "token_mismatch" "Token does not match domain/license"
                    None), perpetual_active).
Proof.
  split; [reflexivity|].
  apply (token_is_bound_to_domain secret Date_parse clock clock key "other.example.org"
           "example.com" perpetual_active (license_row None None 1)
           (activation_row 1 "example.com" 1) 1825113600).
  - reflexivity.
  - reflexivity.
  - reflexivity.
  - discriminate.
  - reflexivity.
  - vm_compute. reflexivity.
Defined.

Lemma deactivated_domain_is_not_served_witness :
  deactivate key "example.com" None perpetual_active
  = (Returned (Deactivated "License deactivated successfully" 1), deactivated)
  /\ heartbeat key "example.com" site deactivated
     = (Returned (HeartbeatFailed "not_activated"
                    (Some "No active activation for this domain")), deactivated).
Proof.
  split; [reflexivity|].
  apply (deactivated_domain_is_not_served secret Date_parse clock clock key "example.com"
           None perpetual_active deactivated "License deactivated successfully" 1).
  reflexivity.
Defined.

Lemma created_license_is_found_witness :
  exists created s',
    createLicense JSON_stringify counting clock params_bound perpetual_fresh
    = (Returned created, s')
    /\ created_licenseKey created = "TLAT-ABCD-EFGH-JKLM-NPQR"
    /\ lookup s' "TLAT-ABCD-EFGH-JKLM-NPQR"
       = Some (License.mk 2 "TLAT-ABCD-EFGH-JKLM-NPQR" (Some 1%Z) "new@example.com"
                 "standard" 1 None "2026-11-02 00:00:00" "2026-11-02 00:00:00"
                 (Some "{}"))
    /\ lookup s' key = lookup perpetual_fresh key.
Proof.
  exists (mkCreatedLicense 2 "TLAT-ABCD-EFGH-JKLM-NPQR" (Some 1%Z) "new@example.com"
            "standard" 1 None).
  exists (snd (createLicense JSON_stringify counting clock params_bound perpetual_fresh)).
  assert (Hrun : createLicense JSON_stringify counting clock params_bound perpetual_fresh
                 = (Returned (mkCreatedLicense 2 "TLAT-ABCD-EFGH-JKLM-NPQR" (Some 1%Z)
                                "new@example.com" "standard" 1 None),
                    snd (createLicense JSON_stringify counting clock params_bound
                           perpetual_fresh)))
    by reflexivity.
  destruct (created_license_is_found JSON_stringify counting clock params_bound
              perpetual_fresh _ _ Hrun)
    as (Hkey & _ & Hfound & _ & Hothers & _).
  split; [exact Hrun|]. split; [reflexivity|]. split; [exact Hfound|].
  apply Hothers. discriminate.
Defined.

Lemma new_activation_accounting_witness :
  activate key "example.com" site perpetual_fresh = (Returned first_result, activated)
  /\ production_count activated 1 = 1%nat
  /\ List.length (audit_log activated) = 1%nat.
Proof.
  assert (Hrun : activate key "example.com" site perpetual_fresh
                 = (Returned first_result, activated)) by reflexivity.
  destruct (new_activation_accounting secret Date_parse clock key "example.com" site
              perpetual_fresh activated (license_row None None 1) _ _ _ _ _ _
              eq_refl Hrun)
    as (Hprod & _ & _ & _ & _ & _ & Haudit).
  split; [exact Hrun|]. split.
  - apply Nat2Z.inj. symmetry. exact Hprod.
  - rewrite Haudit. reflexivity.
Defined.

Lemma activateLicense_throws_only_on_retired_row_witness :
  activate key "example.com" site retired
  = (Thrown (SqliteError "SQLITE_CONSTRAINT_UNIQUE"
               "UNIQUE constraint failed: activations.license_id, activations.domain"),
     retired)
  /\ exists license,
       lookup retired key = Some license
       /\ (1 <= pair_count retired (License.id license) "example.com")%nat.
Proof.
  assert (Hrun : activate key "example.com" site retired
                 = (Thrown (SqliteError "SQLITE_CONSTRAINT_UNIQUE"
                      "UNIQUE constraint failed: activations.license_id, activations.domain"),
                    retired)) by reflexivity.
  destruct (activateLicense_throws_only_on_retired_row secret Date_parse clock key
              "example.com" site retired retired _ Hrun)
    as (_ & _ & _ & _ & license & Hfound & _ & _ & Hrow & _).
  split; [exact Hrun|]. exists license. split; [exact Hfound | exact Hrow].
Defined.

Lemma development_domain_is_admitted_witness :
  (Z.of_nat (production_count live_full 1) >= 1)%Z
  /\ exists s' count,
       activate key "site.local" site live_full
       = (Returned (Activated
                      "License activated for development environment (doesn't count toward limit)"
                      (mkNewActivation 2 "site.local" "2026-11-02T00:00:00.000Z" true)
                      (generateToken secret Date_parse clock
                         (license_row (Some "2030-01-01") None 1) "site.local")
                      0 1 count), s')
       /\ production_count s' 1 = 1%nat.
Proof.
  split; [vm_compute; discriminate|].
  destruct (development_domain_is_admitted secret Date_parse clock key "site.local" site
              live_full (license_row (Some "2030-01-01") None 1)
              eq_refl eq_refl eq_refl eq_refl)
    as (s' & count & Hrun & Hcount).
  exists s', count. split; [exact Hrun | exact Hcount].
Defined.

Lemma generateLicenseKey_format_witness :
  String.length (generateLicenseKey counting) = 24%nat
  /\ generateLicenseKey counting = "TLAT-ABCD-EFGH-JKLM-NPQR".
Proof.
  split; [|reflexivity].
  apply (generateLicenseKey_format counting). unfold counting. intros k Hk. lia.
Defined.

Lemma generateLicenseKey_injective_witness :
  generateLicenseKey counting = generateLicenseKey counting_then_zero
  /\ counting 7%nat = counting_then_zero 7%nat.
Proof.
  split; [reflexivity|].
  apply (generateLicenseKey_injective counting counting_then_zero).
  - unfold counting. intros k Hk. lia.
  - unfold counting_then_zero. intros k Hk. destruct (k <? 16)%nat; lia.
  - reflexivity.
  - lia.
Defined.

Abbreviation POST_activate := (post_activate secret Date_parse clock).
Abbreviation POST_validate := (post_validate secret Date_parse clock).
Abbreviation POST_heartbeat := (post_heartbeat Date_parse clock).

Lemma post_activate_status_witness :
  POST_activate (request (Some "TLAT-ZZZZ-ZZZZ-ZZZZ-ZZZZ") (Some "example.com"))
    perpetual_fresh
  = (Returned (404, ResultObject (ActivateFailed "invalid_key" "License key not found"
                                    None)), perpetual_fresh)
  /\ lookup perpetual_fresh "TLAT-ZZZZ-ZZZZ-ZZZZ-ZZZZ" = None.
Proof.
  assert (Hrun : POST_activate
                   (request (Some "TLAT-ZZZZ-ZZZZ-ZZZZ-ZZZZ") (Some "example.com"))
                   perpetual_fresh
                 = (Returned (404, ResultObject (ActivateFailed "invalid_key"
                                                   "License key not found" None)),
                    perpetual_fresh)) by reflexivity.
  split; [exact Hrun|].
  destruct (proj2 (post_activate_status secret Date_parse clock _ _ _ _ _ Hrun) eq_refl)
    as (result & _ & _ & H404 & _).
  apply H404. reflexivity.
Defined.

Lemma post_activate_retired_domain_is_500_witness :
  (1 <= pair_count retired 1 "example.com")%nat
  /\ respond true (POST_activate (request (Some key) (Some "example.com"))) retired
     = ((500, ErrorObject "internal_error" "An internal error occurred"), retired).
Proof.
  split; [vm_compute; lia|].
  apply (post_activate_retired_domain_is_500 secret Date_parse true clock
           (request (Some key) (Some "example.com")) retired (license_row None None 1)).
  - reflexivity.
  - reflexivity.
  - reflexivity.
  - reflexivity.
  - vm_compute. lia.
  - right. vm_compute. reflexivity.
Defined.

Lemma validation_routes_skip_product_check_witness :
  lookup expired_bound key = Some (license_row (Some "2024-01-01") (Some 1%Z) 1)
  /\ POST_validate (request (Some key) (Some "example.com")) expired_bound
     = (Returned (400, ResultObject (ValidateFailed "expired" "License has expired"
                                       (Some "2024-01-01"))), expired_bound).
Proof.
  split; [reflexivity|].
  destruct (proj1 (validation_routes_skip_product_check secret Date_parse clock
                     (request (Some key) (Some "example.com")) expired_bound))
    as (status & payload & Hrun & _ & Hexp).
  destruct (Hexp (license_row (Some "2024-01-01") (Some 1%Z) 1) eq_refl eq_refl eq_refl)
    as [Hs Hp].
  rewrite Hrun, Hs, Hp. reflexivity.
Defined.

Lemma heartbeat_accepted_after_expiry_witness :
  license_expired Date_parse (license_row (Some "2024-01-01") None 1) clock = true
  /\ (exists s',
        POST_heartbeat (request (Some key) (Some "example.com")) expired_full
        = (Returned (200, ResultObject (HeartbeatRecorded false (Some "2024-01-01")
                                          "standard")), s'))
  /\ POST_validate (request (Some key) (Some "example.com")) expired_full
     = (Returned (400, ResultObject (ValidateFailed "expired" "License has expired"
                                       (Some "2024-01-01"))), expired_full).
Proof.
  split; [reflexivity|].
  destruct (heartbeat_accepted_after_expiry secret Date_parse clock
              (request (Some key) (Some "example.com")) expired_full
              (license_row (Some "2024-01-01") None 1) (activation_row 1 "example.com" 1)
              eq_refl eq_refl eq_refl eq_refl)
    as ((s' & Hrun & _) & Hval).
  split; [exists s'; exact Hrun | exact Hval].
Defined.

Lemma requireAdmin_passes_iff_witness :
  requireAdmin (Some "s3cret") (Some "Bearer s3cret") = Next
  /\ requireAdmin (Some "s3cret") (Some "Bearer guess") = Rejected 403 "Invalid admin key".
Proof.
  split; [|reflexivity].
  apply (proj1 (requireAdmin_passes_iff (Some "s3cret") (Some "Bearer s3cret"))).
  reflexivity.
Defined.

Lemma product_routes_need_both_keys_witness :
  product_route_gate (Some "s3cret") (Some "Bearer s3cret") (Some "s3cret") = Next
  /\ product_route_gate (Some "s3cret") None (Some "s3cret")
     = Rejected 401 "Missing authorization header"
  /\ product_route_gate None (Some "Bearer dev-admin-key") (Some "dev-admin-key") <> Next
  /\ requireAdmin None (Some "Bearer dev-admin-key") = Next.
Proof.
  split; [|split].
  - apply (proj1 (product_routes_need_both_keys (Some "s3cret") (Some "Bearer s3cret")
                    (Some "s3cret"))).
    exists "s3cret". repeat split. discriminate.
  - apply (proj1 (proj2 (product_routes_need_both_keys (Some "s3cret") None
                           (Some "s3cret")))).
  - apply (proj2 (proj2 (product_routes_need_both_keys None (Some "Bearer dev-admin-key")
                           (Some "dev-admin-key")))).
    left. reflexivity.
Defined.

Lemma mapped_ipv4_shares_rate_limit_key_witness :
  normalizeIp (Some "::ffff:203.0.113.9") = "203.0.113.9"
  /\ licenseKeyGenerator (Some "example.com") None (Some "::ffff:203.0.113.9")
     = licenseKeyGenerator (Some "example.com") None (Some "203.0.113.9").
Proof.
  destruct (mapped_ipv4_shares_rate_limit_key "203.0.113.9" (Some "example.com") None)
    as (H1 & _ & H3).
  - discriminate.
  - reflexivity.
  - split; [exact H1 | exact H3].
Defined.

Lemma normalizeIp_keeps_four_fields_witness :
  normalizeIp (Some "2001:db8:85a3:0:0:8a2e:370:7334") = "2001:db8:85a3:0"
  /\ normalizeIp (Some "2001:db8:85a3:0:ffff:ffff:ffff:1") = "2001:db8:85a3:0"
  /\ normalizeIp (Some "2001:db8::1") = "2001:db8::1"
  /\ normalizeIp (Some "2001:db8::2") = "2001:db8::2".
Proof.
  destruct normalizeIp_keeps_four_fields as [Hlong Hshort].
  split; [|split; [|split]].
  - apply (Hlong "2001:db8:85a3:0" "0:8a2e:370:7334"); reflexivity.
  - apply (Hlong "2001:db8:85a3:0" "ffff:ffff:ffff:1"); reflexivity.
  - apply (Hshort "2001:db8::1"); [reflexivity | reflexivity | vm_compute; lia].
  - apply (Hshort "2001:db8::2"); [reflexivity | reflexivity | vm_compute; lia].
Defined.

Abbreviation compare := (compareVersions Z 0%Z Z.ltb Number).

Lemma compareVersions_consistent_witness :
  compare "1.10.0" "1.9.3" = 1%Z /\ compare "1.9.3" "1.10.0" = (-1)%Z.
Proof.
  destruct (compareVersions_consistent Z 0%Z Z.ltb Number
              Z.ltb_irrefl
              (fun x y H => proj2 (Z.ltb_ge y x) (Z.lt_le_incl x y (proj1 (Z.ltb_lt x y) H)))
              "1.9.3" "1.10.0")
    as (_ & Hswap & _).
  split; [reflexivity|]. rewrite Hswap. reflexivity.
Defined.

Lemma compareVersions_ignores_trailing_zero_witness :
  compare "1.2.0" "1.2" = 0%Z
  /\ compare "1.2.beta" "1.2" = 0%Z
  /\ compare "1.2.0" "1.3" = compare "1.2" "1.3".
Proof.
  split; [|split].
  - apply (compareVersions_ignores_trailing_zero Z 0%Z Z.ltb Number Z.ltb_irrefl
             "1.2" "0" "1.2"); [reflexivity | right; reflexivity].
  - apply (compareVersions_ignores_trailing_zero Z 0%Z Z.ltb Number Z.ltb_irrefl
             "1.2" "beta" "1.2"); [reflexivity | left; reflexivity].
  - apply (compareVersions_ignores_trailing_zero Z 0%Z Z.ltb Number Z.ltb_irrefl
             "1.2" "0" "1.3"); [reflexivity | right; reflexivity].
Defined.

Lemma download_token_round_trip_witness :
  validateDownloadToken secret clock
    (download_token secret clock "tutor-lms-advanced-tracking" "1.0.1" key "example.com")
    "tutor-lms-advanced-tracking" "1.0.1"
  = DownloadAllowed (Some "example.com") (Some "TLAT-AAA...").
Proof.
  apply (download_token_round_trip secret clock clock "tutor-lms-advanced-tracking"
           "1.0.1" key "example.com").
  vm_compute. reflexivity.
Defined.

Lemma download_token_refusals_witness :
  validateDownloadToken secret (mkClock (Date_now clock + 3600000) "" "")
    (download_token secret clock "tutor-lms-advanced-tracking" "1.0.1" key "example.com")
    "tutor-lms-advanced-tracking" "1.0.1"
  = DownloadRefused "token_expired" "Download link has expired. Request a new one."
  /\ validateDownloadToken secret clock
       (download_token secret clock "tutor-lms-advanced-tracking" "1.0.1" key
          "example.com")
       "tutor-lms-advanced-tracking" "1.0.2"
     = DownloadRefused "version_mismatch" "Token not valid for this version".
Proof.
  split.
  - apply (proj1 (download_token_refusals secret clock
                    (mkClock (Date_now clock + 3600000) "" "")
                    "tutor-lms-advanced-tracking" "1.0.1" key "example.com")).
    vm_compute. discriminate.
  - apply (proj1 (proj2 (download_token_refusals secret clock clock
                           "tutor-lms-advanced-tracking" "1.0.1" key "example.com"))).
    + vm_compute. reflexivity.
    + discriminate.
Defined.

Lemma caps_hold_over_calls_witness :
  within_caps perpetual_fresh
  /\ within_caps (after_calls secret Date_parse perpetual_fresh calls)
  /\ production_count (after_calls secret Date_parse perpetual_fresh calls) 1 = 1%nat.
Proof.
  assert (Hpk : license_ids_unique perpetual_fresh).
  { intros l l' [<-|[]] [<-|[]] _. reflexivity. }
  assert (Hcaps : within_caps perpetual_fresh).
  { intros l [<-|[]]. vm_compute. discriminate. }
  split; [exact Hcaps|]. split; [|reflexivity].
  apply (caps_hold_over_calls secret Date_parse perpetual_fresh calls Hpk Hcaps).
Defined.

Lemma license_token_opens_no_download_witness :
  issued_token first_result
  = Some (Signed (mkClaims key "example.com" "standard" (Some 1825113600%Z)) secret)
  /\ validateDownloadToken secret clock
       (as_download_token
          (Signed (mkClaims key "example.com" "standard" (Some 1825113600%Z)) secret))
       "tutor-lms-advanced-tracking" "1.0.1"
     = DownloadRefused "slug_mismatch" "Token not valid for this plugin".
Proof.
  split; [reflexivity|].
  apply (proj2 (license_token_opens_no_download secret clock
                  (Signed (mkClaims key "example.com" "standard" (Some 1825113600%Z))
                          secret)
                  "tutor-lms-advanced-tracking" "1.0.1")
           (mkClaims key "example.com" "standard" (Some 1825113600%Z)) 1825113600).
  - reflexivity.
  - reflexivity.
  - vm_compute. reflexivity.
Defined.

Lemma patch_license_outcomes_witness :
  no_updates (mkLicensePatch None (Some 0%Z) None (Some "")) = true
  /\ patch_license clock key (mkLicensePatch None (Some 0%Z) None (Some "")) perpetual_active
     = (Returned (AdminError 400 "No fields to update"), perpetual_active)
  /\ exists s',
       patch_license clock key (mkLicensePatch (Some "pro") (Some 3%Z) (Some None) None)
         perpetual_active
       = (Returned (AdminDone "License updated"), s')
       /\ lookup s' key
          = Some (License.mk 1 key None "test@example.com" "pro" 3 None
                    "2023-01-01 00:00:00" "2026-11-02 00:00:00" None).
Proof.
  split; [reflexivity|]. split.
  - apply (proj1 (proj2 (patch_license_outcomes clock key
                           (mkLicensePatch None (Some 0%Z) None (Some ""))
                           perpetual_active)) (license_row None None 1)); reflexivity.
  - destruct (proj2 (proj2 (patch_license_outcomes clock key
                              (mkLicensePatch (Some "pro") (Some 3%Z) (Some None) None)
                              perpetual_active))
                (license_row None None 1) eq_refl eq_refl)
      as (s' & Hrun & _ & _ & _ & Hfound & _).
    exists s'. split; [exact Hrun | exact Hfound].
Defined.

End Checks.
